(** * The XMLHttpRequest fetch pipeline of jsdom

    A shallow embedding of [lib/jsdom/living/xhr/xhr-utils.js] (the CORS
    helpers, the error steps and [createClient]), of the scheme dispatch,
    the request options and the request loop of
    [lib/jsdom/browser/resources/resource-loader.js], and of the request
    helper request.js, followed by the properties of the pipeline.

    Strings are byte strings: a JavaScript string is represented by its
    UTF-8 bytes, and case conversion and trimming act on the ASCII range,
    which is the range of HTTP methods and header names. *)

From Stdlib Require Import String Ascii List Bool ZArith NArith Arith Lia DecimalString.
Import ListNotations.
Local Open Scope string_scope.

Set Implicit Arguments.

(* ------------------------------------------------------------------ *)
(** ** The JavaScript runtime, as far as the code uses it *)

Module Js.

Definition is_upper (c : ascii) : bool :=
  (65 <=? N_of_ascii c)%N && (N_of_ascii c <=? 90)%N.

Definition is_lower (c : ascii) : bool :=
  (97 <=? N_of_ascii c)%N && (N_of_ascii c <=? 122)%N.

Definition lower_char (c : ascii) : ascii :=
  if is_upper c then ascii_of_N (N_of_ascii c + 32) else c.

Definition upper_char (c : ascii) : ascii :=
  if is_lower c then ascii_of_N (N_of_ascii c - 32) else c.

(** [String.prototype.toLowerCase] and [toUpperCase]. *)
Fixpoint toLowerCase (s : string) : string :=
  match s with
  | EmptyString => EmptyString
  | String c s' => String (lower_char c) (toLowerCase s')
  end.

Fixpoint toUpperCase (s : string) : string :=
  match s with
  | EmptyString => EmptyString
  | String c s' => String (upper_char c) (toUpperCase s')
  end.

(** White space of [String.prototype.trim] in the ASCII range: TAB, LF,
    VT, FF, CR and SPACE. *)
Definition is_space (c : ascii) : bool :=
  let n := N_of_ascii c in
  ((9 <=? n)%N && (n <=? 13)%N) || (n =? 32)%N.

Fixpoint trimStart (s : string) : string :=
  match s with
  | EmptyString => EmptyString
  | String c s' => if is_space c then trimStart s' else s
  end.

(** [trimEnd] keeps a character when it is not white space or when
    something remains after it. *)
Fixpoint trimEnd (s : string) : string :=
  match s with
  | EmptyString => EmptyString
  | String c s' =>
      match trimEnd s' with
      | EmptyString => if is_space c then EmptyString else String c EmptyString
      | t => String c t
      end
  end.

Definition trim (s : string) : string := trimEnd (trimStart s).

(** [Array.prototype.join]. *)
Fixpoint join (sep : string) (l : list string) : string :=
  match l with
  | [] => ""
  | [x] => x
  | x :: l' => x ++ sep ++ join sep l'
  end.

(** [s.split(/,[ \t]*/)]: the separator is a comma with the blanks and
    tabs that follow it.  [skip] is set while the tail of a separator is
    being consumed; [cur] is the piece read so far. *)
Definition is_blank (c : ascii) : bool :=
  ((N_of_ascii c =? 32)%N || (N_of_ascii c =? 9)%N).

Fixpoint split_from (skip : bool) (cur : string) (s : string) : list string :=
  match s with
  | EmptyString => [cur]
  | String c s' =>
      if skip && is_blank c then split_from true cur s'
      else if (N_of_ascii c =? 44)%N then cur :: split_from true "" s'
      else split_from false (cur ++ String c EmptyString) s'
  end.

Definition splitHeaderList (s : string) : list string := split_from false "" s.

(** Truthiness of a string-or-undefined value: [undefined] and the empty
    string are falsy. *)
Definition truthy (v : option string) : bool :=
  match v with
  | Some s => negb (s =? "")
  | None => false
  end.

(** Membership in a [Set] of strings. *)
Definition has (set : list string) (x : string) : bool :=
  existsb (String.eqb x) set.

(** *** [Buffer.from(s).toString("base64")] *)

Definition b64_alphabet : string :=
  "ABCDEFGHIJKLMNOPQRSTUVWXYZabcdefghijklmnopqrstuvwxyz0123456789+/".

Definition b64_digit (n : N) : ascii :=
  match String.get (N.to_nat n) b64_alphabet with
  | Some c => c
  | None => "="%char
  end.

Definition b64_pad : ascii := "="%char.

Fixpoint base64 (s : string) : string :=
  match s with
  | EmptyString => EmptyString
  | String a EmptyString =>
      let x := N_of_ascii a in
      String (b64_digit (N.shiftr x 2))
        (String (b64_digit (N.shiftl (N.land x 3) 4))
           (String b64_pad (String b64_pad EmptyString)))
  | String a (String b EmptyString) =>
      let x := N_of_ascii a in
      let y := N_of_ascii b in
      String (b64_digit (N.shiftr x 2))
        (String (b64_digit (N.lor (N.shiftl (N.land x 3) 4) (N.shiftr y 4)))
           (String (b64_digit (N.shiftl (N.land y 15) 2))
              (String b64_pad EmptyString)))
  | String a (String b (String c rest)) =>
      let x := N_of_ascii a in
      let y := N_of_ascii b in
      let z := N_of_ascii c in
      String (b64_digit (N.shiftr x 2))
        (String (b64_digit (N.lor (N.shiftl (N.land x 3) 4) (N.shiftr y 4)))
           (String (b64_digit (N.lor (N.shiftl (N.land y 15) 2) (N.shiftr z 6)))
              (String (b64_digit (N.land z 63)) (base64 rest))))
  end.

(** *** Plain objects used as maps

    An object is given by its own properties in the order [for ... in]
    and [Object.keys] enumerate them.  A property write replaces the value
    in place or appends the property, which is the enumeration order of
    JavaScript for every name that is not an array index; the names this
    code writes are header names. *)

Definition obj (V : Type) : Type := list (string * V).

Fixpoint get {V} (o : obj V) (k : string) : option V :=
  match o with
  | [] => None
  | (k', v) :: o' => if k' =? k then Some v else get o' k
  end.

Fixpoint set {V} (o : obj V) (k : string) (v : V) : obj V :=
  match o with
  | [] => [(k, v)]
  | (k', v') :: o' => if k' =? k then (k', v) :: o' else (k', v') :: set o' k v
  end.

Definition keys {V} (o : obj V) : list string := map fst o.

End Js.

(* ------------------------------------------------------------------ *)
(** ** The objects of the pipeline *)

(** What a promise of the transport settles to.  [Pending] is a promise
    that never settles. *)
Inductive Settled (A : Type) : Type :=
| Fulfilled (a : A)
| Rejected (reason : string)
| Pending.
Arguments Rejected {A} reason.
Arguments Pending {A}.

(** Exceptions and rejection reasons. *)
Inductive Exn : Type :=
| DOMException (message name : string)
| Error (message : string)
| TypeError (message : string)
| ReferenceError (message : string)
| Reason (reason : string).

(** [new URL(flag.uri)]; parsing is the business of whatwg-url. *)
Record URL : Type := mkURL {
  href : string;
  protocol : string;
  url_origin : string;
  pathname : string
}.

Record Auth : Type := mkAuth { user : string; pass : string }.

(** A cookie jar, seen through [getCookies(uri, cb)]: the cookie strings it
    hands to the callback for the request's URL. *)
Record CookieJar : Type := mkJar { cookieStrings : list string }.

Module Flag.
Record t : Type := mk {
  uri : URL;
  method : string;
  requestHeaders : Js.obj string;
  referrer : string;
  userAgent : string;
  origin : string;
  withCredentials : bool;
  synchronous : bool;
  proxy : option string;
  strictSSL : bool;
  auth : option Auth;
  cookieJar : option CookieJar;
  body : option string;
  formData : bool;
  preflight : bool
}.

Definition set_preflight (b : bool) (f : t) : t :=
  mk (uri f) (method f) (requestHeaders f) (referrer f) (userAgent f)
     (origin f) (withCredentials f) (synchronous f) (proxy f) (strictSSL f)
     (auth f) (cookieJar f) (body f) (formData f) b.

Definition set_cookieJar (j : option CookieJar) (f : t) : t :=
  mk (uri f) (method f) (requestHeaders f) (referrer f) (userAgent f)
     (origin f) (withCredentials f) (synchronous f) (proxy f) (strictSSL f)
     (auth f) j (body f) (formData f) (preflight f).
End Flag.

Module Properties.
Record t : Type := mk {
  error : string;
  send : bool;
  uploadComplete : bool;
  uploadListener : bool;
  responseCache : option string;
  responseTextCache : option string;
  responseXMLCache : option string;
  responseHeaders : Js.obj string;
  origin : string
}.

Definition set_error (e : string) (p : t) : t :=
  mk e (send p) (uploadComplete p) (uploadListener p) (responseCache p)
     (responseTextCache p) (responseXMLCache p) (responseHeaders p) (origin p).

Definition set_send (b : bool) (p : t) : t :=
  mk (error p) b (uploadComplete p) (uploadListener p) (responseCache p)
     (responseTextCache p) (responseXMLCache p) (responseHeaders p) (origin p).

Definition set_uploadComplete (b : bool) (p : t) : t :=
  mk (error p) (send p) b (uploadListener p) (responseCache p)
     (responseTextCache p) (responseXMLCache p) (responseHeaders p) (origin p).

(** The four assignments of [setResponseToNetworkError] to [properties]. *)
Definition clear_response (p : t) : t :=
  mk (error p) (send p) (uploadComplete p) (uploadListener p) None None None
     [] (origin p).
End Properties.

Definition UNSENT : Z := 0.
Definition OPENED : Z := 1.
Definition HEADERS_RECEIVED : Z := 2.
Definition LOADING : Z := 3.
Definition DONE : Z := 4.

Record Xhr : Type := mkXhr {
  flag : Flag.t;
  properties : Properties.t;
  readyState : Z;
  status : Z;
  statusText : string;
  ownerDocument : bool
}.

Definition with_flag (g : Flag.t -> Flag.t) (x : Xhr) : Xhr :=
  mkXhr (g (flag x)) (properties x) (readyState x) (status x)
        (statusText x) (ownerDocument x).

Definition with_properties (g : Properties.t -> Properties.t) (x : Xhr) : Xhr :=
  mkXhr (flag x) (g (properties x)) (readyState x) (status x)
        (statusText x) (ownerDocument x).

Definition set_readyState (n : Z) (x : Xhr) : Xhr :=
  mkXhr (flag x) (properties x) n (status x) (statusText x) (ownerDocument x).

Definition set_status (n : Z) (t : string) (x : Xhr) : Xhr :=
  mkXhr (flag x) (properties x) (readyState x) n t (ownerDocument x).

(** The two emitters of [createClient]. *)
Inductive Emitter : Type := client | response.

(** The targets of [fireAnEvent]. *)
Inductive Target : Type := onXhr | onUpload.

(** Everything an observer can see, in the order it happens.  A DOM event
    records the request object as its listeners find it. *)
Inductive Event : Type :=
| Fired (name : string) (target : Target) (seen : Xhr)
| JsdomError (message : string)
| EmitResponse (statusCode : Z) (headers : Js.obj string)
| EmitData (on : Emitter) (buffer : string)
| EmitEnd (on : Emitter)
| EmitRedirect
| EmitAbort
| EmitError (err : Exn).

(** The headers of a response object.  [validCORSHeaders] reads header
    names as properties.  The [response] emitter of [createClient] keeps its
    headers in a plain object; a response of the transport keeps them in a
    [Headers] instance, read with [has], [get], [raw] and [forEach], of
    which a header name is not a property.  Response header names are in
    lower case, as Node delivers them. *)
Inductive HeadersObject : Type :=
| PlainObject (o : Js.obj string)
| FetchHeaders (m : Js.obj (list string)).

Definition prop (h : HeadersObject) (name : string) : option string :=
  match h with
  | PlainObject o => Js.get o name
  | FetchHeaders _ => None
  end.

Module Headers.
Definition t : Type := Js.obj (list string).

Definition has (h : t) (name : string) : bool :=
  match Js.get h name with Some _ => true | None => false end.

Definition get (h : t) (name : string) : option string :=
  option_map (Js.join ", ") (Js.get h name).

Definition raw (h : t) (name : string) : option (list string) := Js.get h name.

(** [h.forEach((value, key) => { o[key] = value; })]. *)
Definition copyInto (h : t) (o : Js.obj string) : Js.obj string :=
  fold_left (fun acc kv => Js.set acc (fst kv) (Js.join ", " (snd kv))) h o.
End Headers.

(** A response of the transport, with what [resp.buffer()] settles to and
    whether [abort()] is called while the body is read. *)
Record FetchResponse : Type := mkResp {
  resp_status : Z;
  resp_headers : Headers.t;
  resp_buffer : Settled string;
  abortDuringBody : bool
}.

(** One call of the transport: whether [abort()] is called while the call
    is outstanding, and what the call settles to. *)
Record Step : Type := mkStep {
  abortCalled : bool;
  outcome : Settled FetchResponse
}.

(** The agents of the three files.  A proxy agent records the proxy string
    its options are parsed from, [parse] being that of Node's url module,
    which request.js and resource-loader.js import. *)
Inductive Agent : Type :=
| HttpsProxyAgent (proxyUrl : string) (keepAlive rejectUnauthorized : bool)
| HttpProxyAgent (proxyUrl : string) (keepAlive rejectUnauthorized : bool)
| HttpsAgent (keepAlive rejectUnauthorized : bool)
| HttpAgent (keepAlive rejectUnauthorized : bool).

(** An Array with the named properties assigned to it.  A named property
    is no element: the array keeps the length of [elements], and iterating
    it yields the elements only. *)
Record NamedArray : Type := mkNamedArray {
  elements : list (string * string);
  named : Js.obj string
}.

(** The [headers] option of a call of [fetch]: the plain object
    [requestHeaders], or the array [preflightRequestHeaders]. *)
Inductive HeadersInit : Type :=
| InitObject (o : Js.obj string)
| InitArray (a : NamedArray).

(** What [new Headers(init)] of node-fetch reads from the option: an init
    that is iterable, as an Array is, is read as a sequence of name-value
    pairs; any other object is read by its own keys. *)
Definition headerPairs (init : HeadersInit) : list (string * string) :=
  match init with
  | InitObject o => o
  | InitArray a => elements a
  end.

(** The two places [createClient] calls [fetch] from. *)
Inductive CallSite : Type :=
| PreflightCall   (* fetch(uri, preflightOptions) *)
| RequestCall.    (* fetch(uri, options) in doRequestTo *)

(** A call [fetch(url, options)] as the transport receives it; [redirect]
    is always "manual" and [signal] is the signal of the one controller. *)
Record FetchCall : Type := mkCall {
  call_site : CallSite;
  call_url : option string;
  call_method : string;
  call_headers : HeadersInit;
  call_body : option string;
  call_agent : Agent
}.

(** What one invocation of [createClient] does that is seen from outside:
    an event it emits or fires, a call of the transport, a call of
    [cookieJar.setCookie]. *)
Inductive Effect : Type :=
| Emits (e : Event)
| Fetches (c : FetchCall)
| SetsCookie (value : string) (uri : option string).

(** The state one invocation of [createClient] works on: the request
    object, what was observed so far, the calls made to the transport and
    to [cookieJar.setCookie], the variables of the closure, and [trace],
    which holds the events and the calls in the one order they happen in. *)
Record World : Type := mkWorld {
  xhr : Xhr;
  events : list Event;
  fetches : list FetchCall;
  setCookies : list (string * option string);
  requestHeaders : Js.obj string;
  gatheredCookies : list (list string);
  requestsDone : nat;
  aborted : bool;
  statusCode : Z;
  headers : Js.obj string;
  trace : list Effect
}.

Definition with_xhr (g : Xhr -> Xhr) (w : World) : World :=
  mkWorld (g (xhr w)) (events w) (fetches w) (setCookies w) (requestHeaders w)
          (gatheredCookies w) (requestsDone w) (aborted w) (statusCode w) (headers w)
          (trace w).

Definition emit (e : Event) (w : World) : World :=
  mkWorld (xhr w) (events w ++ [e]) (fetches w) (setCookies w) (requestHeaders w)
          (gatheredCookies w) (requestsDone w) (aborted w) (statusCode w) (headers w)
          (trace w ++ [Emits e]).

Definition call_fetch (c : FetchCall) (w : World) : World :=
  mkWorld (xhr w) (events w) (fetches w ++ [c]) (setCookies w) (requestHeaders w)
          (gatheredCookies w) (requestsDone w) (aborted w) (statusCode w) (headers w)
          (trace w ++ [Fetches c]).

Definition call_setCookie (value : string) (uri : option string) (w : World) : World :=
  mkWorld (xhr w) (events w) (fetches w) (setCookies w ++ [(value, uri)])
          (requestHeaders w) (gatheredCookies w) (requestsDone w) (aborted w)
          (statusCode w) (headers w) (trace w ++ [SetsCookie value uri]).

Definition set_requestHeaders (h : Js.obj string) (w : World) : World :=
  mkWorld (xhr w) (events w) (fetches w) (setCookies w) h
          (gatheredCookies w) (requestsDone w) (aborted w) (statusCode w) (headers w)
          (trace w).

Definition push_gathered (values : list string) (w : World) : World :=
  mkWorld (xhr w) (events w) (fetches w) (setCookies w) (requestHeaders w)
          (gatheredCookies w ++ [values]) (requestsDone w) (aborted w)
          (statusCode w) (headers w) (trace w).

Definition incr_requestsDone (w : World) : World :=
  mkWorld (xhr w) (events w) (fetches w) (setCookies w) (requestHeaders w)
          (gatheredCookies w) (S (requestsDone w)) (aborted w) (statusCode w) (headers w)
          (trace w).

(** [abortController.abort()]. *)
Definition signal_abort (b : bool) (w : World) : World :=
  mkWorld (xhr w) (events w) (fetches w) (setCookies w) (requestHeaders w)
          (gatheredCookies w) (requestsDone w) (aborted w || b) (statusCode w) (headers w)
          (trace w).

Definition set_response (code : Z) (h : Js.obj string) (w : World) : World :=
  mkWorld (xhr w) (events w) (fetches w) (setCookies w) (requestHeaders w)
          (gatheredCookies w) (requestsDone w) (aborted w) code h (trace w).

(** *** Computations that may throw *)

Inductive res (A : Type) : Type :=
| Ok (a : A)
| Throw (e : Exn).
Arguments Throw {A} e.

Definition M (A : Type) : Type := World -> res A * World.

Definition ret {A} (a : A) : M A := fun w => (Ok a, w).
Definition throw {A} (e : Exn) : M A := fun w => (Throw e, w).
Definition bind {A B} (c : M A) (k : A -> M B) : M B :=
  fun w => match c w with
           | (Ok a, w') => k a w'
           | (Throw e, w') => (Throw e, w')
           end.
Definition modify (g : World -> World) : M unit := fun w => (Ok tt, g w).
Definition gets {A} (g : World -> A) : M A := fun w => (Ok (g w), w).
Definition when (b : bool) (c : M unit) : M unit := if b then c else ret tt.

Notation "x <- c ;; k" := (bind c (fun x => k))
  (at level 61, c at next level, right associativity).
Notation "c ;;; k" := (bind c (fun _ => k))
  (at level 61, right associativity).

(** [fireAnEvent(name, target, ...)]: the listeners see the request object
    as it is now. *)
Definition fireAnEvent (name : string) (target : Target) : M unit :=
  fun w => (Ok tt, emit (Fired name target (xhr w)) w).

(* ------------------------------------------------------------------ *)
(** ** xhr-utils.js *)

Definition simpleMethods : list string := ["GET"; "HEAD"; "POST"].

Definition simpleHeaders : list string :=
  ["accept"; "accept-language"; "content-language"; "content-type"].

Definition preflightHeaders : list string :=
  ["access-control-expose-headers"; "access-control-allow-headers";
   "access-control-allow-credentials"; "access-control-allow-origin"].

(** The [while (n--)] loop visits the keys from the last to the first. *)
Definition getRequestHeader (requestHeaders : Js.obj string) (header : string)
  : option string :=
  let lcHeader := Js.toLowerCase header in
  match find (fun key => Js.toLowerCase key =? lcHeader)
             (rev (Js.keys requestHeaders)) with
  | Some key => Js.get requestHeaders key
  | None => None
  end.

Definition updateRequestHeader (requestHeaders : Js.obj string)
           (header newValue : string) : Js.obj string :=
  let lcHeader := Js.toLowerCase header in
  fold_left (fun o key => if Js.toLowerCase key =? lcHeader
                          then Js.set o key newValue else o)
            (rev (Js.keys requestHeaders)) requestHeaders.

Definition setResponseToNetworkError (x : Xhr) : Xhr :=
  set_status 0 "" (with_properties Properties.clear_response x).

Definition requestErrorSteps (event : string) (exception : Exn) : M unit :=
  modify (with_xhr (set_readyState DONE)) ;;;
  modify (with_xhr (with_properties (Properties.set_send false))) ;;;
  modify (with_xhr setResponseToNetworkError) ;;;
  synchronous <- gets (fun w => Flag.synchronous (flag (xhr w))) ;;
  if synchronous : bool then throw exception
  else
    fireAnEvent "readystatechange" onXhr ;;;
    uploadComplete <- gets (fun w => Properties.uploadComplete (properties (xhr w))) ;;
    when (negb uploadComplete)
      (modify (with_xhr (with_properties (Properties.set_uploadComplete true))) ;;;
       uploadListener <- gets (fun w => Properties.uploadListener (properties (xhr w))) ;;
       when uploadListener
         (fireAnEvent event onUpload ;;;
          fireAnEvent "loadend" onUpload)) ;;;
    fireAnEvent event onXhr ;;;
    fireAnEvent "loadend" onXhr.

Definition dispatchError : M unit :=
  errMessage <- gets (fun w => Properties.error (properties (xhr w))) ;;
  requestErrorSteps "error" (DOMException errMessage "NetworkError") ;;;
  doc <- gets (fun w => ownerDocument (xhr w)) ;;
  when doc (modify (emit (JsdomError errMessage))).

Definition opt_eqb (a b : option string) : bool :=
  match a, b with
  | Some x, Some y => x =? y
  | None, None => true
  | _, _ => false
  end.

(** [s ? s.trim() : null]. *)
Definition trimmed (v : option string) : option string :=
  if Js.truthy v then option_map Js.trim v else None.

(** [validCORSHeaders(xhr, response, flag, properties, origin)], with
    [flag] and [properties] those of [xhr], as at every call in this file. *)
Definition validCORSHeaders (response_headers : HeadersObject) (origin : string)
  : M bool :=
  let acaoStr := prop response_headers "access-control-allow-origin" in
  let acao := trimmed acaoStr in
  if negb (opt_eqb acao (Some "*")) && negb (opt_eqb acao (Some origin)) then
    modify (with_xhr (with_properties
      (Properties.set_error ("Cross origin " ++ origin ++ " forbidden")))) ;;;
    dispatchError ;;;
    ret false
  else
    let acacStr := prop response_headers "access-control-allow-credentials" in
    let acac := trimmed acacStr in
    withCredentials <- gets (fun w => Flag.withCredentials (flag (xhr w))) ;;
    if withCredentials && negb (opt_eqb acac (Some "true")) then
      modify (with_xhr (with_properties
        (Properties.set_error "Credentials forbidden"))) ;;;
      dispatchError ;;;
      ret false
    else ret true.

(** The set built from [Access-Control-Allow-Headers]. *)
Definition allowedHeaders (acahStr : option string) : list string :=
  match acahStr with
  | Some s => if Js.truthy acahStr
              then Js.splitHeaderList (Js.toLowerCase (Js.trim s)) else []
  | None => []
  end.

Definition forbiddenHeaders (acah : list string) (requestHeaders : Js.obj string)
  : list string :=
  filter (fun header =>
            let lcHeader := Js.toLowerCase header in
            negb (Js.has simpleHeaders lcHeader) && negb (Js.has acah lcHeader))
         (Js.keys requestHeaders).

Definition validCORSPreflightHeaders (response_headers : HeadersObject) : M bool :=
  origin <- gets (fun w => Properties.origin (properties (xhr w))) ;;
  valid <- validCORSHeaders response_headers origin ;;
  if negb valid then ret false
  else
    let acahStr := prop response_headers "access-control-allow-headers" in
    let acah := allowedHeaders acahStr in
    requestHeaders <- gets (fun w => Flag.requestHeaders (flag (xhr w))) ;;
    let forbidden := forbiddenHeaders acah requestHeaders in
    if (0 <? length forbidden)%nat then
      modify (with_xhr (with_properties
        (Properties.set_error ("Headers " ++ Js.join "," forbidden ++ " forbidden")))) ;;;
      dispatchError ;;;
      ret false
    else ret true.

(** *** createClient *)

(** The callbacks handed to [process.nextTick], each with what it emits;
    a callback hands the next one to [process.nextTick] as its last act. *)
Definition Ticks : Type := list (list Event).

(** The three bodies [client.abort] is assigned. *)
Inductive AbortFn : Type :=
| DestroyStream   (* readableStream.destroy(); client.emit("abort") *)
| DoNothing       (* the empty body of the data: branch *)
| AbortSignal.    (* abortController.abort() *)

(** What the file stream reports. *)
Inductive StreamEvent : Type :=
| StreamData (chunk : string)
| StreamEnd
| StreamError (reason : string).

(** What stands behind a client: the file stream with what its listeners
    emit, the decoded data: URL, or the exchange with the transport. *)
Inductive Operation : Type :=
| FileRead (filePath : string) (streamed : list Event)
| DataDecode
| NetRequest (w : World).

(** The client [createClient] returns: its [abort] property when one was
    assigned, what was emitted before [createClient] returned, the callbacks
    handed to [process.nextTick], and the operation behind it. *)
Record Client : Type := mkClient {
  abort : option AbortFn;
  emitted : list Event;
  nextTicks : Ticks;
  operation : Operation
}.

(** [client.abort()], called on the client as [createClient] returned it. *)
Definition callAbort (c : Client) : res Client :=
  match abort c with
  | None => Throw (TypeError "client.abort is not a function")
  | Some DoNothing => Ok c
  | Some DestroyStream =>
      match operation c with
      | FileRead filePath _ =>
          Ok (mkClient (abort c) (emitted c ++ [EmitAbort]) (nextTicks c)
                       (FileRead filePath []))
      | _ => Ok c
      end
  | Some AbortSignal =>
      match operation c with
      | NetRequest w => Ok (mkClient (abort c) (emitted c) (nextTicks c)
                                     (NetRequest (signal_abort true w)))
      | _ => Ok c
      end
  end.

(** The environment of one call: what [parseDataURL(uri)] does in the
    [try] block (the media type and the body, or a throw), what the file
    stream reports, and what the transport answers call after call. *)
Record Env : Type := mkEnv {
  parseDataURL : res (string * string);
  readableStream : list StreamEvent;
  transport : list Step
}.

Definition char_is (c : ascii) (d : string) : bool :=
  String c EmptyString =? d.

(** [.replace(/^file:\/\//, "")] *)
Definition strip_file_scheme (s : string) : string :=
  if String.prefix "file://" s then String.substring 7 (String.length s - 7) s else s.

(** [.replace(/^\/([a-z]):\//i, "$1:/")] *)
Definition strip_drive_slash (s : string) : string :=
  match s with
  | String a (String l (String c (String b rest))) =>
      if char_is a "/" && (Js.is_lower l || Js.is_upper l) && char_is c ":" && char_is b "/"
      then String l (String c (String b rest)) else s
  | _ => s
  end.

(** [.replace(/%20/g, " ")] *)
Fixpoint unescape_spaces (s : string) : string :=
  match s with
  | EmptyString => EmptyString
  | String c s' =>
      match s' with
      | String d (String e rest) =>
          if char_is c "%" && char_is d "2" && char_is e "0"
          then String " " (unescape_spaces rest)
          else String c (unescape_spaces s')
      | _ => String c (unescape_spaces s')
      end
  end.

Definition streamEvents (e : StreamEvent) : list Event :=
  match e with
  | StreamData chunk => [EmitData response chunk; EmitData client chunk]
  | StreamEnd => [EmitEnd response; EmitEnd client]
  | StreamError reason => [EmitError (Reason reason)]
  end.

(** The [options] of the real request that stay fixed; [headers] is the
    shared [requestHeaders] object, read from the state at each call. *)
Record Options : Type := mkOptions {
  opt_method : string;
  opt_body : option string;
  opt_agent : Agent
}.

Definition show_status (n : Z) : string := NilZero.string_of_int (Z.to_int n).

(** [`${uri}`] *)
Definition show_uri (uri : option string) : string :=
  match uri with Some u => u | None => "null" end.

(** The [.catch] of [doRequestTo]. *)
Definition catchRequest (err : Exn) (w : World) : World :=
  if aborted w then emit EmitAbort w else emit (EmitError err) w.

(** The condition of the retry with authentication. *)
Definition authRequested (w : World) (resp : FetchResponse) : option Auth :=
  if (resp_status resp =? 401)%Z then
    match Flag.auth (flag (xhr w)), Js.get (requestHeaders w) "Authorization" with
    | Some a, None => if Headers.has (resp_headers resp) "www-authenticate"
                      then Some a else None
    | _, _ => None
    end
  else None.

Definition authHeader (a : Auth) : string :=
  "Basic " ++ Js.base64 (user a ++ ":" ++ pass a).

(** [resp.headers.has("set-cookie")] holds exactly when
    [resp.headers.raw()["set-cookie"]] is defined. *)
Definition trackCookies (resp : FetchResponse) (w : World) : World :=
  match Headers.raw (resp_headers resp) "set-cookie" with
  | Some values => push_gathered values w
  | None => w
  end.

(** The two nested [forEach] over [gatheredCookies]. *)
Definition appendCookies (uri : option string) (w : World) : World :=
  match gatheredCookies w with
  | [] => w
  | _ =>
      let w := with_xhr (with_flag (fun f =>
                 Flag.set_cookieJar
                   (match Flag.cookieJar f with
                    | Some j => Some j
                    | None => Some (mkJar [])
                    end) f)) w in
      fold_left (fun w values =>
                   fold_left (fun w value => call_setCookie value uri w) values w)
                (gatheredCookies w) w
  end.

Definition isRedirect (resp : FetchResponse) : bool :=
  ((300 <=? resp_status resp) && (resp_status resp <? 400))%Z.

(** The second [.then]: [resp.buffer()] and the events of the body. *)
Definition readBody (resp : FetchResponse) (w : World) : World :=
  let w := signal_abort (abortDuringBody resp) w in
  match resp_buffer resp with
  | Pending => w
  | Rejected reason => catchRequest (Reason reason) w
  | Fulfilled buffer =>
      emit (EmitEnd client)
        (emit (EmitEnd response)
           (emit (EmitData client buffer)
              (emit (EmitData response buffer) w)))
  end.

(** The end of the first [.then], for a response that is not a redirect. *)
Definition complete (uri : option string) (resp : FetchResponse) (w : World)
  : World :=
  let w := appendCookies uri w in
  let w := set_response (resp_status resp)
             (Headers.copyInto (resp_headers resp) (headers w)) w in
  let w := emit (EmitResponse (statusCode w) (headers w)) w in
  readBody resp w.

Definition requestCall (options : Options) (uri : option string) (w : World)
  : FetchCall :=
  mkCall RequestCall uri (opt_method options) (InitObject (requestHeaders w))
         (opt_body options) (opt_agent options).

Definition redirectLoopError (uri : option string) : Exn :=
  Error ("Exceeded maxRedirects. Probably stuck in a redirect loop " ++ show_uri uri).

(** [doRequestTo(uri)]: the call to the transport and the promise chain
    behind it, along the answers of the transport. *)
Fixpoint doRequestTo (options : Options) (script : list Step)
         (uri : option string) (w : World) : World :=
  let w := call_fetch (requestCall options uri w) w in
  match script with
  | [] => w
  | s :: script' =>
      let w := signal_abort (abortCalled s) w in
      match outcome s with
      | Pending => w
      | Rejected reason => catchRequest (Reason reason) w
      | Fulfilled resp =>
          if aborted w then emit EmitAbort w
          else
            match authRequested w resp with
            | Some a =>
                doRequestTo options script' uri
                  (set_requestHeaders
                     (Js.set (requestHeaders w) "Authorization" (authHeader a)) w)
            | None =>
                let w := trackCookies resp w in
                if isRedirect resp then
                  let w := incr_requestsDone w in
                  if (requestsDone w =? 21)%nat then
                    catchRequest (redirectLoopError uri) w
                  else
                    doRequestTo options script'
                      (Headers.get (resp_headers resp) "location")
                      (emit EmitRedirect w)
                else complete uri resp w
            end
      end
  end.

(** The signal of the controller has the attribute [aborted]; [abort] is a
    method of the controller and not a property of the signal, so the read
    [abortController.signal.abort] yields undefined. *)
Definition signal_abort_property (w : World) : option bool := None.

(** The [.catch] of the preflight call. *)
Definition catchPreflight (err : Exn) (w : World) : World :=
  match signal_abort_property w with
  | Some true => emit EmitAbort w
  | _ => emit (EmitError err) w
  end.

Definition nonSimpleHeaders (f : Flag.t) : list string :=
  filter (fun header => negb (Js.has simpleHeaders (Js.toLowerCase header)))
         (Js.keys (Flag.requestHeaders f)).

Definition crossOrigin (f : Flag.t) : bool :=
  negb (Flag.origin f =? url_origin (Flag.uri f)).

Definition needsPreflight (x : Xhr) : bool :=
  crossOrigin (flag x) &&
  (negb (Js.has simpleMethods (Js.toUpperCase (Flag.method (flag x))))
   || (0 <? length (nonSimpleHeaders (flag x)))%nat
   || Properties.uploadListener (properties x)).

(** The loop over [requestHeaders] that fills [preflightRequestHeaders]:
    an assignment [preflightRequestHeaders[header] = ...] under a header
    name adds a named property to the array; [acc] holds them. *)
Definition copyOriginAndReferrer (requestHeaders : Js.obj string)
           (headers : list string) (acc : Js.obj string) : Js.obj string :=
  fold_left (fun acc header =>
               let lcHeader := Js.toLowerCase header in
               if (lcHeader =? "origin") || (lcHeader =? "referrer") then
                 match Js.get requestHeaders header with
                 | Some v => Js.set acc header v
                 | None => acc
                 end
               else acc)
            headers acc.

(** [preflightRequestHeaders] starts as the empty array [[]] and only
    ever receives named properties: it has no elements. *)
Definition preflightRequestHeaders (f : Flag.t) (requestHeaders : Js.obj string)
  : NamedArray :=
  let copied :=
    copyOriginAndReferrer requestHeaders (Js.keys requestHeaders) [] in
  let h := Js.set copied "Access-Control-Request-Method" (Flag.method f) in
  let h := if (0 <? length (nonSimpleHeaders f))%nat
           then Js.set h "Access-Control-Request-Headers"
                        (Js.join ", " (nonSimpleHeaders f))
           else h in
  mkNamedArray [] (Js.set h "User-Agent" (Flag.userAgent f)).

Definition hasBody (f : Flag.t) : bool :=
  let ucMethod := Js.toUpperCase (Flag.method f) in
  Js.truthy (Flag.body f) && negb ((ucMethod =? "HEAD") || (ucMethod =? "GET")).

(** The request headers as [createClient] prepares them before the first
    call. *)
Definition initialRequestHeaders (f : Flag.t) : Js.obj string :=
  let given := Flag.requestHeaders f in
  let h := fold_left (fun acc header =>
                        match Js.get given header with
                        | Some v => Js.set acc header v
                        | None => acc
                        end) (Js.keys given) [] in
  let absent name := match getRequestHeader given name with
                     | None => true | Some _ => false end in
  let h := if absent "referer" then Js.set h "Referer" (Flag.referrer f) else h in
  let h := if absent "user-agent" then Js.set h "User-Agent" (Flag.userAgent f) else h in
  let h := if absent "accept-language" then Js.set h "Accept-Language" "en" else h in
  let h := if absent "accept-encoding" then Js.set h "Accept-Encoding" "gzip,deflate" else h in
  let h := if absent "accept" then Js.set h "Accept" "*/*" else h in
  let h := if crossOrigin f then Js.set h "Origin" (Flag.origin f) else h in
  let h := match Flag.cookieJar f with
           | Some jar =>
               if negb (crossOrigin f) || Flag.withCredentials f then
                 if (0 <? length (cookieStrings jar))%nat
                 then Js.set h "Cookie" (Js.join "; " (cookieStrings jar)) else h
               else h
           | None => h
           end in
  if hasBody f && absent "content-type"
  then Js.set h "Content-Type" "text/plain;charset=UTF-8" else h.

(** The agent of the request.  xhr-utils.js neither declares nor imports
    [parse], so that the call [parse(flag.proxy)] of the proxy branch throws
    a ReferenceError before an agent is made. *)
Definition makeAgent (f : Flag.t) : res Agent :=
  if Js.truthy (Flag.proxy f) then
    Throw (ReferenceError "parse is not defined")
  else
    Ok (if protocol (Flag.uri f) =? "https:"
        then HttpsAgent true (Flag.strictSSL f)
        else HttpAgent true (Flag.strictSSL f)).

Definition requestOptions (f : Flag.t) (agent : Agent) : Options :=
  mkOptions (Flag.method f)
            (if hasBody f && negb (Flag.formData f) then Flag.body f else None)
            agent.

Definition initialWorld (x : Xhr) : World :=
  mkWorld x [] [] [] (initialRequestHeaders (flag x)) [] 0 false 200 [] [].

Definition doRequest (options : Options) (script : list Step) (uri : string)
           (w : World) : World :=
  doRequestTo options script (Some uri) w.

(** The preflight call and its [.then] and [.catch]. *)
Definition doPreflight (options : Options) (script : list Step) (uri : string)
           (w : World) : World :=
  let f := flag (xhr w) in
  let headers := preflightRequestHeaders f (requestHeaders w) in
  let w := with_xhr (with_flag (Flag.set_preflight true)) w in
  let w := call_fetch (mkCall PreflightCall (Some uri) "OPTIONS" (InitArray headers)
                              None (opt_agent options)) w in
  match script with
  | [] => w
  | s :: script' =>
      let w := signal_abort (abortCalled s) w in
      match outcome s with
      | Pending => w
      | Rejected reason => catchPreflight (Reason reason) w
      | Fulfilled resp =>
          if ((resp_status resp <? 200) || (299 <? resp_status resp))%Z then
            catchPreflight
              (Error ("Response for preflight has invalid HTTP status code "
                      ++ show_status (resp_status resp))) w
          else
            match validCORSPreflightHeaders (FetchHeaders (resp_headers resp)) w with
            | (Ok true, w) => doRequest options script' uri w
            | (Ok false, w) =>
                catchPreflight (Error "TODO") (with_xhr setResponseToNetworkError w)
            | (Throw e, w) => catchPreflight e w
            end
      end
  end.

(** [createClient(xhr)]: the client it returns, or what it throws. *)
Definition createClient (env : Env) (x : Xhr) : res Client :=
  let urlObj := Flag.uri (flag x) in
  let uri := href urlObj in
  if protocol urlObj =? "file:" then
    let filePath :=
      unescape_spaces (strip_drive_slash (strip_file_scheme (pathname urlObj))) in
    Ok (mkClient (Some DestroyStream) [] [[EmitResponse 200 []]]
                 (FileRead filePath (flat_map streamEvents (readableStream env))))
  else if protocol urlObj =? "data:" then
    match parseDataURL env with
    | Throw err => Ok (mkClient None [] [[EmitError err]] DataDecode)
    | Ok (contentType, buffer) =>
        Ok (mkClient (Some DoNothing) []
                     [[EmitResponse 200 (Js.set [] "content-type" contentType)];
                      [EmitData response buffer; EmitData client buffer;
                       EmitEnd response; EmitEnd client]]
                     DataDecode)
    end
  else
    match makeAgent (flag x) with
    | Throw err => Throw err
    | Ok agent =>
        let w := initialWorld x in
        let options := requestOptions (flag x) agent in
        Ok (mkClient (Some AbortSignal) [] []
                     (NetRequest (if needsPreflight x
                                  then doPreflight options (transport env) uri w
                                  else doRequest options (transport env) uri w)))
    end.

(* ------------------------------------------------------------------ *)
(** ** resource-loader.js: the dispatch of [fetch] *)

Module ResourceLoader.

(** [parseURL(urlString)]: a URL record, of which [fetch] reads the
    scheme, or null. *)
Record URLRecord : Type := mkRecord { scheme : string }.

(** The operation [fetch] starts. *)
Inductive Operation : Type :=
| ReadDataURL (url : URLRecord)
| Request (urlString : string) (scheme : string)
| ReadFile (filePath : string).

(** [fetch(urlString)]: the operation it hands over to, or the error of
    the rejected promise it returns. *)
Definition fetch (urlString : string) (url : option URLRecord) : res Operation :=
  match url with
  | None => Throw (Error ("Tried to fetch invalid URL " ++ urlString))
  | Some url =>
      if scheme url =? "data" then Ok (ReadDataURL url)
      else if (scheme url =? "http") || (scheme url =? "https") then
        Ok (Request urlString (scheme url))
      else if scheme url =? "file" then
        Ok (ReadFile (unescape_spaces (strip_drive_slash (strip_file_scheme urlString))))
      else
        Throw (Error ("Tried to fetch URL " ++ urlString ++
                      " with invalid scheme " ++ scheme url))
  end.

End ResourceLoader.

(* ------------------------------------------------------------------ *)
(** ** resource-loader.js: the request loop *)

Module Loader.

(** What the promise of [doFetch] is rejected with: the rejection of the
    transport or of the body, the error of the redirect limit, or what the
    [throw] for a status above 400 raises. *)
Inductive Failure : Type :=
| TransportFailure (reason : string)
| TooManyRedirects
| UnexpectedStatus.

(** What the promise settles to: the body, null, a rejection, or nothing
    when the transport never answers. *)
Inductive Outcome : Type :=
| Body (buffer : string)
| Null
| Rejects (err : Failure)
| Unsettled.

(** The variables of one [_request]: the signal, the closure variables, the
    URLs [fetch] was called with, [promise.response], and the calls
    [cookieJar.setCookie(cookie, url)]. *)
Record State : Type := mkState {
  aborted : bool;
  gatheredCookies : list (list string);
  requestsDone : nat;
  fetched : list (option string);
  response : option (Z * Headers.t);
  setCookies : list (string * string)
}.

Definition initial : State := mkState false [] 0 [] None [].

(** The [abort] function of [_request]: false when the signal is aborted
    already. *)
Definition abort (st : State) : bool * State :=
  if aborted st then (false, st)
  else (true, mkState true (gatheredCookies st) (requestsDone st) (fetched st)
                      (response st) (setCookies st)).

Definition signal (called : bool) (st : State) : State :=
  if called then snd (abort st) else st.

Definition call_fetch (uri : option string) (st : State) : State :=
  mkState (aborted st) (gatheredCookies st) (requestsDone st)
          (fetched st ++ [uri]) (response st) (setCookies st).

Definition gather (resp : FetchResponse) (st : State) : State :=
  if Headers.has (resp_headers resp) "set-cookie" then
    match Headers.raw (resp_headers resp) "set-cookie" with
    | Some values =>
        mkState (aborted st) (gatheredCookies st ++ [values]) (requestsDone st)
                (fetched st) (response st) (setCookies st)
    | None => st
    end
  else st.

Definition count (st : State) : State :=
  mkState (aborted st) (gatheredCookies st) (S (requestsDone st)) (fetched st)
          (response st) (setCookies st).

Definition set_response (resp : FetchResponse) (st : State) : State :=
  mkState (aborted st) (gatheredCookies st) (requestsDone st) (fetched st)
          (Some (resp_status resp, resp_headers resp)) (setCookies st).

Definition call_setCookie (cookie url : string) (st : State) : State :=
  mkState (aborted st) (gatheredCookies st) (requestsDone st) (fetched st)
          (response st) (setCookies st ++ [(cookie, url)]).

(** The second [.then] of [doFetch]. *)
Definition thenBuffer (buffer : option string) (st : State) : Outcome :=
  match buffer with
  | None => Null
  | Some b => if aborted st then Null else Body b
  end.

(** The [.catch] of [doFetch]. *)
Definition catchFetch (err : Failure) (st : State) : Outcome :=
  if aborted st then Null else Rejects err.

(** The second [.then] and the [.catch] behind a promise that settled to
    [r]: the promise [doFetch] returned for the next location. *)
Definition chained (r : Outcome) (st : State) : Outcome :=
  match r with
  | Body b => thenBuffer (Some b) st
  | Null => thenBuffer None st
  | Rejects err => catchFetch err st
  | Unsettled => Unsettled
  end.

(** [doFetch(uri)], along the answers of the transport. *)
Fixpoint doFetch (script : list Step) (uri : option string) (st : State)
  : Outcome * State :=
  let st := call_fetch uri st in
  match script with
  | [] => (Unsettled, st)
  | s :: script' =>
      let st := signal (abortCalled s) st in
      match outcome s with
      | Pending => (Unsettled, st)
      | Rejected reason => (catchFetch (TransportFailure reason) st, st)
      | Fulfilled resp =>
          if (400 <? resp_status resp)%Z then (catchFetch UnexpectedStatus st, st)
          else
            let st := gather resp st in
            if isRedirect resp then
              let st := count st in
              if (requestsDone st =? 21)%nat then (catchFetch TooManyRedirects st, st)
              else
                let (r, st) := doFetch script'
                                 (Headers.get (resp_headers resp) "location") st in
                (chained r st, st)
            else
              let st := set_response resp st in
              let st := signal (abortDuringBody resp) st in
              match resp_buffer resp with
              | Pending => (Unsettled, st)
              | Rejected reason => (catchFetch (TransportFailure reason) st, st)
              | Fulfilled buffer => (thenBuffer (Some buffer) st, st)
              end
      end
  end.

(** The [.then] of [_request] that writes the gathered cookies. *)
Definition commit (urlString : string) (st : State) : State :=
  match gatheredCookies st with
  | [] => st
  | _ =>
      fold_left (fun st values =>
                   fold_left (fun st cookie => call_setCookie cookie urlString st)
                             values st)
                (gatheredCookies st) st
  end.

(** [_request(urlString, requestOptions, cookieJar)]: what the promise
    settles to and the state it leaves. *)
Definition _request (script : list Step) (urlString : string) : Outcome * State :=
  let (r, st) := doFetch script (Some urlString) initial in
  match r with
  | Body b => (Body b, commit urlString st)
  | _ => (r, st)
  end.




End Loader.

(* ------------------------------------------------------------------ *)
(** ** request.js: the standalone request helper *)

(** [delete o[k]] *)
Definition obj_delete {V : Type} (o : Js.obj V) (k : string) : Js.obj V :=
  filter (fun kv => negb (fst kv =? k)) o.

Module Request.

(** A value that is a string, null or undefined. *)
Inductive JsString : Type :=
| Undefined
| Null
| Str (s : string).

Definition strictEq (a b : JsString) : bool :=
  match a, b with
  | Undefined, Undefined => true
  | Null, Null => true
  | Str x, Str y => x =? y
  | _, _ => false
  end.

(** What [parse] of Node's url module yields, as far as the helper reads
    it. *)
Record Url : Type := mkUrl {
  href : string;
  protocol : string;
  hostname : string;
  port : JsString;
  path : string;
  search : option string;
  username : JsString;
  password : JsString
}.

Inductive AgentKind : Type := Http | Https.

(** The agent of a request: the pool of the caller, or an agent made by
    [getAgent], over a proxy when one is configured. *)
Inductive Agent : Type :=
| Pool
| Made (kind : AgentKind) (proxy : option string)
       (keepAlive rejectUnauthorized : option bool).

(** The options of the caller.  [pool] is set when [options.pool] is
    neither undefined nor false; [followRedirect] is [Some false] when the
    caller set it to false; [sendImmediately] is set when
    [options.auth.sendImmediately === true]. *)
Record Options : Type := mkOptions {
  method : option string;
  gzip : bool;
  jar : bool;
  proxy : option string;
  strictSSL : option bool;
  forever : option bool;
  headers : option (Js.obj string);
  auth : option Auth;
  sendImmediately : bool;
  maxRedirects : option Z;
  followRedirect : option bool;
  pool : bool
}.

(** A response of Node's http module: its status, its headers (a plain
    object with names in lower case), and what its stream delivers. *)
Record Response : Type := mkResponse {
  statusCode : Z;
  statusMessage : string;
  resp_headers : Js.obj (list string);
  chunks : list string;
  ends : bool
}.

(** What happens to a request: the response callback is called, the
    request emits [error], or nothing happens. *)
Inductive Answer : Type :=
| Responds (r : Response)
| Errors (reason : string)
| Silent.

Record Step : Type := mkStep {
  abortCalled : bool;
  answer : Answer
}.

(** The environment: [parse] of the url module, which may throw;
    [jar.getCookieString] by URL; and the zlib stream for an encoding,
    which may fail. *)
Record Env : Type := mkEnv {
  parse : option string -> res (option Url);
  getCookieString : string -> string;
  decompress : string -> list string -> res (list string)
}.

Inductive Event : Type :=
| EmitRequest
| EmitRedirect
| EmitResponse (statusCode : Z) (headers : Js.obj (list string))
| EmitData (chunk : string)
| EmitEnd
| EmitAbort
| EmitError (message : string).

(** [requestOptions] as [http.request] receives it. *)
Record Issued : Type := mkIssued {
  i_method : string;
  i_protocol : string;
  i_hostname : string;
  i_port : JsString;
  i_path : string;
  i_headers : Js.obj string;
  i_agent : Agent;
  i_auth : option string
}.

(** The variables of one call of [request]. *)
Record State : Type := mkState {
  aborted : bool;
  redirectsLeft : Z;
  gatheredCookies : list (list string);
  url : Url;
  result_href : string;
  result_response : option (Z * string * Js.obj (list string));
  requestOptions : Issued;
  events : list Event;
  requests : list Issued;
  setCookies : list (string * string)
}.

(** How a call stands: running (or done) with its state, or ended by an
    exception nobody catches. *)
Inductive Run : Type :=
| Running (st : State)
| Crashed (error : string) (st : State).

(** What [request] returns: undefined, with the error it schedules for
    the next tick; an exception thrown by the call itself; or the promise,
    with the run behind it. *)
Inductive Returned : Type :=
| ReturnsUndefined (nextTick : list Event)
| Throws (error : string)
| ReturnsPromise (run : Run).

Definition getAgent (protocol : string) (o : Options) : Agent :=
  if Js.truthy (proxy o)
  then Made (if protocol =? "https:" then Https else Http) (proxy o)
            (forever o) (strictSSL o)
  else Made (if protocol =? "https:" then Https else Http) None
            (forever o) (strictSSL o).

(** [createAuthString]: the template has no placeholders. *)
Definition createAuthString (a : Auth) : string := "{auth.user}:{auth.pass}".

Definition addUrlToRequestOptions (u : Url) (r : Issued) : Issued :=
  mkIssued (i_method r) (protocol u) (hostname u) (port u)
           (path u ++ match search u with
                      | Some s => if Js.truthy (Some s) then s else ""
                      | None => ""
                      end)
           (i_headers r) (i_agent r) (i_auth r).

Definition with_headers (h : Js.obj string) (r : Issued) : Issued :=
  mkIssued (i_method r) (i_protocol r) (i_hostname r) (i_port r) (i_path r)
           h (i_agent r) (i_auth r).

Definition with_agent (a : Agent) (r : Issued) : Issued :=
  mkIssued (i_method r) (i_protocol r) (i_hostname r) (i_port r) (i_path r)
           (i_headers r) a (i_auth r).

Definition emit (e : Event) (st : State) : State :=
  mkState (aborted st) (redirectsLeft st) (gatheredCookies st) (url st)
          (result_href st) (result_response st) (requestOptions st)
          (events st ++ [e]) (requests st) (setCookies st).

Definition emit_all (es : list Event) (st : State) : State :=
  fold_left (fun st e => emit e st) es st.

Definition signal (called : bool) (st : State) : State :=
  mkState (aborted st || called) (redirectsLeft st) (gatheredCookies st) (url st)
          (result_href st) (result_response st) (requestOptions st)
          (events st) (requests st) (setCookies st).

Definition set_response (r : option (Z * string * Js.obj (list string)))
           (st : State) : State :=
  mkState (aborted st) (redirectsLeft st) (gatheredCookies st) (url st)
          (result_href st) r (requestOptions st)
          (events st) (requests st) (setCookies st).

Definition push_cookies (values : list string) (st : State) : State :=
  mkState (aborted st) (redirectsLeft st) (gatheredCookies st ++ [values]) (url st)
          (result_href st) (result_response st) (requestOptions st)
          (events st) (requests st) (setCookies st).

Definition decrement (st : State) : State :=
  mkState (aborted st) (redirectsLeft st - 1) (gatheredCookies st) (url st)
          (result_href st) (result_response st) (requestOptions st)
          (events st) (requests st) (setCookies st).

Definition go_to (u : Url) (r : Issued) (st : State) : State :=
  mkState (aborted st) (redirectsLeft st) (gatheredCookies st) u
          (href u) (result_response st) r
          (events st) (requests st) (setCookies st).

Definition set_requestOptions (r : Issued) (st : State) : State :=
  mkState (aborted st) (redirectsLeft st) (gatheredCookies st) (url st)
          (result_href st) (result_response st) r
          (events st) (requests st) (setCookies st).

(** [module.request(requestOptions, onResponse)] and [request.end()]. *)
Definition issue (st : State) : State :=
  mkState (aborted st) (redirectsLeft st) (gatheredCookies st) (url st)
          (result_href st) (result_response st) (requestOptions st)
          (events st) (requests st ++ [requestOptions st]) (setCookies st).

Definition call_setCookie (cookie url : string) (st : State) : State :=
  mkState (aborted st) (redirectsLeft st) (gatheredCookies st) (Request.url st)
          (result_href st) (result_response st) (requestOptions st)
          (events st) (requests st) (setCookies st ++ [(cookie, url)]).

(** [errorHandler]: no error is emitted after an abort. *)
Definition errorHandler (message : string) (st : State) : State :=
  if aborted st then st else emit (EmitError message) st.

(** [`${url}`] for a falsy url. *)
Definition show_falsy : string := "null".

(** The double quote of the error messages. *)
Definition quote : string := String (ascii_of_nat 34) EmptyString.

(** [onData]: the gathered cookies go to the jar, and the body is
    streamed unless the status is 204 or 304. *)
Definition onData (env : Env) (o : Options) (resp : Response) (st : State) : Run :=
  let st :=
    if jar o then
      fold_left (fun st values =>
                   fold_left (fun st header => call_setCookie header (href (url st)) st)
                             values st)
                (gatheredCookies st) st
    else st in
  if negb (statusCode resp =? 204)%Z && negb (statusCode resp =? 304)%Z then
    let streamed :=
      match Headers.get (resp_headers resp) "content-encoding" with
      | Some encoding =>
          if (encoding =? "gzip") || (encoding =? "x-gzip") then
            decompress env "gunzip" (chunks resp)
          else if encoding =? "deflate" then decompress env "inflate" (chunks resp)
          else if encoding =? "br" then decompress env "brotli" (chunks resp)
          else Ok (chunks resp)
      | None => Ok (chunks resp)
      end in
    match streamed with
    | Ok body =>
        let st := emit_all (map EmitData body) st in
        Running (if ends resp then emit EmitEnd st else st)
    | Throw _ => Crashed "unhandled error of the zlib stream" st
    end
  else Running (emit EmitEnd st).

(** The test of [onResponse] for the retry with authentication. *)
Definition authChallenged (o : Options) (resp : Response) (st : State) : bool :=
  match auth o, i_auth (requestOptions st) with
  | Some _, None =>
      (statusCode resp =? 401)%Z
      && Headers.has (resp_headers resp) "www-authenticate"
  | _, _ => false
  end.

Definition isRedirection (o : Options) (resp : Response) : bool :=
  match followRedirect o with
  | Some false => false
  | _ => ((300 <=? statusCode resp) && (statusCode resp <? 400)
          && negb (statusCode resp =? 304))%Z
  end.

(** The requests and their answers: [onResponse], [onAuth], [onRedirect]
    and the error listener, along what happens to each request. *)
Fixpoint respond (env : Env) (o : Options) (script : list Step) (st : State)
  : Run :=
  match script with
  | [] => Running st
  | s :: script' =>
      let st := signal (abortCalled s) st in
      match answer s with
      | Silent => Running st
      | Errors reason => Running (errorHandler reason st)
      | Responds resp =>
          if aborted st then Running (emit EmitAbort (set_response None st))
          else
            let st := set_response
                        (Some (statusCode resp, statusMessage resp, resp_headers resp))
                        st in
            let st := match Headers.raw (resp_headers resp) "set-cookie" with
                      | Some values => if jar o then push_cookies values st else st
                      | None => st
                      end in
            if authChallenged o resp st then
              Crashed "ReferenceError: getAuthString is not defined" st
            else if isRedirection o resp then
              let exhausted := (redirectsLeft st =? 0)%Z in
              let st := decrement st in
              if exhausted then Running (errorHandler "too many redirects" st)
              else
                match parse env (Headers.get (resp_headers resp) "location") with
                | Throw _ => Crashed "parse threw" st
                | Ok None =>
                    Running (errorHandler
                               ("invalid redirect url " ++ quote ++ show_falsy ++ quote) st)
                | Ok (Some u) =>
                    let previous := result_href st in
                    let r := requestOptions st in
                    let r := with_headers (Js.set (i_headers r) "Referer" previous) r in
                    let r := if negb (i_protocol r =? protocol u) && negb (pool o)
                             then with_agent (getAgent (protocol u) o) r else r in
                    let r := if jar o then
                               let h := obj_delete (i_headers r) "Cookie" in
                               let cookieString := getCookieString env (href u) in
                               with_headers
                                 (if negb (cookieString =? "")
                                  then Js.set h "Cookie" cookieString else h) r
                             else r in
                    let st := go_to u r st in
                    let st := emit EmitRedirect st in
                    let st := set_requestOptions
                                (addUrlToRequestOptions u (requestOptions st)) st in
                    respond env o script' (issue st)
                end
            else
              let st := emit (EmitResponse (statusCode resp) (resp_headers resp)) st in
              onData env o resp st
      end
  end.

(** The credentials of the URL and of the options disagree. *)
Definition credentialsMismatch (u : Url) (o : Options) : bool :=
  negb (strictEq (username u) Null) && negb (strictEq (password u) Null)
  && match auth o with
     | Some a => negb (strictEq (Str (user a)) (username u))
                 || negb (strictEq (Str (pass a)) (password u))
     | None => false
     end.

(** [options.maxRedirects || 5] *)
Definition redirectBudget (o : Options) : Z :=
  match maxRedirects o with
  | Some n => if (n =? 0)%Z then 5%Z else n
  | None => 5%Z
  end.

(** [request(urlString, options)], after the first argument was taken for
    the options when it is the only one. *)
Definition request (env : Env) (urlString : option string) (o : Options)
           (script : list Step) : Returned :=
  match parse env urlString with
  | Throw _ => Throws "parse threw"
  | Ok parsed =>
      let invalid :=
        ReturnsUndefined
          [EmitError ("invalid url " ++ quote ++
                      match urlString with Some s => s | None => "undefined" end
                      ++ quote)] in
      match parsed with
      | None => invalid
      | Some u =>
          if negb (protocol u =? "http:") && negb (protocol u =? "https:") then invalid
          else if credentialsMismatch u o then
            ReturnsUndefined
              [EmitError ("credentials mismatch, either include them in the url or use "
                          ++ quote ++ "auth" ++ quote ++ " option instead")]
          else
            let h := match headers o with Some h => h | None => [] end in
            let h := if gzip o then Js.set h "Accept-Encoding" "gzip,deflate,br" else h in
            let r := mkIssued
                       (match method o with
                        | Some m => if Js.truthy (Some m) then m else "GET"
                        | None => "GET"
                        end)
                       "" "" Undefined "" h
                       (if pool o then Pool else getAgent (protocol u) o)
                       None in
            if match auth o with Some _ => sendImmediately o | None => false end then
              Throws "ReferenceError: getAuthString is not defined"
            else
              let st := mkState false (redirectBudget o) [] u (href u) None r [] [] [] in
              let st := emit EmitRequest st in
              let st := if jar o then
                          let cookieString := getCookieString env (href u) in
                          if negb (cookieString =? "")
                          then set_requestOptions
                                 (with_headers
                                    (Js.set (i_headers (requestOptions st)) "Cookie"
                                            cookieString)
                                    (requestOptions st)) st
                          else st
                        else st in
              let st := set_requestOptions
                          (addUrlToRequestOptions u (requestOptions st)) st in
              ReturnsPromise (respond env o script (issue st))
      end
  end.

End Request.

(* ------------------------------------------------------------------ *)
(** ** Observations *)

(** The canonical network-error shape of the response state. *)
Definition networkErrorShape (x : Xhr) : Prop :=
  status x = 0%Z /\ statusText x = "" /\
  Properties.responseHeaders (properties x) = [] /\
  Properties.responseCache (properties x) = None /\
  Properties.responseTextCache (properties x) = None /\
  Properties.responseXMLCache (properties x) = None.

(** A DOM event whose listeners find the response state reset. *)
Definition seesNetworkError (e : Event) : Prop :=
  match e with
  | Fired _ _ seen => networkErrorShape seen
  | _ => False
  end.

(** The state in which [validCORSHeaders] reports a forbidden origin. *)
Definition crossOriginForbidden (w : World) : World :=
  with_xhr (with_properties
    (Properties.set_error
       ("Cross origin " ++ Properties.origin (properties (xhr w)) ++ " forbidden"))) w.

Definition isPreflightCall (c : FetchCall) : bool :=
  match call_site c with
  | PreflightCall => true
  | RequestCall => false
  end.

Definition isRequestCall (c : FetchCall) : bool :=
  match call_site c with
  | PreflightCall => false
  | RequestCall => true
  end.

(** A call of the transport that is answered while [abort()] is not
    called. *)
Definition answered (resp : FetchResponse) : Step := mkStep false (Fulfilled resp).

(** The [Set-Cookie] values of a list of responses, response by response. *)
Definition observedCookies (rs : list FetchResponse) : list (list string) :=
  flat_map (fun r => match Headers.raw (resp_headers r) "set-cookie" with
                     | Some values => [values]
                     | None => []
                     end) rs.

(** The URL of the request that follows a chain of redirects. *)
Definition finalUri (uri : option string) (rs : list FetchResponse) : option string :=
  fold_left (fun _ r => Headers.get (resp_headers r) "location") rs uri.

(** What a state keeps apart from the log of [setCookie] calls and the
    cookie jar of the flag. *)
Definition sameButCookies (w w' : World) : Prop :=
  events w' = events w /\ fetches w' = fetches w /\
  requestHeaders w' = requestHeaders w /\
  gatheredCookies w' = gatheredCookies w /\
  requestsDone w' = requestsDone w /\ aborted w' = aborted w /\
  statusCode w' = statusCode w /\ headers w' = headers w /\
  Flag.auth (flag (xhr w')) = Flag.auth (flag (xhr w)).

(** The state after the redirects [rs] were followed from [w]. *)
Definition afterHops (rs : list FetchResponse) (w w' : World) : Prop :=
  xhr w' = xhr w /\
  events w' = (events w ++ repeat EmitRedirect (length rs))%list /\
  length (fetches w') = (length (fetches w) + length rs)%nat /\
  setCookies w' = setCookies w /\
  requestHeaders w' = requestHeaders w /\
  gatheredCookies w' = (gatheredCookies w ++ observedCookies rs)%list /\
  requestsDone w' = (requestsDone w + length rs)%nat /\
  aborted w' = aborted w /\
  statusCode w' = statusCode w /\ headers w' = headers w.

(** The events of [readBody], given whether the signal was aborted when
    the body began to be read. *)
Definition bodyEvents (resp : FetchResponse) (abortedBefore : bool) : list Event :=
  match resp_buffer resp with
  | Pending => []
  | Rejected reason =>
      if abortedBefore || abortDuringBody resp then [EmitAbort]
      else [EmitError (Reason reason)]
  | Fulfilled buffer =>
      [EmitData response buffer; EmitData client buffer;
       EmitEnd response; EmitEnd client]
  end.

(** An operation whose last notification is [abort] or [error]. *)
Definition endsInAbortOrError (w : World) : Prop :=
  exists before e,
    events w = (before ++ [e])%list /\
    (e = EmitAbort \/ exists err, e = EmitError err).

(** *** Sample requests

    A page at http://app.example that sends requests to
    http://api.example and to itself. *)

Definition sampleProperties : Properties.t :=
  Properties.mk "" true false false None None None [] "http://app.example".

Definition sampleFlag (url : URL) (method : string) (requestHeaders : Js.obj string)
  : Flag.t :=
  Flag.mk url method requestHeaders "http://app.example/" "jsdom"
          "http://app.example" false false None true None None None false false.

Definition sampleXhr (url : URL) (method : string) (requestHeaders : Js.obj string)
  : Xhr :=
  mkXhr (sampleFlag url method requestHeaders) sampleProperties OPENED 0 "" false.

Definition apiURL : URL :=
  mkURL "http://api.example/items" "http:" "http://api.example" "/items".

Definition appURL : URL :=
  mkURL "http://app.example/page" "http:" "http://app.example" "/page".

Definition ftpURL : URL :=
  mkURL "ftp://app.example/file" "ftp:" "null" "/file".

Definition dataURL : URL :=
  mkURL "data:text/plain,hello" "data:" "null" "text/plain,hello".

Definition malformedDataURL : URL :=
  mkURL "data:text/plain" "data:" "null" "text/plain".

(** A cross-origin PUT with the header X-Token. *)
Definition putRequest : Xhr := sampleXhr apiURL "PUT" [("X-Token", "t")].

(** A same-origin GET without headers of its own. *)
Definition getRequest : Xhr := sampleXhr appURL "GET" [].

Definition okResponse (headers : Headers.t) (body : Settled string) : FetchResponse :=
  mkResp 200 headers body false.

(** A preflight response that allows every origin and the header X-Token. *)
Definition allowingResponse : FetchResponse :=
  okResponse [("access-control-allow-origin", ["*"]);
              ("access-control-allow-headers", ["x-token"])]
             (Fulfilled "").

Definition redirectResponse : FetchResponse :=
  mkResp 302 [("location", ["http://app.example/page"])] (Fulfilled "") false.

Definition challengeResponse : FetchResponse :=
  mkResp 401 [("www-authenticate", ["Basic realm=x"])] (Fulfilled "") false.

(** A same-origin GET with credentials configured. *)
Definition authRequest : Xhr :=
  mkXhr (Flag.mk appURL "GET" [] "http://app.example/" "jsdom" "http://app.example"
                 false false None true (Some (mkAuth "user" "pass")) None None
                 false false)
        sampleProperties OPENED 0 "" false.

Definition cookieRedirect : FetchResponse :=
  mkResp 302 [("set-cookie", ["a=1"]); ("location", ["http://app.example/next"])]
         (Fulfilled "") false.

Definition cookieResponse : FetchResponse :=
  okResponse [("set-cookie", ["b=2"])] (Fulfilled "ok").

Definition sampleOptions : Options :=
  requestOptions (flag getRequest) (HttpAgent true true).

Definition sampleEnv (parsed : res (string * string)) (script : list Step) : Env :=
  mkEnv parsed [] script.

(** A same-origin POST with a body. *)
Definition postRequest : Xhr :=
  mkXhr (Flag.mk appURL "POST" [] "http://app.example/" "jsdom" "http://app.example"
                 false false None true None None (Some "a=1") false false)
        sampleProperties OPENED 0 "" false.

(** A cross-origin PUT with a listener on the upload object. *)
Definition uploadRequest : Xhr :=
  mkXhr (sampleFlag apiURL "PUT" [])
        (Properties.mk "" true false true None None None [] "http://app.example")
        OPENED 0 "" false.

(** The request [x] with the proxy [p] configured. *)
Definition viaProxy (p : string) (x : Xhr) : Xhr :=
  with_flag (fun f =>
               Flag.mk (Flag.uri f) (Flag.method f) (Flag.requestHeaders f)
                       (Flag.referrer f) (Flag.userAgent f) (Flag.origin f)
                       (Flag.withCredentials f) (Flag.synchronous f) (Some p)
                       (Flag.strictSSL f) (Flag.auth f) (Flag.cookieJar f)
                       (Flag.body f) (Flag.formData f) (Flag.preflight f)) x.

(** The events, the calls of the transport and the cookie writes of a
    trace. *)
Definition emittedIn (t : list Effect) : list Event :=
  flat_map (fun e => match e with Emits ev => [ev] | _ => [] end) t.

Definition fetchedIn (t : list Effect) : list FetchCall :=
  flat_map (fun e => match e with Fetches c => [c] | _ => [] end) t.

Definition cookiesSetIn (t : list Effect) : list (string * option string) :=
  flat_map (fun e => match e with SetsCookie v u => [(v, u)] | _ => [] end) t.

(** The three logs of a state are what its trace holds. *)
Definition traced (w : World) : Prop :=
  events w = emittedIn (trace w) /\
  fetches w = fetchedIn (trace w) /\
  setCookies w = cookiesSetIn (trace w).

(** What happens while redirects are followed and the retry with
    authentication is made: calls of the transport and [redirect]. *)
Definition isHopEffect (e : Effect) : bool :=
  match e with
  | Fetches _ => true
  | Emits EmitRedirect => true
  | _ => false
  end.

(** The calls [setCookie(value, uri)] for the gathered values, in order. *)
Definition cookieWrites (uri : option string) (gathered : list (list string))
  : list Effect :=
  map (fun value => SetsCookie value uri) (concat gathered).

(** How the request loop ends when no final response is received: with
    nothing, with [abort], or with [error]. *)
Definition endsWithoutResponse (tail : list Effect) : Prop :=
  tail = [] \/ tail = [Emits EmitAbort] \/ exists err, tail = [Emits (EmitError err)].


(** The state of the loader after the redirect [resp] was followed from
    the request to [uri]. *)
Definition loaderHop (st : Loader.State) (uriresp : option string * FetchResponse)
  : Loader.State :=
  Loader.count (Loader.gather (snd uriresp) (Loader.call_fetch (fst uriresp) st)).

(** The URLs of the requests that are answered by the redirects [rs], the
    first one going to [uri]. *)
Fixpoint hopUris (uri : option string) (rs : list FetchResponse)
  : list (option string) :=
  match rs with
  | [] => []
  | r :: rs' => uri :: hopUris (Headers.get (resp_headers r) "location") rs'
  end.

Definition afterLoaderHops (uri : option string) (rs : list FetchResponse)
           (st : Loader.State) : Loader.State :=
  fold_left loaderHop (combine (hopUris uri rs) rs) st.

(** A header is stored under some spelling of [name]. *)
Definition hasHeader (requestHeaders : Js.obj string) (name : string) : Prop :=
  exists key, In key (Js.keys requestHeaders) /\
              Js.toLowerCase key = Js.toLowerCase name.

(** The test [getRequestHeader(flag.requestHeaders, name) === null]. *)
Definition absentHeader (f : Flag.t) (name : string) : bool :=
  match getRequestHeader (Flag.requestHeaders f) name with
  | None => true
  | Some _ => false
  end.

(** The [Cookie] header [createClient] takes from the jar, when it takes
    one. *)
Definition jarCookie (f : Flag.t) : option string :=
  match Flag.cookieJar f with
  | Some jar =>
      if (negb (crossOrigin f) || Flag.withCredentials f)
         && (0 <? length (cookieStrings jar))%nat
      then Some (Js.join "; " (cookieStrings jar)) else None
  | None => None
  end.

(** The names of the events fired on the upload object. *)
Definition uploadEvents (l : list Event) : list string :=
  flat_map (fun e => match e with
                     | Fired name onUpload _ => [name]
                     | _ => []
                     end) l.

(** How an exchange can end after its redirects: with nothing when the
    transport does not answer, with [abort] or [error], or with [response]
    followed by nothing, by [abort] or [error], or by the body and [end]
    on both emitters. *)
Definition closingEvents (tail : list Event) : Prop :=
  tail = [] \/ tail = [EmitAbort] \/ (exists err, tail = [EmitError err]) \/
  exists code h,
    tail = [EmitResponse code h] \/
    tail = [EmitResponse code h; EmitAbort] \/
    (exists err, tail = [EmitResponse code h; EmitError err]) \/
    (exists buffer,
        tail = [EmitResponse code h; EmitData response buffer;
                EmitData client buffer; EmitEnd response; EmitEnd client]).

(** The calls of the transport one more retry with authentication can
    add. *)
Definition authAllowance (w : World) : nat :=
  match Js.get (requestHeaders w) "Authorization" with
  | Some _ => 0
  | None => 1
  end.

(** A request of the helper that is answered with a response while
    [abort()] is not called. *)
Definition requestAnswered (r : Request.Response) : Request.Step :=
  Request.mkStep false (Request.Responds r).

(** A redirect the helper follows: a status from 300 to 399 other than
    304, with redirects not switched off, and a location that parses. *)
Definition followable (env : Request.Env) (o : Request.Options)
           (r : Request.Response) : Prop :=
  Request.isRedirection o r = true /\
  exists u, Request.parse env (Headers.get (Request.resp_headers r) "location")
            = Ok (Some u).

(** The conditions under which [request] sends its first request to the
    URL [u]. *)
Definition requestStarts (env : Request.Env) (urlString : option string)
           (o : Request.Options) (u : Request.Url) : Prop :=
  Request.parse env urlString = Ok (Some u) /\
  (Request.protocol u = "http:" \/ Request.protocol u = "https:") /\
  Request.credentialsMismatch u o = false /\
  (Request.auth o = None \/ Request.sendImmediately o = false).

Definition stateOf (r : Request.Run) : Request.State :=
  match r with
  | Request.Running st => st
  | Request.Crashed _ st => st
  end.

(** The URL the helper is at after the redirects [rs], starting at [u]. *)
Definition lastUrl (env : Request.Env) (u : Request.Url)
           (rs : list Request.Response) : Request.Url :=
  fold_left (fun u r =>
               match Request.parse env (Headers.get (Request.resp_headers r) "location") with
               | Ok (Some u') => u'
               | _ => u
               end) rs u.

(** The [Set-Cookie] values of the responses [rs], response by response. *)
Definition nodeCookies (rs : list Request.Response) : list (list string) :=
  flat_map (fun r => match Headers.raw (Request.resp_headers r) "set-cookie" with
                     | Some values => [values]
                     | None => []
                     end) rs.

(** The state of the helper after the redirects [rs] were followed from
    [st]. *)
Definition afterRedirects (env : Request.Env) (o : Request.Options)
           (rs : list Request.Response) (st st' : Request.State) : Prop :=
  Request.aborted st' = Request.aborted st /\
  Request.redirectsLeft st' = (Request.redirectsLeft st - Z.of_nat (length rs))%Z /\
  Request.events st' =
  (Request.events st ++ repeat Request.EmitRedirect (length rs))%list /\
  length (Request.requests st') = (length (Request.requests st) + length rs)%nat /\
  Request.setCookies st' = Request.setCookies st /\
  Request.gatheredCookies st' =
  (Request.gatheredCookies st ++ (if Request.jar o then nodeCookies rs else []))%list /\
  Request.url st' = lastUrl env (Request.url st) rs /\
  Request.i_auth (Request.requestOptions st') = Request.i_auth (Request.requestOptions st).

(** Sample values for the request helper: a parser that accepts every
    string as an http URL of one host, a jar that holds one cookie, and
    pass-through decompression. *)
Definition helperUrl (s : string) : Request.Url :=
  Request.mkUrl s "http:" "www.example.org" Request.Null "/" None
                Request.Null Request.Null.

Definition helperEnv : Request.Env :=
  Request.mkEnv
    (fun s => match s with
              | Some s => Ok (Some (helperUrl s))
              | None => Throw (TypeError "The url argument must be of type string")
              end)
    (fun _ => "sid=1")
    (fun _ chunks => Ok chunks).

(** The options of the sample script: gzip, forever and a jar. *)
Definition helperOptions : Request.Options :=
  Request.mkOptions None true true None None (Some true) None None false None None false.

Definition helperAuthOptions : Request.Options :=
  Request.mkOptions None false false None None None None
                    (Some (mkAuth "user" "secret")) false None None false.

Definition helperState : Request.State :=
  let u := helperUrl "http://www.example.org/" in
  let r := Request.mkIssued "GET" "http:" "www.example.org" Request.Null "/"
                            [("Cookie", "old=1")]
                            (Request.Made Request.Http None None None) None in
  Request.mkState false 5 [] u (Request.href u) None r [Request.EmitRequest] [r] [].

Definition movedTo (location : string) : Request.Response :=
  Request.mkResponse 302 "Found"
                     [("location", [location]); ("set-cookie", ["a=1"])] [] true.

Definition pageResponse : Request.Response :=
  Request.mkResponse 200 "OK" [("set-cookie", ["b=2"])] ["hello"] true.

Definition notModified : Request.Response :=
  Request.mkResponse 304 "Not Modified" [] ["ignored"] true.

Definition challenged : Request.Response :=
  Request.mkResponse 401 "Unauthorized" [("www-authenticate", ["Basic"])] [] true.

(** The parser of Node's url module: it has [auth], and leaves [username]
    and [password] undefined. *)
Definition legacyUrl (s : string) : Request.Url :=
  Request.mkUrl s "http:" "www.example.org" Request.Null "/" None
                Request.Undefined Request.Undefined.

Definition legacyEnv : Request.Env :=
  Request.mkEnv
    (fun s => match s with
              | Some s => Ok (Some (legacyUrl s))
              | None => Throw (TypeError "The url argument must be of type string")
              end)
    (fun _ => EmptyString)
    (fun _ chunks => Ok chunks).

(* ------------------------------------------------------------------ *)
(** ** Properties *)

(** *** The error steps *)

Lemma setResponseToNetworkError_shape (x : Xhr) :
  networkErrorShape (setResponseToNetworkError x).
Proof. repeat split. Qed.

(** C9. Whenever the error steps run, the response state is first reset to
    the network-error shape (status 0, empty status text, empty headers,
    null caches): the state they leave has that shape, every event they fire
    is seen with that shape, in synchronous mode the exception is thrown
    after the reset and nothing is fired, and otherwise the notification
    [event] and [loadend] are the last two events fired on the request. *)
Theorem requestErrorSteps_resets_before_notifying :
  forall (event : string) (exception : Exn) (w : World),
    let r := requestErrorSteps event exception w in
    networkErrorShape (xhr (snd r)) /\
    exists fired,
      events (snd r) = (events w ++ fired)%list /\
      Forall seesNetworkError fired /\
      (if Flag.synchronous (flag (xhr w))
       then fst r = Throw exception /\ fired = []
       else fst r = Ok tt /\
            exists before seen,
              fired = (before ++ [Fired event onXhr seen;
                                  Fired "loadend" onXhr seen])%list).
Proof.
  intros event exception w r. subst r.
  unfold requestErrorSteps, bind, modify, gets, throw, when, fireAnEvent, ret.
  cbn.
  destruct (Flag.synchronous (flag (xhr w))) eqn:Hsync; cbn.
  - split; [repeat split|].
    exists []. rewrite app_nil_r. repeat split; constructor.
  - destruct (Properties.uploadComplete (properties (xhr w))) eqn:Hup; cbn.
    + split; [repeat split|].
      eexists. rewrite <- !app_assoc. split; [reflexivity|]. cbn. split.
      * repeat constructor.
      * split; [reflexivity|].
        eexists [_], _. reflexivity.
    + destruct (Properties.uploadListener (properties (xhr w))) eqn:Hl; cbn.
      * split; [repeat split|].
        eexists. rewrite <- !app_assoc. split; [reflexivity|]. cbn. split.
        -- repeat constructor.
        -- split; [reflexivity|]. eexists [_; _; _], _. reflexivity.
      * split; [repeat split|].
        eexists. rewrite <- !app_assoc. split; [reflexivity|]. cbn. split.
        -- repeat constructor.
        -- split; [reflexivity|]. eexists [_], _. reflexivity.
Qed.

(** *** Calls to the transport *)

Ltac unfold_steps :=
  unfold dispatchError, requestErrorSteps, bind, modify, gets, throw, when,
    fireAnEvent, ret.

Lemma has_In (set : list string) (x : string) :
  Js.has set x = true <-> In x set.
Proof.
  unfold Js.has. rewrite existsb_exists. split.
  - intros [y [Hy Heq]]. apply String.eqb_eq in Heq. now subst.
  - intros H. exists x. split; [assumption|apply String.eqb_refl].
Qed.

Lemma has_not_In (set : list string) (x : string) :
  Js.has set x = false <-> ~ In x set.
Proof.
  rewrite <- has_In. destruct (Js.has set x); split; congruence.
Qed.

(** On a response of the transport the header reads of [validCORSHeaders]
    yield undefined, and the origin check fails. *)
Lemma validCORSPreflightHeaders_FetchHeaders (m : Headers.t) (w : World) :
  validCORSPreflightHeaders (FetchHeaders m) w =
  match dispatchError (crossOriginForbidden w) with
  | (Ok _, w') => (Ok false, w')
  | (Throw e, w') => (Throw e, w')
  end.
Proof.
  unfold validCORSPreflightHeaders, validCORSHeaders, bind, gets, modify, ret.
  cbn [prop trimmed Js.truthy opt_eqb negb andb].
  fold (crossOriginForbidden w).
  destruct (dispatchError (crossOriginForbidden w)) as [[[]|e] w']; reflexivity.
Qed.


(** *** One answer of the transport *)

Lemma signal_abort_false (w : World) : signal_abort false w = w.
Proof. destruct w. unfold signal_abort. cbn. now rewrite orb_false_r. Qed.

Lemma doRequestTo_answered (options : Options) (resp : FetchResponse)
      (script : list Step) (uri : option string) (w : World) :
  aborted w = false ->
  doRequestTo options (answered resp :: script) uri w =
  let w1 := call_fetch (requestCall options uri w) w in
  match authRequested w1 resp with
  | Some a =>
      doRequestTo options script uri
        (set_requestHeaders
           (Js.set (requestHeaders w1) "Authorization" (authHeader a)) w1)
  | None =>
      let w2 := trackCookies resp w1 in
      if isRedirect resp then
        let w3 := incr_requestsDone w2 in
        if (requestsDone w3 =? 21)%nat
        then catchRequest (redirectLoopError uri) w3
        else doRequestTo options script
               (Headers.get (resp_headers resp) "location") (emit EmitRedirect w3)
      else complete uri resp w2
  end.
Proof.
  intros Hab. cbn [doRequestTo answered abortCalled outcome].
  rewrite signal_abort_false. cbn [aborted call_fetch]. rewrite Hab. reflexivity.
Qed.

Lemma isRedirect_bounds (resp : FetchResponse) :
  isRedirect resp = true <-> (300 <= resp_status resp < 400)%Z.
Proof. unfold isRedirect. rewrite andb_true_iff, Z.leb_le, Z.ltb_lt. tauto. Qed.

Lemma redirect_not_authRequested (w : World) (resp : FetchResponse) :
  isRedirect resp = true -> authRequested w resp = None.
Proof.
  intros H. apply isRedirect_bounds in H. unfold authRequested.
  destruct (resp_status resp =? 401)%Z eqn:E; [|reflexivity].
  apply Z.eqb_eq in E. lia.
Qed.

Lemma authRequested_frame (w w' : World) (resp : FetchResponse) :
  Flag.auth (flag (xhr w')) = Flag.auth (flag (xhr w)) ->
  requestHeaders w' = requestHeaders w ->
  authRequested w' resp = authRequested w resp.
Proof. intros H1 H2. unfold authRequested. now rewrite H1, H2. Qed.

Lemma trackCookies_gathered (resp : FetchResponse) (w : World) :
  gatheredCookies (trackCookies resp w) =
  (gatheredCookies w ++ observedCookies [resp])%list.
Proof.
  unfold trackCookies, observedCookies. cbn.
  destruct (Headers.raw (resp_headers resp) "set-cookie"); cbn;
    [reflexivity | now rewrite app_nil_r].
Qed.

(** What [trackCookies] leaves alone. *)
Lemma trackCookies_frame (resp : FetchResponse) (w : World) :
  xhr (trackCookies resp w) = xhr w /\
  events (trackCookies resp w) = events w /\
  fetches (trackCookies resp w) = fetches w /\
  setCookies (trackCookies resp w) = setCookies w /\
  requestHeaders (trackCookies resp w) = requestHeaders w /\
  requestsDone (trackCookies resp w) = requestsDone w /\
  aborted (trackCookies resp w) = aborted w /\
  statusCode (trackCookies resp w) = statusCode w /\
  headers (trackCookies resp w) = headers w.
Proof.
  unfold trackCookies.
  destruct (Headers.raw (resp_headers resp) "set-cookie"); repeat split.
Qed.

(** One redirect below the limit: the hop is counted, [redirect] is
    emitted, and the request goes to the new location. *)
Lemma doRequestTo_redirect (options : Options) (resp : FetchResponse)
      (script : list Step) (uri : option string) (w : World) :
  aborted w = false ->
  isRedirect resp = true ->
  (requestsDone w < 20)%nat ->
  doRequestTo options (answered resp :: script) uri w =
  doRequestTo options script (Headers.get (resp_headers resp) "location")
    (emit EmitRedirect
       (incr_requestsDone
          (trackCookies resp (call_fetch (requestCall options uri w) w)))).
Proof.
  intros Hab Hred Hlt. rewrite doRequestTo_answered by assumption. cbv zeta.
  rewrite redirect_not_authRequested by assumption. rewrite Hred.
  destruct (trackCookies_frame resp (call_fetch (requestCall options uri w) w))
    as (_ & _ & _ & _ & _ & Hn & _).
  cbn [requestsDone incr_requestsDone]. rewrite Hn. cbn [requestsDone call_fetch].
  destruct (Nat.eqb_spec (S (requestsDone w)) 21); [lia|reflexivity].
Qed.

(** The redirect that reaches the limit: the hop is counted and the
    operation fails; the transport is not called again. *)
Lemma doRequestTo_redirect_limit (options : Options) (resp : FetchResponse)
      (script : list Step) (uri : option string) (w : World) :
  aborted w = false ->
  isRedirect resp = true ->
  requestsDone w = 20%nat ->
  doRequestTo options (answered resp :: script) uri w =
  emit (EmitError (redirectLoopError uri))
    (incr_requestsDone
       (trackCookies resp (call_fetch (requestCall options uri w) w))).
Proof.
  intros Hab Hred Hn. rewrite doRequestTo_answered by assumption. cbv zeta.
  rewrite redirect_not_authRequested by assumption. rewrite Hred.
  destruct (trackCookies_frame resp (call_fetch (requestCall options uri w) w))
    as (_ & _ & _ & _ & _ & Hd & Ha & _).
  cbn [requestsDone incr_requestsDone]. rewrite Hd. cbn [requestsDone call_fetch].
  rewrite Hn. cbn [Nat.eqb]. unfold catchRequest.
  cbn [aborted incr_requestsDone]. rewrite Ha. cbn [aborted call_fetch].
  now rewrite Hab.
Qed.

(** A response that is not a redirect and is not answered with the retry
    completes the operation. *)
Lemma doRequestTo_final (options : Options) (resp : FetchResponse)
      (script : list Step) (uri : option string) (w : World) :
  aborted w = false ->
  isRedirect resp = false ->
  authRequested w resp = None ->
  doRequestTo options (answered resp :: script) uri w =
  complete uri resp (trackCookies resp (call_fetch (requestCall options uri w) w)).
Proof.
  intros Hab Hred Hauth. rewrite doRequestTo_answered by assumption. cbv zeta.
  change (authRequested (call_fetch (requestCall options uri w) w) resp)
    with (authRequested w resp).
  now rewrite Hauth, Hred.
Qed.

(** *** Chains of redirects *)

Lemma observedCookies_cons (r : FetchResponse) (rs : list FetchResponse) :
  observedCookies (r :: rs) = (observedCookies [r] ++ observedCookies rs)%list.
Proof. unfold observedCookies. cbn. now rewrite app_nil_r. Qed.

Lemma trackCookies_trace (resp : FetchResponse) (w : World) :
  trace (trackCookies resp w) = trace w.
Proof.
  unfold trackCookies.
  destruct (Headers.raw (resp_headers resp) "set-cookie"); reflexivity.
Qed.

(** A chain of redirects below the limit: each is answered with the next
    call; all that happens on the way is calls of the transport and
    [redirect]. *)
Lemma redirect_hops_traced (options : Options) (rest : list Step) :
  forall (rs : list FetchResponse) (uri : option string) (w : World),
    aborted w = false ->
    Forall (fun r => isRedirect r = true) rs ->
    (requestsDone w + length rs <= 20)%nat ->
    exists w' hops,
      doRequestTo options (map answered rs ++ rest) uri w =
      doRequestTo options rest (finalUri uri rs) w' /\
      afterHops rs w w' /\
      trace w' = (trace w ++ hops)%list /\
      forallb isHopEffect hops = true.
Proof.
  intros rs. induction rs as [|r rs IH]; intros uri w Hab Hall Hn.
  - exists w, []. split; [reflexivity|]. split.
    + unfold afterHops. cbn. rewrite !app_nil_r, !Nat.add_0_r. repeat split.
    + split; [now rewrite app_nil_r | reflexivity].
  - inversion Hall as [|? ? Hr Hrs]; subst. cbn [length] in Hn.
    cbn [map app]. rewrite doRequestTo_redirect by (assumption || lia).
    set (w0 := call_fetch (requestCall options uri w) w).
    destruct (trackCookies_frame r w0)
      as (Hx & He & Hf & Hs & Hh & Hd & Ha & Hc & Hhd).
    pose proof (trackCookies_gathered r w0) as Hg.
    pose proof (trackCookies_trace r w0) as Htr.
    set (w1 := emit EmitRedirect (incr_requestsDone (trackCookies r w0))).
    destruct (IH (Headers.get (resp_headers r) "location") w1)
      as (w' & hops & Heq & Hops & Ht & Hhops).
    + subst w1. cbn. rewrite Ha. exact Hab.
    + assumption.
    + subst w1. cbn. rewrite Hd. subst w0. cbn. lia.
    + exists w', (Fetches (requestCall options uri w) :: Emits EmitRedirect :: hops).
      split; [exact Heq|].
      assert (Htrace : trace w' =
                       (trace w ++ Fetches (requestCall options uri w)
                                :: Emits EmitRedirect :: hops)%list).
      { rewrite Ht. subst w1. cbn [trace emit incr_requestsDone]. rewrite Htr.
        subst w0. cbn [trace call_fetch]. rewrite <- !app_assoc. reflexivity. }
      split; [|split; [exact Htrace | exact Hhops]].
      clear Ht Htrace Htr.
      destruct Hops as (Kx & Ke & Kf & Ks & Kh & Kg & Kd & Ka & Kc & Khd).
      subst w1 w0. cbn in *.
      rewrite Hx in Kx. rewrite He in Ke. rewrite Hf in Kf. rewrite Hs in Ks.
      rewrite Hh in Kh. rewrite Hg in Kg. rewrite Hd in Kd. rewrite Ha in Ka.
      rewrite Hc in Kc. rewrite Hhd in Khd. cbn in *.
      unfold afterHops. cbn [length repeat].
      rewrite observedCookies_cons.
      repeat split; try assumption.
      * rewrite Ke, <- app_assoc. reflexivity.
      * rewrite Kf, length_app. cbn. lia.
      * rewrite Kg, <- app_assoc. reflexivity.
      * lia.
Qed.

Lemma redirect_hops (options : Options) (rest : list Step) :
  forall (rs : list FetchResponse) (uri : option string) (w : World),
    aborted w = false ->
    Forall (fun r => isRedirect r = true) rs ->
    (requestsDone w + length rs <= 20)%nat ->
    exists w',
      doRequestTo options (map answered rs ++ rest) uri w =
      doRequestTo options rest (finalUri uri rs) w' /\
      afterHops rs w w'.
Proof.
  intros rs uri w Hab Hall Hn.
  destruct (@redirect_hops_traced options rest rs uri w Hab Hall Hn)
    as (w' & hops & Heq & Hops & _).
  exists w'. split; assumption.
Qed.

(** *** The final response *)

Lemma sameButCookies_refl (w : World) : sameButCookies w w.
Proof. repeat split. Qed.

Lemma sameButCookies_trans (w1 w2 w3 : World) :
  sameButCookies w1 w2 -> sameButCookies w2 w3 -> sameButCookies w1 w3.
Proof.
  unfold sameButCookies.
  intros (A1 & A2 & A3 & A4 & A5 & A6 & A7 & A8 & A9)
         (B1 & B2 & B3 & B4 & B5 & B6 & B7 & B8 & B9).
  repeat split; congruence.
Qed.

Lemma setCookie_each (uri : option string) :
  forall (values : list string) (w : World),
    let w' := fold_left (fun w value => call_setCookie value uri w) values w in
    sameButCookies w w' /\
    setCookies w' = (setCookies w ++ map (fun value => (value, uri)) values)%list.
Proof.
  intros values. induction values as [|v values IH]; intros w; cbn.
  - split; [apply sameButCookies_refl | now rewrite app_nil_r].
  - destruct (IH (call_setCookie v uri w)) as [Hsame Hset]. split.
    + exact Hsame.
    + rewrite Hset. cbn. now rewrite <- app_assoc.
Qed.

Lemma setCookie_all (uri : option string) :
  forall (gathered : list (list string)) (w : World),
    let w' := fold_left
                (fun w values =>
                   fold_left (fun w value => call_setCookie value uri w) values w)
                gathered w in
    sameButCookies w w' /\
    setCookies w' =
    (setCookies w ++ map (fun value => (value, uri)) (concat gathered))%list.
Proof.
  intros gathered. induction gathered as [|values gathered IH]; intros w; cbn.
  - split; [apply sameButCookies_refl | now rewrite app_nil_r].
  - destruct (setCookie_each uri values w) as [Hsame1 Hset1].
    cbv zeta in Hsame1, Hset1.
    set (w1 := fold_left (fun w value => call_setCookie value uri w) values w) in *.
    destruct (IH w1) as [Hsame Hset]. cbv zeta in Hsame, Hset. split.
    + exact (sameButCookies_trans Hsame1 Hsame).
    + rewrite Hset, Hset1, map_app, app_assoc. reflexivity.
Qed.

(** [appendCookies]: one [setCookie] call for each gathered value, in the
    order gathered, against [uri]; nothing else of the exchange changes. *)
Lemma appendCookies_spec (uri : option string) (w : World) :
  sameButCookies w (appendCookies uri w) /\
  setCookies (appendCookies uri w) =
  (setCookies w ++ map (fun value => (value, uri)) (concat (gatheredCookies w)))%list.
Proof.
  unfold appendCookies. destruct (gatheredCookies w) as [|values gathered] eqn:Hg.
  - split; [apply sameButCookies_refl | cbn; now rewrite app_nil_r].
  - set (w0 := with_xhr _ w).
    destruct (setCookie_all uri (gatheredCookies w0) w0) as [Hsame Hset].
    cbv zeta in Hsame, Hset. split.
    + refine (sameButCookies_trans _ Hsame). subst w0. repeat split.
    + rewrite Hset. subst w0. cbn. now rewrite Hg.
Qed.

Lemma readBody_spec (resp : FetchResponse) (w : World) :
  events (readBody resp w) = (events w ++ bodyEvents resp (aborted w))%list /\
  fetches (readBody resp w) = fetches w /\
  setCookies (readBody resp w) = setCookies w /\
  gatheredCookies (readBody resp w) = gatheredCookies w.
Proof.
  unfold readBody, bodyEvents, catchRequest. cbn.
  destruct (resp_buffer resp) as [buffer|reason|]; cbn.
  - rewrite <- !app_assoc. repeat split.
  - destruct (aborted w || abortDuringBody resp); repeat split.
  - rewrite app_nil_r. repeat split.
Qed.

(** [complete]: the cookies are appended against [uri], [response] is
    emitted with the status and the headers of the response, and the body
    follows. *)
Lemma complete_spec (uri : option string) (resp : FetchResponse) (w : World) :
  events (complete uri resp w) =
  (events w ++
   EmitResponse (resp_status resp)
                (Headers.copyInto (resp_headers resp) (headers w))
   :: bodyEvents resp (aborted w))%list /\
  fetches (complete uri resp w) = fetches w /\
  setCookies (complete uri resp w) =
  (setCookies w ++ map (fun value => (value, uri)) (concat (gatheredCookies w)))%list /\
  gatheredCookies (complete uri resp w) = gatheredCookies w.
Proof.
  unfold complete. cbv zeta.
  destruct (appendCookies_spec uri w) as [Hsame Hset].
  destruct Hsame as (A1 & A2 & A3 & A4 & A5 & A6 & A7 & A8 & A9).
  match goal with
  | |- context [readBody resp ?w1] =>
      destruct (readBody_spec resp w1) as (He & Hf & Hs & Hg)
  end.
  rewrite He, Hf, Hs, Hg. cbn. rewrite A1, A2, A4, A6, A8, Hset.
  rewrite <- app_assoc. repeat split.
Qed.

Lemma setCookie_each_trace (uri : option string) :
  forall (values : list string) (w : World),
    trace (fold_left (fun w value => call_setCookie value uri w) values w) =
    (trace w ++ map (fun value => SetsCookie value uri) values)%list.
Proof.
  intros values. induction values as [|v values IH]; intros w; cbn.
  - now rewrite app_nil_r.
  - rewrite IH. cbn. now rewrite <- app_assoc.
Qed.

Lemma setCookie_all_trace (uri : option string) :
  forall (gathered : list (list string)) (w : World),
    trace (fold_left
             (fun w values =>
                fold_left (fun w value => call_setCookie value uri w) values w)
             gathered w) =
    (trace w ++ cookieWrites uri gathered)%list.
Proof.
  unfold cookieWrites.
  intros gathered. induction gathered as [|values gathered IH]; intros w; cbn.
  - now rewrite app_nil_r.
  - rewrite IH, setCookie_each_trace, map_app, app_assoc. reflexivity.
Qed.

(** In the trace, [complete] is the cookie writes, then [response], then
    what the body brings. *)
Lemma complete_trace (uri : option string) (resp : FetchResponse) (w : World) :
  trace (complete uri resp w) =
  (trace w ++ cookieWrites uri (gatheredCookies w) ++
   Emits (EmitResponse (resp_status resp)
                       (Headers.copyInto (resp_headers resp) (headers w)))
   :: map Emits (bodyEvents resp (aborted w)))%list.
Proof.
  assert (Happend : trace (appendCookies uri w) =
                    (trace w ++ cookieWrites uri (gatheredCookies w))%list).
  { unfold appendCookies. destruct (gatheredCookies w) as [|values gathered] eqn:Hg.
    - unfold cookieWrites. cbn. now rewrite app_nil_r.
    - rewrite setCookie_all_trace. cbn [gatheredCookies with_xhr trace].
      now rewrite Hg. }
  destruct (appendCookies_spec uri w) as [Hsame _].
  destruct Hsame as (_ & _ & _ & _ & _ & A6 & _ & A8 & _).
  unfold complete. cbv zeta. unfold readBody, bodyEvents, catchRequest.
  cbn [aborted signal_abort emit set_response trace statusCode headers].
  rewrite A6, A8.
  destruct (resp_buffer resp) as [buffer|reason|];
    cbn [aborted signal_abort emit set_response trace statusCode headers map].
  - rewrite Happend, <- !app_assoc. reflexivity.
  - destruct (aborted w || abortDuringBody resp);
      cbn [aborted signal_abort emit set_response trace statusCode headers map];
      rewrite Happend, <- !app_assoc; reflexivity.
  - rewrite Happend, <- !app_assoc. reflexivity.
Qed.

Lemma catchRequest_trace (err : Exn) (w : World) :
  trace (catchRequest err w) =
  (trace w ++ [Emits (if aborted w then EmitAbort else EmitError err)])%list.
Proof. unfold catchRequest. destruct (aborted w); reflexivity. Qed.

(** *** The redirect limit *)

(** C3. From the start of the request loop, twenty redirect responses
    followed by a response that is no redirect (and is not answered with the
    authentication retry) succeed: [redirect] is emitted exactly twenty
    times, then [response] with the final status, then the body and [end],
    after twenty-one calls of the transport.  A twenty-first redirect
    response instead ends the operation with the redirect-loop error after
    the twenty redirects, and the transport is not called again. *)
Theorem redirect_limit_is_twenty :
  forall (options : Options) (uri : option string) (w : World)
         (rs : list FetchResponse) (final : FetchResponse) (rest : list Step),
    requestsDone w = 0%nat ->
    aborted w = false ->
    length rs = 20%nat ->
    Forall (fun r => (300 <= resp_status r < 400)%Z) rs ->
    let w' := doRequestTo options (map answered rs ++ answered final :: rest) uri w in
    (~ (300 <= resp_status final < 400)%Z ->
     authRequested w final = None ->
     forall buffer, resp_buffer final = Fulfilled buffer ->
       events w' =
       (events w ++ repeat EmitRedirect 20 ++
        [EmitResponse (resp_status final)
                      (Headers.copyInto (resp_headers final) (headers w));
         EmitData response buffer; EmitData client buffer;
         EmitEnd response; EmitEnd client])%list /\
       length (fetches w') = (length (fetches w) + 21)%nat) /\
    ((300 <= resp_status final < 400)%Z ->
     events w' =
     (events w ++ repeat EmitRedirect 20 ++
      [EmitError (redirectLoopError (finalUri uri rs))])%list /\
     length (fetches w') = (length (fetches w) + 21)%nat).
Proof.
  intros options uri w rs final rest Hzero Hab Hlen Hall w'.
  assert (Hred : Forall (fun r => isRedirect r = true) rs).
  { eapply Forall_impl; [|exact Hall]. intros r Hr. now apply isRedirect_bounds. }
  destruct (@redirect_hops options (answered final :: rest) rs uri w Hab Hred)
    as [w1 [Heq Hops]]; [lia|].
  subst w'. rewrite Heq. clear Heq.
  destruct Hops as (Kx & Ke & Kf & Ks & Kh & Kg & Kd & Ka & Kc & Khd).
  rewrite Hlen in *. rewrite Hzero in Kd. rewrite Hab in Ka. split.
  - intros Hfinal Hauth buffer Hbuf.
    assert (Hnr : isRedirect final = false).
    { destruct (isRedirect final) eqn:E; [|reflexivity].
      apply isRedirect_bounds in E. contradiction. }
    rewrite doRequestTo_final; try assumption.
    + destruct (complete_spec (finalUri uri rs) final
                  (trackCookies final (call_fetch (requestCall options (finalUri uri rs) w1) w1)))
        as (He & Hf & _).
      destruct (trackCookies_frame final
                  (call_fetch (requestCall options (finalUri uri rs) w1) w1))
        as (_ & Te & Tf & _ & _ & _ & Ta & _ & Thd).
      rewrite He, Hf, Te, Tf, Ta, Thd. cbn [events fetches aborted headers call_fetch].
      unfold bodyEvents. rewrite Hbuf, Ke, Khd, <- app_assoc. split; [reflexivity|].
      rewrite length_app, Kf. cbn. lia.
    + rewrite <- Hauth. apply authRequested_frame; [now rewrite Kx | assumption].
  - intros Hfinal. apply isRedirect_bounds in Hfinal.
    rewrite doRequestTo_redirect_limit by assumption.
    destruct (trackCookies_frame final
                (call_fetch (requestCall options (finalUri uri rs) w1) w1))
      as (_ & Te & Tf & _).
    cbn [events fetches emit incr_requestsDone]. rewrite Te, Tf.
    cbn [events fetches call_fetch]. rewrite Ke, <- app_assoc. split; [reflexivity|].
    rewrite length_app, Kf. cbn. lia.
Qed.

(** *** The calls of the request loop *)

Lemma catchRequest_frame (err : Exn) (w : World) :
  fetches (catchRequest err w) = fetches w /\
  setCookies (catchRequest err w) = setCookies w.
Proof. unfold catchRequest. destruct (aborted w); split; reflexivity. Qed.

(** [doRequestTo] starts with the call of the real request and only ever
    calls the transport from its own call site. *)
Lemma doRequestTo_fetches (options : Options) :
  forall (script : list Step) (uri : option string) (w : World),
  exists more,
    fetches (doRequestTo options script uri w) =
    (fetches w ++ requestCall options uri w :: more)%list /\
    forallb isRequestCall more = true.
Proof.
  intros script.
  induction script as [|s script IH]; intros uri w; cbn [doRequestTo]; cbv zeta.
  - exists []. split; reflexivity.
  - set (w1 := signal_abort (abortCalled s) (call_fetch (requestCall options uri w) w)).
    assert (H1 : fetches w1 = (fetches w ++ [requestCall options uri w])%list)
      by reflexivity.
    destruct (outcome s) as [resp|reason|].
    + destruct (aborted w1).
      { exists []. split; [exact H1 | reflexivity]. }
      destruct (authRequested w1 resp) as [a|].
      * match goal with
        | |- context [doRequestTo _ _ ?u ?w'] => destruct (IH u w') as [more [Hm Hall]]
        end.
        rewrite Hm. cbn [fetches set_requestHeaders]. rewrite H1, <- app_assoc.
        eexists. split; [reflexivity|]. cbn. exact Hall.
      * destruct (trackCookies_frame resp w1) as (_ & _ & Tf & _).
        destruct (isRedirect resp).
        -- destruct (requestsDone (incr_requestsDone (trackCookies resp w1)) =? 21)%nat.
           ++ exists []. destruct (catchRequest_frame (redirectLoopError uri)
                                     (incr_requestsDone (trackCookies resp w1))) as [Hc _].
              rewrite Hc. cbn [fetches incr_requestsDone]. rewrite Tf.
              split; [exact H1 | reflexivity].
           ++ match goal with
              | |- context [doRequestTo _ _ ?u ?w'] =>
                  destruct (IH u w') as [more [Hm Hall]]
              end.
              rewrite Hm. cbn [fetches emit incr_requestsDone].
              rewrite Tf, H1, <- app_assoc.
              eexists. split; [reflexivity|]. cbn. exact Hall.
        -- exists []. destruct (complete_spec uri resp (trackCookies resp w1)) as (_ & Hf & _).
           rewrite Hf, Tf. split; [exact H1 | reflexivity].
    + exists []. destruct (catchRequest_frame (Reason reason) w1) as [Hc _].
      rewrite Hc. split; [exact H1 | reflexivity].
    + exists []. split; [exact H1 | reflexivity].
Qed.

Lemma get_set_same {V : Type} (o : Js.obj V) (k : string) (v : V) :
  Js.get (Js.set o k v) k = Some v.
Proof.
  induction o as [|[k' v'] o IH]; cbn.
  - now rewrite String.eqb_refl.
  - destruct (k' =? k) eqn:E; cbn; rewrite E; [reflexivity | exact IH].
Qed.

(** A 401 with a challenge, credentials configured and no [Authorization]
    property on the request headers: the request is repeated to the same
    URL with the header set. *)
Lemma doRequestTo_auth (options : Options) (resp : FetchResponse)
      (script : list Step) (uri : option string) (w : World) (a : Auth) :
  aborted w = false ->
  authRequested w resp = Some a ->
  doRequestTo options (answered resp :: script) uri w =
  doRequestTo options script uri
    (set_requestHeaders
       (Js.set (requestHeaders w) "Authorization" (authHeader a))
       (call_fetch (requestCall options uri w) w)).
Proof.
  intros Hab Hauth. rewrite doRequestTo_answered by assumption. cbv zeta.
  change (authRequested (call_fetch (requestCall options uri w) w) resp)
    with (authRequested w resp).
  now rewrite Hauth.
Qed.

(** *** The retry with authentication *)

(** C6. With credentials configured, a 401 response that carries
    [WWW-Authenticate], received while the request headers have no
    [Authorization] property, is answered with one more call to the same
    URL whose [Authorization] header is "Basic " followed by the base64
    encoding of "user:pass"; when the answer to that call is again a 401
    it is emitted as the final status and the transport is not called a
    third time. *)
Theorem auth_retry_once :
  forall (options : Options) (uri : option string) (w : World) (a : Auth)
         (r1 : FetchResponse) (rest : list Step),
    aborted w = false ->
    Flag.auth (flag (xhr w)) = Some a ->
    Js.get (requestHeaders w) "Authorization" = None ->
    resp_status r1 = 401%Z ->
    Headers.has (resp_headers r1) "www-authenticate" = true ->
    let credentials := "Basic " ++ Js.base64 (user a ++ ":" ++ pass a) in
    let retryHeaders := Js.set (requestHeaders w) "Authorization" credentials in
    let call1 := mkCall RequestCall uri (opt_method options)
                        (InitObject (requestHeaders w))
                        (opt_body options) (opt_agent options) in
    let call2 := mkCall RequestCall uri (opt_method options)
                        (InitObject retryHeaders)
                        (opt_body options) (opt_agent options) in
    Js.get retryHeaders "Authorization" = Some credentials /\
    (exists more,
        fetches (doRequestTo options (answered r1 :: rest) uri w) =
        (fetches w ++ call1 :: call2 :: more)%list) /\
    (forall (r2 : FetchResponse) (rest' : list Step),
        rest = answered r2 :: rest' ->
        resp_status r2 = 401%Z ->
        let w' := doRequestTo options (answered r1 :: rest) uri w in
        fetches w' = (fetches w ++ [call1; call2])%list /\
        events w' =
        (events w ++
         EmitResponse 401 (Headers.copyInto (resp_headers r2) (headers w))
         :: bodyEvents r2 false)%list).
Proof.
  intros options uri w a r1 rest Hab Hauth Hnone H401 Hwww
         credentials retryHeaders call1 call2.
  assert (Hreq : authRequested w r1 = Some a).
  { unfold authRequested. rewrite H401, Hauth, Hnone, Hwww. reflexivity. }
  split; [apply get_set_same|].
  rewrite doRequestTo_auth with (a := a) by assumption.
  set (w1 := set_requestHeaders _ _).
  split.
  - destruct (doRequestTo_fetches options rest uri w1) as [more [Hm _]].
    exists more. rewrite Hm. subst w1. cbn [fetches set_requestHeaders call_fetch].
    rewrite <- app_assoc. reflexivity.
  - intros r2 rest' Hrest H2 w'. subst w' rest.
    assert (Hab1 : aborted w1 = false) by exact Hab.
    assert (Hno : authRequested w1 r2 = None).
    { unfold authRequested. rewrite H2. cbn.
      change (Flag.auth (flag (xhr w1))) with (Flag.auth (flag (xhr w))).
      rewrite Hauth. subst w1. cbn [requestHeaders set_requestHeaders].
      unfold authHeader. now rewrite get_set_same. }
    assert (Hnr : isRedirect r2 = false).
    { unfold isRedirect. rewrite H2. reflexivity. }
    rewrite doRequestTo_final by assumption.
    match goal with
    | |- context [complete uri r2 ?w2] =>
        destruct (complete_spec uri r2 w2) as (He & Hf & _)
    end.
    rewrite He, Hf.
    destruct (trackCookies_frame r2 (call_fetch (requestCall options uri w1) w1))
      as (_ & Te & Tf & _ & _ & _ & Ta & _ & Thd).
    rewrite Te, Tf, Ta, Thd. subst w1.
    cbn [events fetches aborted headers call_fetch set_requestHeaders].
    rewrite Hab, H2, <- app_assoc. split; reflexivity.
Qed.

(** *** The preflight *)

Lemma dispatchError_frame (w : World) :
  fetches (snd (dispatchError w)) = fetches w /\
  setCookies (snd (dispatchError w)) = setCookies w /\
  exists fired,
    events (snd (dispatchError w)) = (events w ++ fired)%list /\
    Forall (fun e => e <> EmitAbort) fired.
Proof.
  unfold_steps. cbn.
  destruct (Flag.synchronous (flag (xhr w))); cbn.
  { repeat split. exists []. now rewrite app_nil_r. }
  destruct (Properties.uploadComplete (properties (xhr w))); cbn;
    [|destruct (Properties.uploadListener (properties (xhr w))); cbn];
    destruct (ownerDocument (xhr w)); cbn; repeat split;
    rewrite <- ?app_assoc; cbn;
    (eexists; split; [reflexivity|]); repeat constructor; discriminate.
Qed.

(** The preflight call as [createClient] issues it. *)
Lemma doPreflight_fetches (options : Options) (script : list Step) (uri : string)
      (w : World) :
  fetches (doPreflight options script uri w) =
  (fetches w ++
   [mkCall PreflightCall (Some uri) "OPTIONS"
           (InitArray (preflightRequestHeaders (flag (xhr w)) (requestHeaders w)))
           None (opt_agent options)])%list.
Proof.
  unfold doPreflight. cbv zeta.
  destruct script as [|s script]; [reflexivity|].
  destruct (outcome s) as [resp|reason|]; [|reflexivity|reflexivity].
  destruct ((resp_status resp <? 200) || (299 <? resp_status resp))%Z; [reflexivity|].
  rewrite validCORSPreflightHeaders_FetchHeaders.
  match goal with
  | |- context [dispatchError ?w1] =>
      destruct (dispatchError_frame w1) as (Hf & _);
      destruct (dispatchError w1) as [[[]|e] w2]
  end; cbn in Hf; cbn; rewrite Hf; reflexivity.
Qed.

Lemma crossOrigin_differs (f : Flag.t) :
  crossOrigin f = true <-> Flag.origin f <> url_origin (Flag.uri f).
Proof.
  unfold crossOrigin. rewrite negb_true_iff. apply String.eqb_neq.
Qed.

Lemma nonSimpleHeaders_exist (f : Flag.t) :
  (0 <? length (nonSimpleHeaders f))%nat = true <->
  exists header, In header (Js.keys (Flag.requestHeaders f)) /\
                 ~ In (Js.toLowerCase header) simpleHeaders.
Proof.
  unfold nonSimpleHeaders. rewrite Nat.ltb_lt. split.
  - intros Hlen.
    destruct (filter _ (Js.keys (Flag.requestHeaders f))) as [|h l] eqn:E;
      [cbn in Hlen; lia|].
    assert (Hin : In h (h :: l)) by (left; reflexivity).
    rewrite <- E in Hin. apply filter_In in Hin. destruct Hin as [Hin Hns].
    exists h. split; [assumption|].
    apply has_not_In. now apply negb_true_iff.
  - intros [h [Hin Hns]].
    assert (Hf : In h (filter
                  (fun header => negb (Js.has simpleHeaders (Js.toLowerCase header)))
                  (Js.keys (Flag.requestHeaders f)))).
    { apply filter_In. split; [assumption|].
      apply negb_true_iff. now apply has_not_In. }
    destruct (filter _ (Js.keys (Flag.requestHeaders f))); [contradiction|cbn; lia].
Qed.

Lemma needsPreflight_iff (x : Xhr) :
  needsPreflight x = true <->
  Flag.origin (flag x) <> url_origin (Flag.uri (flag x)) /\
  (~ In (Js.toUpperCase (Flag.method (flag x))) simpleMethods \/
   (exists header, In header (Js.keys (Flag.requestHeaders (flag x))) /\
                   ~ In (Js.toLowerCase header) simpleHeaders) \/
   Properties.uploadListener (properties x) = true).
Proof.
  unfold needsPreflight.
  rewrite andb_true_iff, !orb_true_iff, crossOrigin_differs,
    nonSimpleHeaders_exist, negb_true_iff, has_not_In.
  tauto.
Qed.

(** With a proxy configured, [createClient] throws on the way to the
    agent, for every URL that is neither file: nor data:; no client is
    returned and the transport is not called. *)
Lemma createClient_throws_with_proxy (env : Env) (x : Xhr) :
  (protocol (Flag.uri (flag x)) =? "file:") = false ->
  (protocol (Flag.uri (flag x)) =? "data:") = false ->
  Js.truthy (Flag.proxy (flag x)) = true ->
  createClient env x = Throw (ReferenceError "parse is not defined").
Proof.
  intros Hfile Hdata Hproxy. unfold createClient, makeAgent. cbv zeta.
  now rewrite Hfile, Hdata, Hproxy.
Qed.

(** Without a proxy, a URL that is neither file: nor data: gets a client
    whose operation is the exchange with the transport. *)
Lemma createClient_without_proxy (env : Env) (x : Xhr) :
  (protocol (Flag.uri (flag x)) =? "file:") = false ->
  (protocol (Flag.uri (flag x)) =? "data:") = false ->
  Js.truthy (Flag.proxy (flag x)) = false ->
  exists agent,
    makeAgent (flag x) = Ok agent /\
    createClient env x =
    Ok (mkClient (Some AbortSignal) [] []
          (NetRequest
             (if needsPreflight x
              then doPreflight (requestOptions (flag x) agent) (transport env)
                     (href (Flag.uri (flag x))) (initialWorld x)
              else doRequest (requestOptions (flag x) agent) (transport env)
                     (href (Flag.uri (flag x))) (initialWorld x)))).
Proof.
  intros Hfile Hdata Hproxy. unfold createClient, makeAgent. cbv zeta.
  rewrite Hfile, Hdata, Hproxy. eexists. split; reflexivity.
Qed.

(** For every http(s) request without a proxy the transport receives a
    preflight call exactly when the request is cross-origin and the
    upper-cased method is not GET, HEAD or POST, or some request header name
    lies, in lower case, outside accept, accept-language, content-language
    and content-type, or an upload listener is attached; when no preflight
    is issued, the first call of the transport is the real request, to the
    URL of the request and with its method. *)
Theorem preflight_iff_cross_origin_and_not_simple :
  forall (env : Env) (x : Xhr),
    protocol (Flag.uri (flag x)) = "http:" \/
    protocol (Flag.uri (flag x)) = "https:" ->
    Js.truthy (Flag.proxy (flag x)) = false ->
    exists c w agent,
      createClient env x = Ok c /\
      operation c = NetRequest w /\
      makeAgent (flag x) = Ok agent /\
      (existsb isPreflightCall (fetches w) = true <->
       Flag.origin (flag x) <> url_origin (Flag.uri (flag x)) /\
       (~ In (Js.toUpperCase (Flag.method (flag x))) ["GET"; "HEAD"; "POST"] \/
        (exists header,
            In header (Js.keys (Flag.requestHeaders (flag x))) /\
            ~ In (Js.toLowerCase header)
                 ["accept"; "accept-language"; "content-language"; "content-type"]) \/
        Properties.uploadListener (properties x) = true)) /\
      (existsb isPreflightCall (fetches w) = false ->
       exists more,
         fetches w =
         mkCall RequestCall (Some (href (Flag.uri (flag x))))
                (Flag.method (flag x)) (InitObject (initialRequestHeaders (flag x)))
                (opt_body (requestOptions (flag x) agent)) agent :: more).
Proof.
  intros env x Hproto Hproxy.
  assert (Hfile : (protocol (Flag.uri (flag x)) =? "file:") = false).
  { destruct Hproto as [H|H]; rewrite H; reflexivity. }
  assert (Hdata : (protocol (Flag.uri (flag x)) =? "data:") = false).
  { destruct Hproto as [H|H]; rewrite H; reflexivity. }
  destruct (createClient_without_proxy env x Hfile Hdata Hproxy)
    as (agent & Hagent & Hclient).
  rewrite Hclient. eexists. eexists. exists agent.
  split; [reflexivity|]. cbn [operation]. split; [reflexivity|].
  split; [exact Hagent|].
  change ["GET"; "HEAD"; "POST"] with simpleMethods.
  change ["accept"; "accept-language"; "content-language"; "content-type"]
    with simpleHeaders.
  rewrite <- needsPreflight_iff.
  destruct (needsPreflight x).
  - rewrite doPreflight_fetches. cbn. split; [tauto|discriminate].
  - unfold doRequest.
    destruct (doRequestTo_fetches (requestOptions (flag x) agent) (transport env)
                (Some (href (Flag.uri (flag x)))) (initialWorld x))
      as [more [Hm Hall]].
    rewrite Hm. cbn [fetches initialWorld app existsb isPreflightCall call_site
                     requestCall orb].
    assert (Hnone : existsb isPreflightCall more = false).
    { clear Hm. induction more as [|c more IH]; [reflexivity|].
      cbn in Hall |- *. apply andb_true_iff in Hall. destruct Hall as [Hc Hall].
      rewrite (IH Hall). unfold isRequestCall in Hc. unfold isPreflightCall.
      destruct (call_site c); [discriminate|reflexivity]. }
    rewrite Hnone. split; [split; discriminate|].
    intros _. exists more. reflexivity.
Qed.

(** C1. A cross-origin PUT with the header X-Token, sent with a proxy
    configured: the request is cross-origin and its method is not simple,
    so that the claim asks for a preflight call; [createClient] throws the
    ReferenceError of the undeclared [parse] instead, whatever the
    transport would answer, and neither a preflight nor the real request is
    issued. *)
Theorem proxied_request_is_not_preflighted :
  forall (env : Env),
    let x := viaProxy "http://proxy.example:3128" putRequest in
    protocol (Flag.uri (flag x)) = "http:" /\
    Flag.origin (flag x) <> url_origin (Flag.uri (flag x)) /\
    ~ In (Js.toUpperCase (Flag.method (flag x))) ["GET"; "HEAD"; "POST"] /\
    needsPreflight x = true /\
    createClient env x = Throw (ReferenceError "parse is not defined").
Proof.
  intros env. cbv zeta. split; [reflexivity|]. split; [cbn; discriminate|].
  split; [cbn; intros [H|[H|[H|[]]]]; discriminate|].
  split; [reflexivity|].
  now apply createClient_throws_with_proxy.
Qed.

(** C2. A cross-origin PUT with the header X-Token is preflighted; the
    preflight response has status 200, allows every origin and lists
    x-token, and no credentials are requested, so that every condition on
    the preflight response holds.  The header check nevertheless reports a
    forbidden origin, the operation ends with [error], and the real request
    is never sent. *)
Theorem preflight_rejects_allowing_response :
  let script := [answered allowingResponse; answered (okResponse [] (Fulfilled "ok"))] in
  exists c w,
    createClient (sampleEnv (Throw (Error "")) script) putRequest = Ok c /\
    operation c = NetRequest w /\
    (200 <= resp_status allowingResponse <= 299)%Z /\
    Headers.get (resp_headers allowingResponse) "access-control-allow-origin"
    = Some "*" /\
    Flag.withCredentials (flag putRequest) = false /\
    forbiddenHeaders
      (allowedHeaders
         (Headers.get (resp_headers allowingResponse) "access-control-allow-headers"))
      (Flag.requestHeaders (flag putRequest)) = [] /\
    existsb isPreflightCall (fetches w) = true /\
    existsb isRequestCall (fetches w) = false /\
    Properties.error (properties (xhr w)) = "Cross origin http://app.example forbidden" /\
    exists before, events w = (before ++ [EmitError (Error "TODO")])%list.
Proof.
  cbv zeta. eexists. eexists. split; [reflexivity|]. split; [reflexivity|].
  split; [cbn; lia|].
  repeat (split; [reflexivity|]).
  eexists. vm_compute.
  match goal with
  | |- ?l = _ => let n := eval vm_compute in (length l - 1)%nat in
                 instantiate (1 := firstn n l)
  end.
  reflexivity.
Qed.

(** The preflight path never sends the real request: whatever the
    transport answers, the preflight call stays the only call. *)
Lemma preflight_never_followed_by_request (env : Env) (x : Xhr) :
  (protocol (Flag.uri (flag x)) =? "file:") = false ->
  (protocol (Flag.uri (flag x)) =? "data:") = false ->
  Js.truthy (Flag.proxy (flag x)) = false ->
  needsPreflight x = true ->
  exists c w, createClient env x = Ok c /\
              operation c = NetRequest w /\
              existsb isRequestCall (fetches w) = false.
Proof.
  intros Hfile Hdata Hproxy Hneeds.
  destruct (createClient_without_proxy env x Hfile Hdata Hproxy)
    as (agent & _ & Hclient).
  rewrite Hclient, Hneeds. eexists. eexists. split; [reflexivity|].
  split; [reflexivity|].
  rewrite doPreflight_fetches. reflexivity.
Qed.

(** *** Abort *)

(** An [abort()] while a request of the loop is outstanding, after any
    number of redirects below the limit: the operation emits [abort] once
    and no [error], whether the transport then rejects or answers. *)
Lemma abort_during_request (options : Options) (uri : option string) (w : World)
      (rs : list FetchResponse) (s : Step) (rest : list Step) :
  aborted w = false ->
  Forall (fun r => isRedirect r = true) rs ->
  (requestsDone w + length rs <= 20)%nat ->
  abortCalled s = true ->
  outcome s <> Pending ->
  events (doRequestTo options (map answered rs ++ s :: rest) uri w) =
  (events w ++ repeat EmitRedirect (length rs) ++ [EmitAbort])%list.
Proof.
  intros Hab Hall Hn Hcalled Hout.
  destruct (@redirect_hops options (s :: rest) rs uri w Hab Hall Hn)
    as [w1 [Heq Hops]].
  rewrite Heq. destruct Hops as (_ & Ke & _).
  cbn [doRequestTo]. cbv zeta. rewrite Hcalled.
  assert (Ha : aborted (signal_abort true
                 (call_fetch (requestCall options (finalUri uri rs) w1) w1)) = true).
  { cbn. apply orb_true_r. }
  destruct (outcome s) as [resp|reason|]; [| |contradiction].
  - rewrite Ha. cbn [events emit signal_abort call_fetch].
    rewrite Ke, <- app_assoc. reflexivity.
  - unfold catchRequest. rewrite Ha. cbn [events emit signal_abort call_fetch].
    rewrite Ke, <- app_assoc. reflexivity.
Qed.

(** C4. [abort()] is called while the preflight call of a cross-origin PUT
    is outstanding and the transport rejects the call: the operation emits
    [error] with the reason of the rejection and never emits [abort]. *)
Theorem abort_during_preflight_reports_error :
  let script := [mkStep true (Rejected "AbortError")] in
  exists c w,
    createClient (sampleEnv (Throw (Error "")) script) putRequest = Ok c /\
    operation c = NetRequest w /\
    aborted w = true /\
    events w = [EmitError (Reason "AbortError")] /\
    ~ In EmitAbort (events w).
Proof.
  cbv zeta. eexists. eexists. split; [reflexivity|]. split; [reflexivity|].
  split; [reflexivity|]. split; [reflexivity|].
  intros [H|[]]. discriminate.
Qed.

(** *** The trace

    The three logs of a state hold what its trace holds, each in the order
    of the trace. *)

Lemma traced_emit (e : Event) (w : World) : traced w -> traced (emit e w).
Proof.
  intros (He & Hf & Hs). unfold traced, emittedIn, fetchedIn, cookiesSetIn.
  cbn [events fetches setCookies trace emit]. rewrite !flat_map_app. cbn.
  rewrite !app_nil_r. fold (emittedIn (trace w)). rewrite <- He. repeat split; assumption.
Qed.

Lemma traced_call_fetch (c : FetchCall) (w : World) :
  traced w -> traced (call_fetch c w).
Proof.
  intros (He & Hf & Hs). unfold traced, emittedIn, fetchedIn, cookiesSetIn.
  cbn [events fetches setCookies trace call_fetch]. rewrite !flat_map_app. cbn.
  rewrite !app_nil_r. fold (fetchedIn (trace w)). rewrite <- Hf. repeat split; assumption.
Qed.

Lemma traced_call_setCookie (value : string) (uri : option string) (w : World) :
  traced w -> traced (call_setCookie value uri w).
Proof.
  intros (He & Hf & Hs). unfold traced, emittedIn, fetchedIn, cookiesSetIn.
  cbn [events fetches setCookies trace call_setCookie]. rewrite !flat_map_app. cbn.
  rewrite !app_nil_r. fold (cookiesSetIn (trace w)). rewrite <- Hs.
  repeat split; assumption.
Qed.

(** A step that leaves the logs and the trace alone. *)
Lemma traced_frame (w w' : World) :
  events w' = events w -> fetches w' = fetches w ->
  setCookies w' = setCookies w -> trace w' = trace w ->
  traced w -> traced w'.
Proof.
  intros He Hf Hs Ht (A & B & C). unfold traced. rewrite He, Hf, Hs, Ht.
  repeat split; assumption.
Qed.

Lemma traced_catchRequest (err : Exn) (w : World) :
  traced w -> traced (catchRequest err w).
Proof. intros H. unfold catchRequest. destruct (aborted w); now apply traced_emit. Qed.

Lemma traced_trackCookies (resp : FetchResponse) (w : World) :
  traced w -> traced (trackCookies resp w).
Proof.
  intros H. unfold trackCookies.
  destruct (Headers.raw (resp_headers resp) "set-cookie"); exact H.
Qed.

Lemma traced_setCookie_all (uri : option string) :
  forall (gathered : list (list string)) (w : World),
    traced w ->
    traced (fold_left
              (fun w values =>
                 fold_left (fun w value => call_setCookie value uri w) values w)
              gathered w).
Proof.
  intros gathered. induction gathered as [|values gathered IH]; intros w H;
    cbn [fold_left]; [exact H|].
  apply IH. clear IH. revert w H.
  induction values as [|v values IHv]; intros w H; cbn [fold_left]; [exact H|].
  apply IHv. now apply traced_call_setCookie.
Qed.

Lemma traced_appendCookies (uri : option string) (w : World) :
  traced w -> traced (appendCookies uri w).
Proof.
  intros H. unfold appendCookies. destruct (gatheredCookies w) as [|values gathered];
    [exact H|].
  apply traced_setCookie_all. exact H.
Qed.

Lemma traced_complete (uri : option string) (resp : FetchResponse) (w : World) :
  traced w -> traced (complete uri resp w).
Proof.
  intros H. unfold complete. cbv zeta. unfold readBody.
  apply traced_appendCookies with (uri := uri) in H.
  match goal with
  | |- context [signal_abort ?b ?w0] => assert (H0 : traced (signal_abort b w0))
  end.
  { apply traced_emit with (e := EmitResponse (resp_status resp)
                                   (Headers.copyInto (resp_headers resp)
                                      (headers (appendCookies uri w)))) in H.
    exact H. }
  destruct (resp_buffer resp) as [buffer|reason|].
  - do 4 apply traced_emit. exact H0.
  - apply traced_catchRequest. exact H0.
  - exact H0.
Qed.

Lemma traced_doRequestTo (options : Options) :
  forall (script : list Step) (uri : option string) (w : World),
    traced w -> traced (doRequestTo options script uri w).
Proof.
  intros script.
  induction script as [|s script IH]; intros uri w H; cbn [doRequestTo]; cbv zeta.
  - now apply traced_call_fetch.
  - set (w1 := signal_abort (abortCalled s) (call_fetch (requestCall options uri w) w)).
    assert (H1 : traced w1).
    { subst w1. apply traced_call_fetch with (c := requestCall options uri w) in H.
      exact H. }
    clearbody w1.
    destruct (outcome s) as [resp|reason|].
    + destruct (aborted w1); [now apply traced_emit|].
      destruct (authRequested w1 resp) as [a|].
      * apply IH. exact H1.
      * apply traced_trackCookies with (resp := resp) in H1.
        destruct (isRedirect resp).
        -- destruct (requestsDone (incr_requestsDone (trackCookies resp w1)) =? 21)%nat.
           ++ apply traced_catchRequest. exact H1.
           ++ apply IH. apply traced_emit. exact H1.
        -- now apply traced_complete.
    + now apply traced_catchRequest.
    + exact H1.
Qed.

Lemma traced_with_xhr (g : Xhr -> Xhr) (w : World) :
  traced w -> traced (with_xhr g w).
Proof. intros H. exact H. Qed.

Lemma traced_dispatchError (w : World) :
  traced w -> traced (snd (dispatchError w)).
Proof.
  intros H. unfold_steps. cbn.
  destruct (Flag.synchronous (flag (xhr w))); cbn; [exact H|].
  destruct (Properties.uploadComplete (properties (xhr w))); cbn;
    [|destruct (Properties.uploadListener (properties (xhr w))); cbn];
    destruct (ownerDocument (xhr w)); cbn;
    repeat match goal with
           | |- traced (emit _ _) => apply traced_emit
           | |- traced (with_xhr _ _) => apply traced_with_xhr
           end; exact H.
Qed.

Lemma traced_doPreflight (options : Options) (script : list Step) (uri : string)
      (w : World) :
  traced w -> traced (doPreflight options script uri w).
Proof.
  intros H. unfold doPreflight. cbv zeta.
  match goal with
  | |- context [call_fetch ?c ?w0] =>
      assert (H1 : traced (call_fetch c w0)) by (apply traced_call_fetch; exact H)
  end.
  destruct script as [|s script]; [exact H1|].
  match goal with
  | |- context [signal_abort ?b ?w0] =>
      assert (H2 : traced (signal_abort b w0)) by exact H1;
      generalize dependent (signal_abort b w0)
  end.
  intros w2 H2.
  assert (Hcatch : forall err w', traced w' -> traced (catchPreflight err w')).
  { intros err w' H'. unfold catchPreflight. cbn. now apply traced_emit. }
  destruct (outcome s) as [resp|reason|]; [|now apply Hcatch|exact H2].
  destruct ((resp_status resp <? 200) || (299 <? resp_status resp))%Z;
    [now apply Hcatch|].
  rewrite validCORSPreflightHeaders_FetchHeaders.
  assert (H3 : traced (snd (dispatchError (crossOriginForbidden w2))))
    by (apply traced_dispatchError; exact H2).
  destruct (dispatchError (crossOriginForbidden w2)) as [[[]|e] w3]; cbn [snd] in H3;
    apply Hcatch; exact H3.
Qed.

(** The logs of a client that exchanges with the transport hold what its
    trace holds. *)
Lemma createClient_traced (env : Env) (x : Xhr) (c : Client) (w : World) :
  createClient env x = Ok c ->
  operation c = NetRequest w ->
  traced w.
Proof.
  unfold createClient. cbv zeta. intros Hclient Hop.
  destruct (protocol (Flag.uri (flag x)) =? "file:").
  { injection Hclient as <-. discriminate. }
  destruct (protocol (Flag.uri (flag x)) =? "data:").
  { destruct (parseDataURL env) as [[contentType buffer]|err];
      injection Hclient as <-; discriminate. }
  destruct (makeAgent (flag x)) as [agent|err]; [|discriminate].
  injection Hclient as <-. cbn [operation] in Hop. injection Hop as <-.
  assert (H0 : traced (initialWorld x)) by (repeat split).
  destruct (needsPreflight x).
  - now apply traced_doPreflight.
  - unfold doRequest. now apply traced_doRequestTo.
Qed.

(** *** Cookies *)

(** C5, as stated, fails: a same-origin GET is answered with status 200 and
    a [Set-Cookie] header, and the body then fails to arrive.  The operation
    ends in [error], and the cookie was written to the store: the write
    comes after the call of the transport and before [response], the error
    after both. *)
Lemma error_after_cookie_commit :
  let script := [answered (okResponse [("set-cookie", ["sid=1"])]
                                      (Rejected "ECONNRESET"))] in
  exists c w call,
    createClient (sampleEnv (Throw (Error "")) script) getRequest = Ok c /\
    operation c = NetRequest w /\
    trace w = [Fetches call;
               SetsCookie "sid=1" (Some "http://app.example/page");
               Emits (EmitResponse 200 [("set-cookie", "sid=1")]);
               Emits (EmitError (Reason "ECONNRESET"))] /\
    ~ (endsInAbortOrError w -> setCookies w = []).
Proof.
  cbv zeta. eexists. eexists. eexists. split; [reflexivity|].
  split; [reflexivity|]. split; [reflexivity|].
  intros H.
  assert (Hend : endsInAbortOrError
                   (doRequest sampleOptions
                      (transport (sampleEnv (Throw (Error ""))
                         [answered (okResponse [("set-cookie", ["sid=1"])]
                                               (Rejected "ECONNRESET"))]))
                      (href (Flag.uri (flag getRequest))) (initialWorld getRequest))).
  { exists [EmitResponse 200 [("set-cookie", "sid=1")]], (EmitError (Reason "ECONNRESET")).
    split; [reflexivity|]. right. eexists. reflexivity. }
  specialize (H Hend). vm_compute in H. discriminate.
Qed.

Lemma catchRequest_events (err : Exn) (w : World) :
  events (catchRequest err w) =
  (events w ++ [if aborted w then EmitAbort else EmitError err])%list.
Proof. unfold catchRequest. destruct (aborted w); reflexivity. Qed.

(** Whatever the transport answers, the request loop either emits no
    [response] and leaves the cookie store alone, or emits [response] and
    has called [setCookie] once for each gathered value, in the order
    gathered, against the URL of its last call of the transport. *)
Lemma store_written_with_response (options : Options) :
  forall (script : list Step) (uri : option string) (w : World),
    let w' := doRequestTo options script uri w in
    exists evs,
      events w' = (events w ++ evs)%list /\
      (((forall code h, ~ In (EmitResponse code h) evs) /\
        setCookies w' = setCookies w) \/
       (exists code h calls last,
           In (EmitResponse code h) evs /\
           fetches w' = (calls ++ [last])%list /\
           setCookies w' =
           (setCookies w ++
            map (fun value => (value, call_url last)) (concat (gatheredCookies w')))%list)).
Proof.
  intros script.
  induction script as [|s script IH]; intros uri w; cbn [doRequestTo]; cbv zeta.
  - exists []. rewrite app_nil_r. split; [reflexivity|]. left. split; [|reflexivity].
    intros code h [].
  - set (w1 := signal_abort (abortCalled s) (call_fetch (requestCall options uri w) w)).
    assert (E1 : events w1 = events w) by reflexivity.
    assert (S1 : setCookies w1 = setCookies w) by reflexivity.
    assert (F1 : fetches w1 = (fetches w ++ [requestCall options uri w])%list)
      by reflexivity.
    destruct (outcome s) as [resp|reason|].
    + destruct (aborted w1).
      { exists [EmitAbort]. split; [reflexivity|]. left. split; [|reflexivity].
        intros code h [H|[]]. discriminate. }
      destruct (authRequested w1 resp) as [a|].
      * match goal with
        | |- context [doRequestTo _ _ ?u ?w2] =>
            destruct (IH u w2) as [evs [He Hcases]]
        end.
        cbv zeta in He, Hcases. exists evs. split; [exact He|exact Hcases].
      * destruct (trackCookies_frame resp w1)
          as (_ & Te & Tf & Ts & _ & _ & Ta & _).
        destruct (isRedirect resp).
        -- destruct (requestsDone (incr_requestsDone (trackCookies resp w1)) =? 21)%nat.
           ++ eexists. rewrite catchRequest_events.
              destruct (catchRequest_frame (redirectLoopError uri)
                          (incr_requestsDone (trackCookies resp w1))) as [_ Hs].
              rewrite Hs. cbn [events setCookies aborted incr_requestsDone].
              rewrite Te, Ts, Ta. split; [reflexivity|]. left. split; [|reflexivity].
              intros code h [H|[]]. destruct (aborted w1); discriminate.
           ++ match goal with
              | |- context [doRequestTo _ _ ?u ?w2] =>
                  destruct (IH u w2) as [evs [He Hcases]]
              end.
              cbv zeta in He, Hcases.
              cbn [events setCookies emit incr_requestsDone] in He, Hcases.
              rewrite Te, E1, <- app_assoc in He. rewrite Ts, S1 in Hcases.
              exists (EmitRedirect :: evs). split; [exact He|].
              destruct Hcases as [[Hno Hs]|(code & h & calls & last & Hin & Hf & Hs)].
              ** left. split; [|exact Hs].
                 intros code h [H|H]; [discriminate|exact (Hno code h H)].
              ** right. exists code, h, calls, last.
                 split; [now right|]. split; assumption.
        -- destruct (complete_spec uri resp (trackCookies resp w1)) as (He & Hf & Hs & Hg).
           eexists. rewrite He, Te. split; [reflexivity|].
           right. do 4 eexists. split; [left; reflexivity|].
           rewrite Hf, Tf, F1, Hs, Hg, Ts. split; reflexivity.
    + eexists. rewrite catchRequest_events.
      destruct (catchRequest_frame (Reason reason) w1) as [_ Hs]. rewrite Hs.
      split; [reflexivity|]. left. split; [|reflexivity].
      intros code h [H|[]]. destruct (aborted w1); discriminate.
    + exists []. rewrite app_nil_r. split; [reflexivity|]. left.
      split; [|reflexivity]. intros code h [].
Qed.

Lemma observedCookies_app (rs1 rs2 : list FetchResponse) :
  observedCookies (rs1 ++ rs2) = (observedCookies rs1 ++ observedCookies rs2)%list.
Proof. unfold observedCookies. apply flat_map_app. Qed.

(** The trace of the request loop, whatever the transport answers: calls
    of the transport and [redirect], and then either nothing, [abort] or
    [error], with the cookie store left alone, or the cookie writes for
    every gathered value against the URL of the last call, [response], and
    what the body brings. *)
Lemma request_loop_trace (options : Options) :
  forall (script : list Step) (uri : option string) (w : World),
    let w' := doRequestTo options script uri w in
    exists hops tail,
      trace w' = (trace w ++ hops ++ tail)%list /\
      forallb isHopEffect hops = true /\
      ((endsWithoutResponse tail /\ setCookies w' = setCookies w) \/
       (exists code h last resp b,
           tail = (cookieWrites (call_url last) (gatheredCookies w')
                   ++ Emits (EmitResponse code h)
                      :: map Emits (bodyEvents resp b))%list /\
           exists calls, fetches w' = (calls ++ [last])%list)).
Proof.
  intros script.
  induction script as [|s script IH]; intros uri w; cbn [doRequestTo]; cbv zeta.
  - exists [Fetches (requestCall options uri w)], [].
    split; [reflexivity|]. split; [reflexivity|]. left. split; [now left|reflexivity].
  - set (w1 := signal_abort (abortCalled s) (call_fetch (requestCall options uri w) w)).
    assert (T1 : trace w1 = (trace w ++ [Fetches (requestCall options uri w)])%list)
      by reflexivity.
    assert (S1 : setCookies w1 = setCookies w) by reflexivity.
    assert (F1 : fetches w1 = (fetches w ++ [requestCall options uri w])%list)
      by reflexivity.
    destruct (outcome s) as [resp|reason|].
    + destruct (aborted w1) eqn:Hab1.
      { exists [Fetches (requestCall options uri w)], [Emits EmitAbort].
        cbn [trace emit]. rewrite T1, <- app_assoc.
        split; [reflexivity|]. split; [reflexivity|]. left.
        split; [right; now left|exact S1]. }
      destruct (authRequested w1 resp) as [a|].
      * match goal with
        | |- context [doRequestTo _ _ ?u ?w2] =>
            destruct (IH u w2) as (hops & tail & Ht & Hh & Hcases)
        end.
        cbv zeta in Ht, Hcases. cbn [trace setCookies set_requestHeaders] in Ht, Hcases.
        rewrite T1, <- app_assoc in Ht. rewrite S1 in Hcases.
        exists (Fetches (requestCall options uri w) :: hops), tail.
        split; [exact Ht|]. split; [exact Hh|exact Hcases].
      * destruct (trackCookies_frame resp w1)
          as (_ & _ & Tf & Ts & _ & _ & Ta & _ & Thd).
        pose proof (trackCookies_trace resp w1) as Tt.
        destruct (isRedirect resp).
        -- destruct (requestsDone (incr_requestsDone (trackCookies resp w1)) =? 21)%nat.
           ++ exists [Fetches (requestCall options uri w)]. eexists.
              rewrite catchRequest_trace.
              destruct (catchRequest_frame (redirectLoopError uri)
                          (incr_requestsDone (trackCookies resp w1))) as [_ Hs].
              rewrite Hs. cbn [trace setCookies aborted incr_requestsDone].
              rewrite Tt, Ts, Ta, T1, Hab1, <- app_assoc.
              split; [reflexivity|]. split; [reflexivity|]. left.
              split; [|exact S1]. right; right. eexists. reflexivity.
           ++ match goal with
              | |- context [doRequestTo _ _ ?u ?w2] =>
                  destruct (IH u w2) as (hops & tail & Ht & Hh & Hcases)
              end.
              cbv zeta in Ht, Hcases.
              cbn [trace setCookies emit incr_requestsDone] in Ht, Hcases.
              rewrite Tt, T1, <- !app_assoc in Ht. rewrite Ts, S1 in Hcases.
              exists (Fetches (requestCall options uri w) :: Emits EmitRedirect :: hops),
                     tail.
              split; [exact Ht|]. split; [exact Hh|exact Hcases].
        -- destruct (complete_spec uri resp (trackCookies resp w1)) as (_ & Hf & _ & Hg).
           exists [Fetches (requestCall options uri w)]. eexists.
           rewrite complete_trace, Tt, T1, <- app_assoc.
           split; [reflexivity|]. split; [reflexivity|]. right.
           exists (resp_status resp),
                  (Headers.copyInto (resp_headers resp) (headers (trackCookies resp w1))),
                  (requestCall options uri w), resp, (aborted (trackCookies resp w1)).
           rewrite Hg, Hf, Tf, F1. split; [reflexivity|].
           eexists. reflexivity.
    + exists [Fetches (requestCall options uri w)]. eexists.
      rewrite catchRequest_trace.
      destruct (catchRequest_frame (Reason reason) w1) as [_ Hs]. rewrite Hs.
      rewrite T1, <- app_assoc. split; [reflexivity|]. split; [reflexivity|].
      left. split; [|exact S1].
      destruct (aborted w1); [right; now left | right; right; eexists; reflexivity].
    + exists [Fetches (requestCall options uri w)], [].
      split; [exact T1|]. split; [reflexivity|]. left. split; [now left|exact S1].
Qed.

(** C5, amended.  Along a chain of redirects that ends with a response that
    is no redirect, the [Set-Cookie] values of every response are appended
    to the gathered cookies, and [setCookie] is called once for each
    gathered value, in order, against the URL of the final request: the
    calls come after every call of the transport and every [redirect],
    and before [response]; what the body brings, an [abort] or [error]
    while it is read included, comes after them.  Whatever the transport
    answers, [setCookie] is called only in an operation that emits
    [response], that is, once the final response is received: an operation
    that ends before, in abort, in error or otherwise, never writes to the
    cookie store. *)
Theorem cookies_committed_with_final_response :
  forall (options : Options) (uri : option string) (w : World),
    (forall (rs : list FetchResponse) (final : FetchResponse) (rest : list Step),
        aborted w = false ->
        (requestsDone w + length rs <= 20)%nat ->
        Forall (fun r => (300 <= resp_status r < 400)%Z) rs ->
        ~ (300 <= resp_status final < 400)%Z ->
        authRequested w final = None ->
        let w' := doRequestTo options (map answered rs ++ answered final :: rest) uri w in
        gatheredCookies w' =
        (gatheredCookies w ++ observedCookies (rs ++ [final]))%list /\
        setCookies w' =
        (setCookies w ++
         map (fun value => (value, finalUri uri rs)) (concat (gatheredCookies w')))%list /\
        exists hops,
          forallb isHopEffect hops = true /\
          trace w' =
          (trace w ++ hops ++
           cookieWrites (finalUri uri rs) (gatheredCookies w') ++
           Emits (EmitResponse (resp_status final)
                               (Headers.copyInto (resp_headers final) (headers w)))
           :: map Emits (bodyEvents final false))%list) /\
    (forall (script : list Step),
        let w' := doRequestTo options script uri w in
        (exists evs,
            events w' = (events w ++ evs)%list /\
            (((forall code h, ~ In (EmitResponse code h) evs) /\
              setCookies w' = setCookies w) \/
             (exists code h calls last,
                 In (EmitResponse code h) evs /\
                 fetches w' = (calls ++ [last])%list /\
                 setCookies w' =
                 (setCookies w ++
                  map (fun value => (value, call_url last))
                      (concat (gatheredCookies w')))%list))) /\
        (exists hops tail,
            trace w' = (trace w ++ hops ++ tail)%list /\
            forallb isHopEffect hops = true /\
            ((endsWithoutResponse tail /\ setCookies w' = setCookies w) \/
             (exists code h last resp b,
                 tail = (cookieWrites (call_url last) (gatheredCookies w')
                         ++ Emits (EmitResponse code h)
                            :: map Emits (bodyEvents resp b))%list /\
                 exists calls, fetches w' = (calls ++ [last])%list)))).
Proof.
  intros options uri w. split.
  - intros rs final rest Hab Hn Hall Hfinal Hauth w'.
    assert (Hred : Forall (fun r => isRedirect r = true) rs).
    { eapply Forall_impl; [|exact Hall]. intros r Hr. now apply isRedirect_bounds. }
    destruct (@redirect_hops_traced options (answered final :: rest) rs uri w
                Hab Hred Hn)
      as (w1 & hops & Heq & Hops & Ht & Hhops).
    subst w'. rewrite Heq. clear Heq.
    destruct Hops as (Kx & Ke & Kf & Ks & Kh & Kg & Kd & Ka & Kc & Khd).
    assert (Hnr : isRedirect final = false).
    { destruct (isRedirect final) eqn:E; [|reflexivity].
      apply isRedirect_bounds in E. contradiction. }
    rewrite doRequestTo_final.
    + set (call := requestCall options (finalUri uri rs) w1).
      destruct (complete_spec (finalUri uri rs) final
                  (trackCookies final (call_fetch call w1))) as (_ & _ & Hs & Hg).
      destruct (trackCookies_frame final (call_fetch call w1))
        as (_ & _ & _ & Ts & _ & _ & Ta & _ & Thd).
      rewrite complete_trace, Hs, Hg, trackCookies_gathered, trackCookies_trace, Ts, Ta, Thd.
      cbn [gatheredCookies setCookies aborted headers trace call_fetch].
      rewrite Kg, Ks, Ka, Khd, Hab, Ht, observedCookies_app, app_assoc.
      split; [reflexivity|]. split; [reflexivity|].
      exists (hops ++ [Fetches call])%list. split.
      * rewrite forallb_app, Hhops. reflexivity.
      * rewrite <- !app_assoc. reflexivity.
    + congruence.
    + assumption.
    + rewrite <- Hauth. apply authRequested_frame; [now rewrite Kx | assumption].
  - intros script. split.
    + apply store_written_with_response.
    + apply request_loop_trace.
Qed.

(** *** The headers of the preflight *)

Lemma get_set_other {V : Type} (o : Js.obj V) (k k' : string) (v : V) :
  k' <> k -> Js.get (Js.set o k' v) k = Js.get o k.
Proof.
  intros Hne. induction o as [|[k0 v0] o IH]; cbn.
  - destruct (String.eqb_spec k' k); [contradiction|reflexivity].
  - destruct (String.eqb_spec k0 k') as [E|E]; cbn.
    + subst k0. destruct (String.eqb_spec k' k); [contradiction|reflexivity].
    + destruct (k0 =? k); [reflexivity|exact IH].
Qed.


Lemma get_In_keys {V : Type} (o : Js.obj V) (k : string) :
  In k (Js.keys o) <-> exists v, Js.get o k = Some v.
Proof.
  unfold Js.keys. induction o as [|[k0 v0] o IH]; cbn.
  - split; [intros [] | intros [v H]; discriminate].
  - destruct (String.eqb_spec k0 k) as [E|E].
    + split; [intros _; now exists v0 | intros _; now left].
    + rewrite IH. split; [intros [H|H]; [contradiction|exact H] | intros H; now right].
Qed.





(** The calls of the request loop come from its own call site. *)
Lemma doRequestTo_calls_are_requests (options : Options) (script : list Step)
      (uri : option string) (w : World) (call : FetchCall) :
  fetches w = [] ->
  In call (fetches (doRequestTo options script uri w)) ->
  call_site call = RequestCall.
Proof.
  intros Hnil Hin.
  destruct (doRequestTo_fetches options script uri w) as [more [Hm Hall]].
  rewrite Hm, Hnil in Hin. cbn [app] in Hin. destruct Hin as [E|Hin].
  - now subst call.
  - rewrite forallb_forall in Hall. specialize (Hall call Hin).
    unfold isRequestCall in Hall. destruct (call_site call); [discriminate|reflexivity].
Qed.

(** A preflight call in the log of a client: it is the first call, made
    for a request that needs a preflight, with the array
    [preflightRequestHeaders] as its headers. *)
Lemma preflight_call_inv (env : Env) (x : Xhr) (c : Client) (w : World)
      (call : FetchCall) :
  createClient env x = Ok c ->
  operation c = NetRequest w ->
  In call (fetches w) ->
  call_site call = PreflightCall ->
  exists agent,
    call = mkCall PreflightCall (Some (href (Flag.uri (flag x)))) "OPTIONS"
                  (InitArray (preflightRequestHeaders
                                (flag x) (initialRequestHeaders (flag x))))
                  None agent.
Proof.
  unfold createClient. cbv zeta. intros Hclient Hop Hin Hsite.
  destruct (protocol (Flag.uri (flag x)) =? "file:").
  { injection Hclient as <-. discriminate. }
  destruct (protocol (Flag.uri (flag x)) =? "data:").
  { destruct (parseDataURL env) as [[contentType buffer]|err];
      injection Hclient as <-; discriminate. }
  destruct (makeAgent (flag x)) as [agent|err]; [|discriminate].
  injection Hclient as <-. cbn [operation] in Hop. injection Hop as <-.
  destruct (needsPreflight x).
  - rewrite doPreflight_fetches in Hin.
    cbn [fetches initialWorld app xhr requestHeaders flag opt_agent requestOptions] in Hin.
    destruct Hin as [E|[]]. exists agent. now subst call.
  - unfold doRequest in Hin.
    apply doRequestTo_calls_are_requests in Hin; [congruence|reflexivity].
Qed.


(** The transport reads no header from the headers value of a preflight
    call: the value is an array, read as the sequence of its elements, and
    it has none. *)
Theorem preflight_headers_not_read :
  forall (env : Env) (x : Xhr) (c : Client) (w : World) (call : FetchCall),
    createClient env x = Ok c ->
    operation c = NetRequest w ->
    In call (fetches w) ->
    call_site call = PreflightCall ->
    headerPairs (call_headers call) = [] /\
    forall name, Js.get (headerPairs (call_headers call)) name = None.
Proof.
  intros env x c w call Hclient Hop Hin Hsite.
  destruct (@preflight_call_inv env x c w call Hclient Hop Hin Hsite)
    as [agent Hcall].
  subst call. split; [reflexivity|]. intros name. reflexivity.
Qed.

(** *** Schemes *)

Lemma other_protocol (p : string) :
  ~ In p ["file:"; "data:"; "http:"; "https:"] ->
  (p =? "file:") = false /\ (p =? "data:") = false.
Proof.
  intros H. split; apply String.eqb_neq; intros E; apply H; subst; cbn; tauto.
Qed.

(** C8. A GET of an ftp: URL with a proxy configured: the scheme is none
    of the four, and [createClient] ends with the ReferenceError of the
    undeclared [parse], which is no error about the scheme, whatever the
    transport would answer. *)
Theorem unsupported_scheme_with_proxy :
  forall (env : Env),
    let x := viaProxy "http://proxy.example:3128" (sampleXhr ftpURL "GET" []) in
    ~ In (protocol (Flag.uri (flag x))) ["file:"; "data:"; "http:"; "https:"] /\
    createClient env x = Throw (ReferenceError "parse is not defined").
Proof.
  intros env. cbv zeta. split.
  - cbn. intros [H|[H|[H|[H|[]]]]]; discriminate.
  - now apply createClient_throws_with_proxy.
Qed.

(** [ResourceLoader.fetch] rejects a URL whose scheme is none of file,
    data, http and https at once, with the invalid-scheme error, and starts
    no operation.  [createClient] has no check of the scheme: without a
    proxy, a URL whose scheme is none of the four is handed to the
    transport, and when the transport rejects that call the client emits
    [error] with the reason of the transport, after that one call. *)
Theorem unsupported_scheme_dispatch :
  forall (urlString : string) (url : ResourceLoader.URLRecord)
         (env : Env) (x : Xhr),
    ~ In (ResourceLoader.scheme url) ["file"; "data"; "http"; "https"] ->
    ~ In (protocol (Flag.uri (flag x))) ["file:"; "data:"; "http:"; "https:"] ->
    Js.truthy (Flag.proxy (flag x)) = false ->
    ResourceLoader.fetch urlString (Some url) =
    Throw (Error ("Tried to fetch URL " ++ urlString ++ " with invalid scheme "
                  ++ ResourceLoader.scheme url)) /\
    exists c w,
      createClient env x = Ok c /\
      operation c = NetRequest w /\
      (exists call more,
          fetches w = call :: more /\
          call_url call = Some (href (Flag.uri (flag x)))) /\
      (forall reason rest,
          transport env = mkStep false (Rejected reason) :: rest ->
          length (fetches w) = 1%nat /\
          events w = [EmitError (Reason reason)]).
Proof.
  intros urlString url env x Hscheme Hproto Hproxy. split.
  - unfold ResourceLoader.fetch.
    assert (H1 : (ResourceLoader.scheme url =? "data") = false)
      by (apply String.eqb_neq; intros E; apply Hscheme; rewrite E; cbn; tauto).
    assert (H2 : (ResourceLoader.scheme url =? "http") = false)
      by (apply String.eqb_neq; intros E; apply Hscheme; rewrite E; cbn; tauto).
    assert (H3 : (ResourceLoader.scheme url =? "https") = false)
      by (apply String.eqb_neq; intros E; apply Hscheme; rewrite E; cbn; tauto).
    assert (H4 : (ResourceLoader.scheme url =? "file") = false)
      by (apply String.eqb_neq; intros E; apply Hscheme; rewrite E; cbn; tauto).
    rewrite H1, H2, H3, H4. reflexivity.
  - destruct (other_protocol Hproto) as [Hfile Hdata].
    destruct (createClient_without_proxy env x Hfile Hdata Hproxy)
      as (agent & _ & Hclient).
    rewrite Hclient. eexists. eexists. split; [reflexivity|].
    cbn [operation]. split; [reflexivity|].
    destruct (needsPreflight x).
    + rewrite doPreflight_fetches. split.
      * do 2 eexists. split; reflexivity.
      * intros reason rest Hrej. split; [reflexivity|].
        unfold doPreflight. cbv zeta. rewrite Hrej. reflexivity.
    + unfold doRequest. split.
      * destruct (doRequestTo_fetches (requestOptions (flag x) agent) (transport env)
                    (Some (href (Flag.uri (flag x)))) (initialWorld x))
          as [more [Hm _]].
        rewrite Hm. do 2 eexists. split; reflexivity.
      * intros reason rest Hrej. rewrite Hrej. split; reflexivity.
Qed.

(** *** data: URLs *)

(** A data: URL that decodes: nothing is emitted before [createClient]
    returns; the first tick emits [response] with the media type as
    [content-type], the tick after it the body and [end]; [abort] changes
    nothing. *)
Lemma data_url_response_then_body (env : Env) (x : Xhr)
      (contentType buffer : string) :
  protocol (Flag.uri (flag x)) = "data:" ->
  parseDataURL env = Ok (contentType, buffer) ->
  exists c,
    createClient env x = Ok c /\
    emitted c = [] /\
    nextTicks c =
    [[EmitResponse 200 [("content-type", contentType)]];
     [EmitData response buffer; EmitData client buffer;
      EmitEnd response; EmitEnd client]] /\
    callAbort c = Ok c.
Proof.
  intros Hp Hparse. unfold createClient. cbv zeta. rewrite Hp, Hparse.
  cbn. eexists. repeat split.
Qed.

(** A data: URL that does not decode: [error] is emitted on the first tick
    and [response] never; the client is returned before its [abort] is
    assigned. *)
Lemma data_url_error_without_response (env : Env) (x : Xhr) (err : Exn) :
  protocol (Flag.uri (flag x)) = "data:" ->
  parseDataURL env = Throw err ->
  exists c,
    createClient env x = Ok c /\
    emitted c = [] /\ nextTicks c = [[EmitError err]] /\ abort c = None.
Proof.
  intros Hp Hparse. unfold createClient. cbv zeta. rewrite Hp, Hparse.
  cbn. eexists. repeat split.
Qed.

(** C10. For a data: URL that does not decode, [createClient] returns the
    client from the catch block, before [client.abort] is assigned: the
    error is emitted on the next tick, and calling [abort] on the client
    throws instead of doing nothing. *)
Theorem malformed_data_url_client_has_no_abort :
  let err := TypeError "Cannot read property 'mimeType' of null" in
  exists c,
    createClient (sampleEnv (Throw err) []) (sampleXhr malformedDataURL "GET" []) = Ok c /\
    emitted c = [] /\
    nextTicks c = [[EmitError err]] /\
    abort c = None /\
    callAbort c = Throw (TypeError "client.abort is not a function").
Proof. cbv zeta. eexists. repeat split. Qed.

(** *** The header checks on a plain object

    On the headers of the [response] emitter, which are a plain object, the
    two checks decide what their names say. *)

Lemma opt_eqb_Some (a : option string) (s : string) :
  opt_eqb a (Some s) = true <-> a = Some s.
Proof.
  destruct a as [x|]; cbn.
  - rewrite String.eqb_eq. split; congruence.
  - split; discriminate.
Qed.

Lemma dispatchError_then_false (g : World -> World) (w : World) :
  fst ((modify g ;;; dispatchError ;;; ret false) w) <> Ok true.
Proof.
  unfold bind, modify, ret.
  destruct (dispatchError (g w)) as [[[]|e] w']; cbn; discriminate.
Qed.

Lemma validCORSHeaders_PlainObject_eq (o : Js.obj string) (origin : string)
      (w : World) :
  validCORSHeaders (PlainObject o) origin w =
  let acao := trimmed (Js.get o "access-control-allow-origin") in
  let acac := trimmed (Js.get o "access-control-allow-credentials") in
  if negb (opt_eqb acao (Some "*")) && negb (opt_eqb acao (Some origin)) then
    (modify (with_xhr (with_properties
       (Properties.set_error ("Cross origin " ++ origin ++ " forbidden")))) ;;;
     dispatchError ;;; ret false) w
  else if Flag.withCredentials (flag (xhr w)) && negb (opt_eqb acac (Some "true")) then
    (modify (with_xhr (with_properties
       (Properties.set_error "Credentials forbidden"))) ;;;
     dispatchError ;;; ret false) w
  else (Ok true, w).
Proof.
  unfold validCORSHeaders. cbn [prop]. cbv zeta.
  destruct (negb (opt_eqb (trimmed (Js.get o "access-control-allow-origin")) (Some "*"))
            && negb (opt_eqb (trimmed (Js.get o "access-control-allow-origin"))
                             (Some origin))); [reflexivity|].
  unfold bind at 1. unfold gets at 1.
  destruct (Flag.withCredentials (flag (xhr w))
            && negb (opt_eqb (trimmed (Js.get o "access-control-allow-credentials"))
                             (Some "true"))); reflexivity.
Qed.

Lemma validCORSHeaders_PlainObject (o : Js.obj string) (origin : string) (w : World) :
  let r := validCORSHeaders (PlainObject o) origin w in
  (fst r = Ok true <->
   (trimmed (Js.get o "access-control-allow-origin") = Some "*" \/
    trimmed (Js.get o "access-control-allow-origin") = Some origin) /\
   (Flag.withCredentials (flag (xhr w)) = true ->
    trimmed (Js.get o "access-control-allow-credentials") = Some "true")) /\
  (fst r = Ok true -> snd r = w).
Proof.
  cbv zeta. rewrite validCORSHeaders_PlainObject_eq. cbv zeta.
  rewrite <- !opt_eqb_Some.
  destruct (opt_eqb (trimmed (Js.get o "access-control-allow-origin")) (Some "*"));
    destruct (opt_eqb (trimmed (Js.get o "access-control-allow-origin")) (Some origin));
    cbn [negb andb];
    try (split; [split; [intros H; now apply dispatchError_then_false in H
                        |intros [[H|H] _]; discriminate]
                |intros H; now apply dispatchError_then_false in H]).
  all: destruct (Flag.withCredentials (flag (xhr w))); cbn [andb];
    [destruct (opt_eqb (trimmed (Js.get o "access-control-allow-credentials"))
                       (Some "true")); cbn [negb]|].
  all: try (split; [split; [intros H; now apply dispatchError_then_false in H
                           |intros [_ H]; specialize (H eq_refl); discriminate]
                   |intros H; now apply dispatchError_then_false in H]).
  all: cbn; split; [|reflexivity]; split; [|reflexivity]; intros _.
  all: split; [tauto|]; intros; try discriminate; reflexivity.
Qed.

Lemma forbiddenHeaders_none (acah : list string) (requestHeaders : Js.obj string) :
  (0 <? length (forbiddenHeaders acah requestHeaders))%nat = false <->
  forall header,
    In header (Js.keys requestHeaders) ->
    In (Js.toLowerCase header) simpleHeaders \/ In (Js.toLowerCase header) acah.
Proof.
  unfold forbiddenHeaders. rewrite Nat.ltb_ge. split.
  - intros Hlen header Hin.
    destruct (Js.has simpleHeaders (Js.toLowerCase header)) eqn:E1;
      [left; now apply has_In|].
    destruct (Js.has acah (Js.toLowerCase header)) eqn:E2;
      [right; now apply has_In|].
    exfalso.
    assert (Hf : In header
                   (filter (fun header =>
                              negb (Js.has simpleHeaders (Js.toLowerCase header))
                              && negb (Js.has acah (Js.toLowerCase header)))
                           (Js.keys requestHeaders))).
    { apply filter_In. split; [assumption|]. now rewrite E1, E2. }
    destruct (filter _ (Js.keys requestHeaders)); [contradiction|cbn in Hlen; lia].
  - intros Hall.
    destruct (filter _ (Js.keys requestHeaders)) as [|h l] eqn:E; [cbn; lia|].
    exfalso.
    assert (Hin : In h (h :: l)) by now left.
    rewrite <- E in Hin. apply filter_In in Hin. destruct Hin as [Hin Hb].
    apply andb_true_iff in Hb. destruct Hb as [Hb1 Hb2].
    apply negb_true_iff in Hb1, Hb2.
    destruct (Hall h Hin) as [H|H]; apply has_In in H; congruence.
Qed.

(** On a plain object the preflight check succeeds exactly under the
    conditions of the preflight: the allowed origin, after trimming, is "*"
    or the origin of the request; with credentials the allowed credentials
    are "true"; and every request header is simple or listed, in lower
    case, in [Access-Control-Allow-Headers]. *)
Lemma validCORSPreflightHeaders_PlainObject (o : Js.obj string) (w : World) :
  fst (validCORSPreflightHeaders (PlainObject o) w) = Ok true <->
  (trimmed (Js.get o "access-control-allow-origin") = Some "*" \/
   trimmed (Js.get o "access-control-allow-origin")
   = Some (Properties.origin (properties (xhr w)))) /\
  (Flag.withCredentials (flag (xhr w)) = true ->
   trimmed (Js.get o "access-control-allow-credentials") = Some "true") /\
  (forall header,
      In header (Js.keys (Flag.requestHeaders (flag (xhr w)))) ->
      In (Js.toLowerCase header) simpleHeaders \/
      In (Js.toLowerCase header)
         (allowedHeaders (Js.get o "access-control-allow-headers"))).
Proof.
  destruct (validCORSHeaders_PlainObject o (Properties.origin (properties (xhr w))) w)
    as [Hiff Hsame]. cbv zeta in Hiff, Hsame.
  unfold validCORSPreflightHeaders. unfold bind at 1. unfold gets at 1.
  unfold bind at 1.
  destruct (validCORSHeaders (PlainObject o) (Properties.origin (properties (xhr w))) w)
    as [[valid|e] w1] eqn:E; cbn [fst snd] in Hiff, Hsame.
  - destruct valid; cbn [negb].
    + specialize (Hsame eq_refl). subst w1. cbn [prop].
      unfold bind at 1. unfold gets at 1.
      destruct (0 <? length (forbiddenHeaders
                   (allowedHeaders (Js.get o "access-control-allow-headers"))
                   (Flag.requestHeaders (flag (xhr w)))))%nat eqn:Ef.
      * split.
        -- intros H. now apply dispatchError_then_false in H.
        -- intros (_ & _ & H). apply (proj2 (forbiddenHeaders_none _ _)) in H.
           congruence.
      * cbn. pose proof (proj1 (forbiddenHeaders_none _ _) Ef) as Hall.
        destruct Hiff as [Hiff _]. specialize (Hiff eq_refl). tauto.
    + cbn. split; [discriminate|].
      intros (H1 & H2 & _). destruct Hiff as [_ Hiff].
      specialize (Hiff (conj H1 H2)). discriminate.
  - cbn. split; [discriminate|].
    intros (H1 & H2 & _). destruct Hiff as [_ Hiff].
    specialize (Hiff (conj H1 H2)). discriminate.
Qed.

(* ------------------------------------------------------------------ *)
(** ** The properties on sample requests *)

Example toLowerCase_header : Js.toLowerCase "Content-Type" = "content-type".
Proof. reflexivity. Qed.

Example toUpperCase_method : Js.toUpperCase "post" = "POST".
Proof. reflexivity. Qed.

Example trim_blanks : Js.trim "  a b	 " = "a b".
Proof. reflexivity. Qed.

Example split_header_list :
  Js.splitHeaderList "x-a, x-b,x-c ,	 d" = ["x-a"; "x-b"; "x-c "; "d"].
Proof. reflexivity. Qed.

Example base64_credentials : Js.base64 "user:pass" = "dXNlcjpwYXNz".
Proof. reflexivity. Qed.

Example base64_padding : Js.base64 "ab" = "YWI=" /\ Js.base64 "a" = "YQ==".
Proof. split; reflexivity. Qed.

Example file_path_of_url :
  unescape_spaces (strip_drive_slash (strip_file_scheme "/C:/my%20docs/a.txt"))
  = "C:/my docs/a.txt".
Proof. reflexivity. Qed.

(** The cross-origin PUT with X-Token is preflighted. *)
Lemma preflight_iff_cross_origin_and_not_simple_witness :
  exists c w,
    createClient (sampleEnv (Throw (Error "")) []) putRequest = Ok c /\
    operation c = NetRequest w /\
    existsb isPreflightCall (fetches w) = true.
Proof.
  destruct (@preflight_iff_cross_origin_and_not_simple
              (sampleEnv (Throw (Error "")) []) putRequest
              (or_introl eq_refl) eq_refl) as (c & w & agent & Hc & Hop & _ & Hiff & _).
  exists c, w. split; [exact Hc|]. split; [exact Hop|].
  apply Hiff. split.
  - cbn. discriminate.
  - left. cbn. intros [H|[H|[H|[]]]]; discriminate.
Defined.

(** Twenty redirects and a 200: twenty [redirect], then [response]. *)
Lemma redirect_limit_is_twenty_witness :
  events (doRequestTo sampleOptions
            (map answered (repeat redirectResponse 20)
             ++ [answered (okResponse [] (Fulfilled "ok"))])
            (Some "http://app.example/page") (initialWorld getRequest)) =
  (repeat EmitRedirect 20 ++
   [EmitResponse 200 []; EmitData response "ok"; EmitData client "ok";
    EmitEnd response; EmitEnd client])%list.
Proof.
  assert (Hall : Forall (fun r => (300 <= resp_status r < 400)%Z)
                        (repeat redirectResponse 20)).
  { cbn [repeat]. repeat constructor; cbn; lia. }
  assert (Hfinal : ~ (300 <= resp_status (okResponse [] (Fulfilled "ok")) < 400)%Z).
  { cbn. lia. }
  destruct (@redirect_limit_is_twenty sampleOptions (Some "http://app.example/page")
              (initialWorld getRequest) (repeat redirectResponse 20)
              (okResponse [] (Fulfilled "ok")) []
              eq_refl eq_refl eq_refl Hall) as [Hok _].
  exact (proj1 (Hok Hfinal eq_refl "ok" eq_refl)).
Defined.

(** A redirect and a final response with one cookie each: both are written,
    against the URL the redirect led to, after the calls of the transport
    and before [response] and the body. *)
Lemma cookies_committed_with_final_response_witness :
  let w' := doRequestTo sampleOptions
              [answered cookieRedirect; answered cookieResponse]
              (Some "http://app.example/page") (initialWorld getRequest) in
  setCookies w' =
  [("a=1", Some "http://app.example/next"); ("b=2", Some "http://app.example/next")] /\
  exists hops,
    forallb isHopEffect hops = true /\
    trace w' =
    (hops ++
     [SetsCookie "a=1" (Some "http://app.example/next");
      SetsCookie "b=2" (Some "http://app.example/next");
      Emits (EmitResponse 200 [("set-cookie", "b=2")]);
      Emits (EmitData response "ok"); Emits (EmitData client "ok");
      Emits (EmitEnd response); Emits (EmitEnd client)])%list.
Proof.
  destruct (@cookies_committed_with_final_response sampleOptions
              (Some "http://app.example/page") (initialWorld getRequest))
    as [Hchain _].
  assert (Hall : Forall (fun r => (300 <= resp_status r < 400)%Z) [cookieRedirect]).
  { repeat constructor; cbn; lia. }
  assert (Hfinal : ~ (300 <= resp_status cookieResponse < 400)%Z).
  { cbn. lia. }
  assert (Hn : (requestsDone (initialWorld getRequest) + length [cookieRedirect] <= 20)%nat).
  { cbn. lia. }
  destruct (Hchain [cookieRedirect] cookieResponse [] eq_refl Hn Hall Hfinal eq_refl)
    as (Hg & Hs & hops & Hhops & Ht).
  cbn [map app] in Hg, Hs, Ht. cbv zeta. split.
  - rewrite Hs, Hg. reflexivity.
  - exists hops. split; [exact Hhops|]. rewrite Ht, Hg. reflexivity.
Defined.

(** Two challenges in a row: the second call carries the credentials and
    there is no third call. *)
Lemma auth_retry_once_witness :
  map (fun c => Js.get (headerPairs (call_headers c)) "Authorization")
      (fetches (doRequestTo (requestOptions (flag authRequest) (HttpAgent true true))
                  [answered challengeResponse; answered challengeResponse]
                  (Some "http://app.example/page") (initialWorld authRequest))) =
  [None; Some "Basic dXNlcjpwYXNz"].
Proof.
  destruct (@auth_retry_once (requestOptions (flag authRequest) (HttpAgent true true))
              (Some "http://app.example/page") (initialWorld authRequest)
              (mkAuth "user" "pass") challengeResponse
              [answered challengeResponse]
              eq_refl eq_refl eq_refl eq_refl eq_refl) as (_ & _ & Hsecond).
  destruct (Hsecond challengeResponse [] eq_refl eq_refl) as [Hf _].
  rewrite Hf. reflexivity.
Defined.


(** The transport reads no header from the preflight of the cross-origin
    PUT. *)
Lemma preflight_headers_not_read_witness :
  headerPairs
    (InitArray (preflightRequestHeaders (flag putRequest)
                  (initialRequestHeaders (flag putRequest)))) = [].
Proof.
  exact (proj1 (@preflight_headers_not_read (sampleEnv (Throw (Error "")) []) putRequest
                  _ _
                  (mkCall PreflightCall (Some "http://api.example/items") "OPTIONS"
                          (InitArray (preflightRequestHeaders (flag putRequest)
                                        (initialRequestHeaders (flag putRequest))))
                          None (HttpAgent true true))
                  eq_refl eq_refl (or_introl eq_refl) eq_refl)).
Defined.

(** An ftp: URL: the resource loader rejects it by its scheme. *)
Lemma unsupported_scheme_dispatch_witness :
  ResourceLoader.fetch "ftp://app.example/file" (Some (ResourceLoader.mkRecord "ftp")) =
  Throw (Error "Tried to fetch URL ftp://app.example/file with invalid scheme ftp").
Proof.
  assert (H1 : ~ In (ResourceLoader.scheme (ResourceLoader.mkRecord "ftp"))
                    ["file"; "data"; "http"; "https"]).
  { cbn. intros [H|[H|[H|[H|[]]]]]; discriminate. }
  assert (H2 : ~ In (protocol (Flag.uri (flag (sampleXhr ftpURL "GET" []))))
                    ["file:"; "data:"; "http:"; "https:"]).
  { cbn. intros [H|[H|[H|[H|[]]]]]; discriminate. }
  exact (proj1 (@unsupported_scheme_dispatch "ftp://app.example/file"
                  (ResourceLoader.mkRecord "ftp")
                  (sampleEnv (Throw (Error "")) []) (sampleXhr ftpURL "GET" [])
                  H1 H2 eq_refl)).
Defined.

(* ------------------------------------------------------------------ *)
(** ** The request loop of the resource loader *)

Lemma loader_signal_false (st : Loader.State) : Loader.signal false st = st.
Proof. reflexivity. Qed.

Lemma loader_signal_aborted (b : bool) (st : Loader.State) :
  Loader.aborted (Loader.signal b st) = Loader.aborted st || b.
Proof.
  unfold Loader.signal, Loader.abort.
  destruct b, (Loader.aborted st) eqn:E; cbn; rewrite ?E; reflexivity.
Qed.

Lemma loader_signal_frame (b : bool) (st : Loader.State) :
  Loader.setCookies (Loader.signal b st) = Loader.setCookies st /\
  Loader.gatheredCookies (Loader.signal b st) = Loader.gatheredCookies st /\
  Loader.requestsDone (Loader.signal b st) = Loader.requestsDone st /\
  Loader.fetched (Loader.signal b st) = Loader.fetched st /\
  Loader.response (Loader.signal b st) = Loader.response st.
Proof.
  unfold Loader.signal, Loader.abort.
  destruct b, (Loader.aborted st); cbn; repeat split.
Qed.

Lemma loader_gather_frame (resp : FetchResponse) (st : Loader.State) :
  Loader.setCookies (Loader.gather resp st) = Loader.setCookies st /\
  Loader.aborted (Loader.gather resp st) = Loader.aborted st /\
  Loader.requestsDone (Loader.gather resp st) = Loader.requestsDone st /\
  Loader.fetched (Loader.gather resp st) = Loader.fetched st /\
  Loader.response (Loader.gather resp st) = Loader.response st.
Proof.
  unfold Loader.gather.
  destruct (Headers.has (resp_headers resp) "set-cookie");
    [destruct (Headers.raw (resp_headers resp) "set-cookie")|]; repeat split.
Qed.

Lemma loader_chained_settled (r : Loader.Outcome) (st : Loader.State) :
  Loader.chained (Loader.chained r st) st = Loader.chained r st.
Proof.
  destruct r; cbn; unfold Loader.catchFetch; destruct (Loader.aborted st) eqn:E;
    cbn; unfold Loader.catchFetch; rewrite ?E; reflexivity.
Qed.

(** What [doFetch] settles to agrees with the signal as it leaves it, and
    [doFetch] never writes to the cookie jar. *)
Lemma doFetch_settled :
  forall (script : list Step) (uri : option string) (st : Loader.State),
    let r := fst (Loader.doFetch script uri st) in
    let st' := snd (Loader.doFetch script uri st) in
    Loader.chained r st' = r /\
    Loader.setCookies st' = Loader.setCookies st.
Proof.
  intros script. induction script as [|s script IH]; intros uri st;
    cbn [Loader.doFetch]; cbv zeta.
  - split; reflexivity.
  - set (st1 := Loader.signal (abortCalled s) (Loader.call_fetch uri st)).
    assert (S1 : Loader.setCookies st1 = Loader.setCookies st).
    { subst st1. now destruct (loader_signal_frame (abortCalled s)
                                 (Loader.call_fetch uri st)) as [H _]. }
    destruct (outcome s) as [resp|reason|].
    + destruct (400 <? resp_status resp)%Z.
      { cbn [fst snd]. split; [|exact S1].
        unfold Loader.catchFetch. destruct (Loader.aborted st1) eqn:E; cbn;
          unfold Loader.catchFetch; rewrite ?E; reflexivity. }
      destruct (loader_gather_frame resp st1) as (G1 & _).
      destruct (isRedirect resp).
      * destruct (Loader.requestsDone (Loader.count (Loader.gather resp st1)) =? 21)%nat.
        -- cbn [fst snd]. split; [|cbn; congruence].
           unfold Loader.catchFetch.
           destruct (Loader.aborted (Loader.count (Loader.gather resp st1))) eqn:E;
             cbn in E |- *; unfold Loader.catchFetch; cbn; rewrite ?E; reflexivity.
        -- match goal with
           | |- context [Loader.doFetch script ?u ?st2] =>
               specialize (IH u st2); destruct (Loader.doFetch script u st2) as [r st3]
           end.
           cbv zeta in IH. cbn [fst snd] in IH |- *. destruct IH as [IH1 IH2].
           split; [apply loader_chained_settled|].
           rewrite IH2. cbn. congruence.
      * set (st2 := Loader.signal (abortDuringBody resp)
                      (Loader.set_response resp (Loader.gather resp st1))).
        assert (S2 : Loader.setCookies st2 = Loader.setCookies st).
        { subst st2.
          destruct (loader_signal_frame (abortDuringBody resp)
                      (Loader.set_response resp (Loader.gather resp st1))) as [H _].
          rewrite H. cbn. congruence. }
        destruct (resp_buffer resp) as [buffer|reason|]; cbn [fst snd].
        -- split; [|exact S2]. unfold Loader.thenBuffer.
           destruct (Loader.aborted st2) eqn:E; cbn; rewrite ?E; reflexivity.
        -- split; [|exact S2]. unfold Loader.catchFetch.
           destruct (Loader.aborted st2) eqn:E; cbn; unfold Loader.catchFetch;
             rewrite ?E; reflexivity.
        -- split; [reflexivity|exact S2].
    + cbn [fst snd]. split; [|exact S1]. unfold Loader.catchFetch.
      destruct (Loader.aborted st1) eqn:E; cbn; unfold Loader.catchFetch;
        rewrite ?E; reflexivity.
    + split; [reflexivity|exact S1].
Qed.

Lemma loader_setCookie_each (url : string) :
  forall (values : list string) (st : Loader.State),
    let st' := fold_left (fun st cookie => Loader.call_setCookie cookie url st)
                         values st in
    Loader.aborted st' = Loader.aborted st /\
    Loader.gatheredCookies st' = Loader.gatheredCookies st /\
    Loader.fetched st' = Loader.fetched st /\
    Loader.response st' = Loader.response st /\
    Loader.setCookies st' =
    (Loader.setCookies st ++ map (fun cookie => (cookie, url)) values)%list.
Proof.
  intros values. induction values as [|v values IH]; intros st; cbn.
  - rewrite app_nil_r. repeat split.
  - destruct (IH (Loader.call_setCookie v url st)) as (A & B & C & D & E).
    cbv zeta in *. rewrite A, B, C, D, E. cbn. rewrite <- app_assoc. repeat split.
Qed.

Lemma loader_setCookie_all (url : string) :
  forall (gathered : list (list string)) (st : Loader.State),
    let st' := fold_left
                 (fun st values =>
                    fold_left (fun st cookie => Loader.call_setCookie cookie url st)
                              values st)
                 gathered st in
    Loader.aborted st' = Loader.aborted st /\
    Loader.gatheredCookies st' = Loader.gatheredCookies st /\
    Loader.fetched st' = Loader.fetched st /\
    Loader.response st' = Loader.response st /\
    Loader.setCookies st' =
    (Loader.setCookies st ++ map (fun cookie => (cookie, url)) (concat gathered))%list.
Proof.
  intros gathered. induction gathered as [|values gathered IH]; intros st; cbn.
  - rewrite app_nil_r. repeat split.
  - destruct (loader_setCookie_each url values st) as (A1 & B1 & C1 & D1 & E1).
    cbv zeta in *.
    set (st1 := fold_left (fun st cookie => Loader.call_setCookie cookie url st)
                          values st) in *.
    destruct (IH st1) as (A & B & C & D & E).
    rewrite A, B, C, D, E, A1, B1, C1, D1, E1, map_app, app_assoc. repeat split.
Qed.

Lemma loader_commit_spec (url : string) (st : Loader.State) :
  Loader.aborted (Loader.commit url st) = Loader.aborted st /\
  Loader.gatheredCookies (Loader.commit url st) = Loader.gatheredCookies st /\
  Loader.fetched (Loader.commit url st) = Loader.fetched st /\
  Loader.response (Loader.commit url st) = Loader.response st /\
  Loader.setCookies (Loader.commit url st) =
  (Loader.setCookies st ++
   map (fun cookie => (cookie, url)) (concat (Loader.gatheredCookies st)))%list.
Proof.
  unfold Loader.commit.
  destruct (Loader.gatheredCookies st) as [|values gathered] eqn:Hg.
  - cbn. rewrite app_nil_r, Hg. repeat split.
  - rewrite <- Hg. apply loader_setCookie_all.
Qed.

(** The loader writes cookies only with a body: when the promise of
    [_request] is fulfilled with a body, [setCookie] was called once for
    each gathered value, in order, against the URL the request started
    with; in every other case the cookie jar is not written to. *)
Theorem loader_cookies_only_with_body :
  forall (script : list Step) (urlString : string),
    let r := fst (Loader._request script urlString) in
    let st := snd (Loader._request script urlString) in
    Loader.setCookies st =
    match r with
    | Loader.Body _ =>
        map (fun cookie => (cookie, urlString)) (concat (Loader.gatheredCookies st))
    | _ => []
    end.
Proof.
  intros script urlString. cbv zeta. unfold Loader._request.
  destruct (doFetch_settled script (Some urlString) Loader.initial) as [_ Hs].
  cbv zeta in Hs.
  destruct (Loader.doFetch script (Some urlString) Loader.initial) as [r st].
  cbn [fst snd] in Hs.
  destruct r; cbn [fst snd]; try exact Hs.
  destruct (loader_commit_spec urlString st) as (_ & Hg & _ & _ & Hc).
  rewrite Hc, Hg, Hs. reflexivity.
Qed.

(** Once [abort] was called the promise of [_request] is never rejected
    and never carries a body: it is fulfilled with null, or stays
    unsettled when the transport does not answer; and the cookie jar is not
    written to. *)
Theorem loader_abort_resolves_null :
  forall (script : list Step) (urlString : string),
    Loader.aborted (snd (Loader._request script urlString)) = true ->
    (fst (Loader._request script urlString) = Loader.Null \/
     fst (Loader._request script urlString) = Loader.Unsettled) /\
    Loader.setCookies (snd (Loader._request script urlString)) = [].
Proof.
  intros script urlString.
  pose proof (loader_cookies_only_with_body script urlString) as Hcookies.
  cbv zeta in Hcookies. revert Hcookies. unfold Loader._request.
  destruct (doFetch_settled script (Some urlString) Loader.initial) as [Hc _].
  cbv zeta in Hc.
  destruct (Loader.doFetch script (Some urlString) Loader.initial) as [r st].
  cbn [fst snd] in Hc.
  destruct r as [b| |err|]; cbn [fst snd]; intros Hcookies Hab.
  - destruct (loader_commit_spec urlString st) as (Ha & _).
    rewrite Ha in Hab. cbn in Hc. rewrite Hab in Hc. discriminate.
  - split; [now left|exact Hcookies].
  - cbn in Hc. unfold Loader.catchFetch in Hc. rewrite Hab in Hc. discriminate.
  - split; [now right|exact Hcookies].
Qed.

Lemma afterLoaderHops_frame :
  forall (rs : list FetchResponse) (uri : option string) (st : Loader.State),
    let st' := afterLoaderHops uri rs st in
    Loader.aborted st' = Loader.aborted st /\
    Loader.requestsDone st' = (Loader.requestsDone st + length rs)%nat /\
    Loader.fetched st' = (Loader.fetched st ++ hopUris uri rs)%list /\
    Loader.response st' = Loader.response st /\
    Loader.setCookies st' = Loader.setCookies st.
Proof.
  intros rs. unfold afterLoaderHops.
  induction rs as [|r rs IH]; intros uri st; cbn [hopUris combine fold_left].
  - cbn. rewrite app_nil_r, Nat.add_0_r. repeat split.
  - destruct (IH (Headers.get (resp_headers r) "location")
                 (loaderHop st (uri, r))) as (A & B & C & D & E).
    cbv zeta in *. rewrite A, B, C, D, E. unfold loaderHop. cbn [fst snd].
    destruct (loader_gather_frame r (Loader.call_fetch uri st))
      as (G1 & G2 & G3 & G4 & G5).
    cbn [Loader.aborted Loader.requestsDone Loader.fetched Loader.response
         Loader.setCookies Loader.count].
    rewrite G1, G2, G3, G4, G5. cbn. rewrite <- app_assoc. cbn [length].
    repeat split. lia.
Qed.

(** Redirects below the limit: the loader goes on with the request to the
    last location. *)
Lemma loader_hops (rest : list Step) :
  forall (rs : list FetchResponse) (uri : option string) (st : Loader.State),
    Forall (fun r => isRedirect r = true) rs ->
    (Loader.requestsDone st + length rs <= 20)%nat ->
    Loader.doFetch (map answered rs ++ rest) uri st =
    Loader.doFetch rest (finalUri uri rs) (afterLoaderHops uri rs st).
Proof.
  intros rs. induction rs as [|r rs IH]; intros uri st Hall Hn.
  - reflexivity.
  - inversion Hall as [|? ? Hr Hrs]; subst. cbn [length] in Hn.
    cbn [map app Loader.doFetch answered abortCalled outcome]. cbv zeta.
    rewrite loader_signal_false.
    assert (Hle : (400 <? resp_status r)%Z = false).
    { apply isRedirect_bounds in Hr. apply Z.ltb_ge. lia. }
    rewrite Hle, Hr.
    destruct (loader_gather_frame r (Loader.call_fetch uri st)) as (_ & _ & G3 & _).
    cbn [Loader.requestsDone Loader.count]. rewrite G3.
    cbn [Loader.requestsDone Loader.call_fetch].
    destruct (Nat.eqb_spec (S (Loader.requestsDone st)) 21) as [E|E]; [lia|].
    unfold afterLoaderHops. cbn [hopUris combine fold_left finalUri].
    fold (afterLoaderHops (Headers.get (resp_headers r) "location") rs
            (loaderHop st (uri, r))).
    fold (finalUri (Headers.get (resp_headers r) "location") rs).
    change (Loader.count (Loader.gather r (Loader.call_fetch uri st)))
      with (loaderHop st (uri, r)).
    rewrite IH; [|assumption|].
    + match goal with
      | |- context [Loader.doFetch rest ?u ?st1] =>
          destruct (doFetch_settled rest u st1) as [Hc _];
          destruct (Loader.doFetch rest u st1) as [r0 st2]
      end.
      cbv zeta in Hc. cbn [fst snd] in Hc. now rewrite Hc.
    + unfold loaderHop. cbn [fst snd Loader.requestsDone Loader.count].
      rewrite G3. cbn. lia.
Qed.

(** The redirect limit of the loader: after twenty redirects a response
    with a status below 300 or equal to 400 fulfils the promise with its
    body, after twenty-one calls of the transport, the first to the URL of
    the request; a twenty-first redirect rejects it with the
    too-many-redirects error and the transport is not called again. *)
Theorem loader_redirect_limit :
  forall (urlString : string) (rs : list FetchResponse) (final : FetchResponse)
         (rest : list Step),
    length rs = 20%nat ->
    Forall (fun r => (300 <= resp_status r < 400)%Z) rs ->
    let r := fst (Loader._request (map answered rs ++ answered final :: rest) urlString) in
    let st := snd (Loader._request (map answered rs ++ answered final :: rest) urlString) in
    ((resp_status final < 300 \/ resp_status final = 400)%Z ->
     abortDuringBody final = false ->
     forall buffer, resp_buffer final = Fulfilled buffer ->
       r = Loader.Body buffer /\
       Loader.fetched st =
       (hopUris (Some urlString) rs ++ [finalUri (Some urlString) rs])%list /\
       Loader.response st = Some (resp_status final, resp_headers final)) /\
    ((300 <= resp_status final < 400)%Z ->
     r = Loader.Rejects Loader.TooManyRedirects /\
     length (Loader.fetched st) = 21%nat /\
     Loader.response st = None).
Proof.
  intros urlString rs final rest Hlen Hall. cbv zeta.
  assert (Hred : Forall (fun r => isRedirect r = true) rs).
  { eapply Forall_impl; [|exact Hall]. intros r Hr. now apply isRedirect_bounds. }
  unfold Loader._request.
  rewrite loader_hops by (assumption || (cbn; lia)).
  destruct (afterLoaderHops_frame rs (Some urlString) Loader.initial)
    as (A & B & C & D & E). cbv zeta in A, B, C, D, E.
  set (st1 := afterLoaderHops (Some urlString) rs Loader.initial) in *.
  cbn in A, B, C, D, E. rewrite Hlen in B.
  cbn [Loader.doFetch answered abortCalled outcome]. cbv zeta.
  rewrite loader_signal_false.
  destruct (loader_gather_frame final
              (Loader.call_fetch (finalUri (Some urlString) rs) st1))
    as (G1 & G2 & G3 & G4 & G5).
  split.
  - intros Hstatus Hbody buffer Hbuf.
    assert (Hle : (400 <? resp_status final)%Z = false) by (apply Z.ltb_ge; lia).
    assert (Hnr : isRedirect final = false).
    { destruct (isRedirect final) eqn:Ei; [|reflexivity].
      apply isRedirect_bounds in Ei. lia. }
    rewrite Hle, Hnr, Hbody, Hbuf, loader_signal_false.
    unfold Loader.thenBuffer.
    cbn [Loader.aborted Loader.set_response]. rewrite G2.
    cbn [Loader.aborted Loader.call_fetch]. rewrite A. cbn [fst snd].
    destruct (loader_commit_spec urlString
                (Loader.set_response final
                   (Loader.gather final
                      (Loader.call_fetch (finalUri (Some urlString) rs) st1))))
      as (_ & _ & Cf & Cr & _).
    rewrite Cf, Cr. cbn [Loader.fetched Loader.response Loader.set_response].
    rewrite G4. cbn [Loader.fetched Loader.call_fetch]. rewrite C.
    repeat split.
  - intros Hstatus.
    assert (Hle : (400 <? resp_status final)%Z = false) by (apply Z.ltb_ge; lia).
    assert (Hr : isRedirect final = true) by now apply isRedirect_bounds.
    rewrite Hle, Hr.
    cbn [Loader.requestsDone Loader.count]. rewrite G3.
    cbn [Loader.requestsDone Loader.call_fetch]. rewrite B. cbn [Nat.eqb].
    unfold Loader.catchFetch. cbn [Loader.aborted Loader.count]. rewrite G2.
    cbn [Loader.aborted Loader.call_fetch]. rewrite A. cbn [fst snd].
    cbn [Loader.fetched Loader.response Loader.count]. rewrite G4, G5.
    cbn [Loader.fetched Loader.response Loader.call_fetch]. rewrite C, D.
    repeat split. rewrite length_app.
    assert (Hh : forall l u, length (hopUris u l) = length l).
    { intros l. induction l as [|x l IHl]; intros u; cbn; [reflexivity|].
      now rewrite IHl. }
    rewrite Hh, Hlen. reflexivity.
Qed.

(** A status above 400 rejects the promise of the loader, after any number
    of redirects below the limit: no response is recorded and no cookie is
    written, whatever the response carries. *)
Theorem loader_status_above_400_rejects :
  forall (urlString : string) (rs : list FetchResponse) (final : FetchResponse)
         (rest : list Step),
    (length rs <= 20)%nat ->
    Forall (fun r => (300 <= resp_status r < 400)%Z) rs ->
    (400 < resp_status final)%Z ->
    let r := fst (Loader._request (map answered rs ++ answered final :: rest) urlString) in
    let st := snd (Loader._request (map answered rs ++ answered final :: rest) urlString) in
    r = Loader.Rejects Loader.UnexpectedStatus /\
    Loader.response st = None /\
    Loader.setCookies st = [].
Proof.
  intros urlString rs final rest Hlen Hall Hstatus. cbv zeta.
  pose proof (loader_cookies_only_with_body
                (map answered rs ++ answered final :: rest) urlString) as Hcookies.
  cbv zeta in Hcookies. revert Hcookies.
  assert (Hred : Forall (fun r => isRedirect r = true) rs).
  { eapply Forall_impl; [|exact Hall]. intros r Hr. now apply isRedirect_bounds. }
  unfold Loader._request.
  rewrite loader_hops by (assumption || (cbn; lia)).
  destruct (afterLoaderHops_frame rs (Some urlString) Loader.initial)
    as (A & _ & _ & D & _). cbv zeta in A, D.
  set (st1 := afterLoaderHops (Some urlString) rs Loader.initial) in *.
  cbn in A, D.
  cbn [Loader.doFetch answered abortCalled outcome]. cbv zeta.
  rewrite loader_signal_false.
  assert (Hgt : (400 <? resp_status final)%Z = true) by now apply Z.ltb_lt.
  rewrite Hgt. unfold Loader.catchFetch.
  cbn [Loader.aborted Loader.call_fetch]. rewrite A. cbn [fst snd].
  intros Hcookies. cbn [Loader.response Loader.call_fetch]. rewrite D.
  repeat split. exact Hcookies.
Qed.

(* ------------------------------------------------------------------ *)
(** ** Request headers *)

Lemma find_rev_none {A : Type} (p : A -> bool) (l : list A) :
  find p (rev l) = None <-> forall x, In x l -> p x = false.
Proof.
  split.
  - intros H x Hin. apply (find_none p (rev l) H). now apply in_rev in Hin.
  - intros H. destruct (find p (rev l)) as [x|] eqn:E; [|reflexivity].
    apply find_some in E. destruct E as [Hin Hp].
    apply in_rev in Hin. rewrite (H x Hin) in Hp. discriminate.
Qed.

(** [getRequestHeader] ignores the case of the name asked for and of the
    names stored, and it yields null exactly when no stored name matches. *)
Theorem getRequestHeader_case_insensitive :
  forall (requestHeaders : Js.obj string) (header : string),
    (forall header',
        Js.toLowerCase header' = Js.toLowerCase header ->
        getRequestHeader requestHeaders header' = getRequestHeader requestHeaders header) /\
    (getRequestHeader requestHeaders header = None <->
     forall key, In key (Js.keys requestHeaders) ->
                 Js.toLowerCase key <> Js.toLowerCase header).
Proof.
  intros o header. split.
  - intros header' E. unfold getRequestHeader. now rewrite E.
  - unfold getRequestHeader.
    destruct (find (fun key => Js.toLowerCase key =? Js.toLowerCase header)
                   (rev (Js.keys o))) as [key|] eqn:E.
    + apply find_some in E. destruct E as [Hin Hp].
      apply in_rev in Hin. apply String.eqb_eq in Hp.
      apply get_In_keys in Hin as Hv. destruct Hv as [v Hv]. rewrite Hv.
      split; [discriminate|]. intros H. exfalso. exact (H key Hin Hp).
    + split; [|reflexivity]. intros _ key Hin.
      apply String.eqb_neq.
      exact (proj1 (find_rev_none _ (Js.keys o)) E key Hin).
Qed.

Lemma get_app_first {V : Type} (o rest : Js.obj V) (k : string) (v : V) :
  ~ In k (Js.keys o) -> Js.get (o ++ (k, v) :: rest)%list k = Some v.
Proof.
  unfold Js.keys. induction o as [|[k0 v0] o IH]; cbn; intros Hnin.
  - now rewrite String.eqb_refl.
  - destruct (String.eqb_spec k0 k) as [E|E]; [exfalso; apply Hnin; now left|].
    apply IH. intros H. apply Hnin. now right.
Qed.

Lemma find_app_none {A : Type} (p : A -> bool) (l1 l2 : list A) :
  find p l1 = None -> find p (l1 ++ l2) = find p l2.
Proof.
  induction l1 as [|x l1 IH]; cbn; [reflexivity|].
  destruct (p x); [discriminate|exact IH].
Qed.

(** When several stored names match, [getRequestHeader] yields the value
    of the one that was added last, whatever names that do not match were
    added after it. *)
Theorem getRequestHeader_last_match :
  forall (requestHeaders later : Js.obj string) (key value header : string),
    Js.toLowerCase key = Js.toLowerCase header ->
    ~ In key (Js.keys requestHeaders) ->
    (forall k, In k (Js.keys later) -> Js.toLowerCase k <> Js.toLowerCase header) ->
    getRequestHeader (requestHeaders ++ (key, value) :: later)%list header = Some value.
Proof.
  intros o later key value header Hcase Hfresh Hlater.
  unfold getRequestHeader, Js.keys.
  rewrite map_app, rev_app_distr. cbn [map rev fst]. rewrite <- app_assoc.
  rewrite find_app_none.
  - cbn [app find]. rewrite Hcase, String.eqb_refl. now apply get_app_first.
  - apply find_rev_none. intros k Hin. apply String.eqb_neq. now apply Hlater.
Qed.

Lemma set_keys_present {V : Type} (o : Js.obj V) (k : string) (v : V) :
  In k (Js.keys o) -> Js.keys (Js.set o k v) = Js.keys o.
Proof.
  unfold Js.keys. induction o as [|[k0 v0] o IH]; cbn; intros Hin; [contradiction|].
  destruct (String.eqb_spec k0 k) as [E|E]; cbn; [reflexivity|].
  destruct Hin as [Hin|Hin]; [contradiction|]. now rewrite IH.
Qed.

Lemma updateRequestHeader_fold (lc newValue : string) :
  forall (names : list string) (o : Js.obj string),
    (forall k, In k names -> In k (Js.keys o)) ->
    let o' := fold_left (fun o key => if Js.toLowerCase key =? lc
                                      then Js.set o key newValue else o)
                        names o in
    Js.keys o' = Js.keys o /\
    forall k,
      Js.get o' k =
      if (Js.toLowerCase k =? lc) && existsb (String.eqb k) names
      then Some newValue else Js.get o k.
Proof.
  intros names. induction names as [|a names IH]; intros o Hincl; cbn [fold_left existsb].
  - split; [reflexivity|]. intros k. now rewrite andb_false_r.
  - set (o1 := if Js.toLowerCase a =? lc then Js.set o a newValue else o).
    assert (Hk1 : Js.keys o1 = Js.keys o).
    { subst o1. destruct (Js.toLowerCase a =? lc); [|reflexivity].
      apply set_keys_present. apply Hincl. now left. }
    destruct (IH o1) as [Hkeys Hget].
    { intros k Hin. rewrite Hk1. apply Hincl. now right. }
    cbv zeta in Hkeys, Hget. split; [congruence|].
    intros k. rewrite Hget.
    destruct (Js.toLowerCase k =? lc) eqn:Ek; cbn [andb].
    + destruct (existsb (String.eqb k) names); [now rewrite orb_true_r|].
      rewrite orb_false_r. subst o1.
      destruct (String.eqb_spec k a) as [E|E].
      * subst a. rewrite Ek. apply get_set_same.
      * destruct (Js.toLowerCase a =? lc); [|reflexivity].
        apply get_set_other. congruence.
    + subst o1. destruct (Js.toLowerCase a =? lc) eqn:Ea; [|reflexivity].
      apply get_set_other. intros E. subst a. congruence.
Qed.

(** [updateRequestHeader] keeps the names and their order, gives the new
    value to every stored name that matches without regard to case, and
    leaves every other property as it is; a name that is not stored is not
    added. *)
Theorem updateRequestHeader_spec :
  forall (requestHeaders : Js.obj string) (header newValue : string),
    let updated := updateRequestHeader requestHeaders header newValue in
    Js.keys updated = Js.keys requestHeaders /\
    forall k,
      Js.get updated k =
      match Js.get requestHeaders k with
      | Some old => if Js.toLowerCase k =? Js.toLowerCase header
                    then Some newValue else Some old
      | None => None
      end.
Proof.
  intros o header newValue. cbv zeta. unfold updateRequestHeader.
  destruct (updateRequestHeader_fold (Js.toLowerCase header) newValue
              (rev (Js.keys o)) o) as [Hkeys Hget].
  { intros k Hin. now apply in_rev in Hin. }
  cbv zeta in Hkeys, Hget. split; [exact Hkeys|].
  intros k. rewrite Hget.
  destruct (Js.get o k) as [old|] eqn:Eg.
  - assert (Hin : In k (rev (Js.keys o))).
    { apply in_rev. rewrite rev_involutive. apply get_In_keys. now exists old. }
    assert (Hex : existsb (String.eqb k) (rev (Js.keys o)) = true).
    { apply existsb_exists. exists k. split; [exact Hin|apply String.eqb_refl]. }
    rewrite Hex, andb_true_r. reflexivity.
  - assert (Hex : existsb (String.eqb k) (rev (Js.keys o)) = false).
    { destruct (existsb (String.eqb k) (rev (Js.keys o))) eqn:E; [|reflexivity].
      apply existsb_exists in E. destruct E as [y [Hin Hy]].
      apply String.eqb_eq in Hy. subst y. apply in_rev in Hin.
      apply get_In_keys in Hin. destruct Hin as [v Hv]. congruence. }
    rewrite Hex, andb_false_r. reflexivity.
Qed.

Lemma get_cond_set {V : Type} (b : bool) (o : Js.obj V) (name k : string) (v : V) :
  Js.get (if b then Js.set o name v else o) k =
  if b && (name =? k) then Some v else Js.get o k.
Proof.
  destruct b; cbn [andb]; [|reflexivity].
  destruct (String.eqb_spec name k) as [E|E].
  - subst. apply get_set_same.
  - now apply get_set_other.
Qed.

(** The [for ... in] copy of the request headers reads like the original. *)
Lemma copy_get (given : Js.obj string) (k : string) :
  forall (names : list string) (acc : Js.obj string),
    Js.get (fold_left (fun acc header =>
                         match Js.get given header with
                         | Some v => Js.set acc header v
                         | None => acc
                         end) names acc) k =
    if existsb (String.eqb k) names
       && match Js.get given k with Some _ => true | None => false end
    then Js.get given k else Js.get acc k.
Proof.
  intros names. induction names as [|a names IH]; intros acc; cbn [fold_left existsb].
  - reflexivity.
  - rewrite IH. clear IH.
    destruct (Js.get given k) as [v|] eqn:Ev.
    + rewrite !andb_true_r.
      destruct (existsb (String.eqb k) names); [now rewrite orb_true_r|].
      rewrite orb_false_r.
      destruct (String.eqb_spec k a) as [E|E].
      * subst a. rewrite Ev. apply get_set_same.
      * destruct (Js.get given a); [|reflexivity]. apply get_set_other. congruence.
    + rewrite !andb_false_r.
      destruct (Js.get given a) eqn:Ea; [|reflexivity].
      apply get_set_other. congruence.
Qed.

Lemma copy_all_get (given : Js.obj string) (k : string) :
  Js.get (fold_left (fun acc header =>
                       match Js.get given header with
                       | Some v => Js.set acc header v
                       | None => acc
                       end) (Js.keys given) []) k = Js.get given k.
Proof.
  rewrite copy_get.
  destruct (Js.get given k) as [v|] eqn:Ev; [|now rewrite andb_false_r].
  assert (Hex : existsb (String.eqb k) (Js.keys given) = true).
  { apply existsb_exists. exists k. split; [|apply String.eqb_refl].
    apply get_In_keys. now exists v. }
  now rewrite Hex.
Qed.

(** Every property of the prepared request headers, read off the steps of
    [createClient] from the last to the first. *)
Lemma initialRequestHeaders_get (f : Flag.t) (k : string) :
  Js.get (initialRequestHeaders f) k =
  if (hasBody f && absentHeader f "content-type") && ("Content-Type" =? k)
  then Some "text/plain;charset=UTF-8"
  else match (if "Cookie" =? k then jarCookie f else None) with
       | Some cookie => Some cookie
       | None =>
  if crossOrigin f && ("Origin" =? k) then Some (Flag.origin f)
  else if absentHeader f "accept" && ("Accept" =? k) then Some "*/*"
  else if absentHeader f "accept-encoding" && ("Accept-Encoding" =? k)
       then Some "gzip,deflate"
  else if absentHeader f "accept-language" && ("Accept-Language" =? k)
       then Some "en"
  else if absentHeader f "user-agent" && ("User-Agent" =? k)
       then Some (Flag.userAgent f)
  else if absentHeader f "referer" && ("Referer" =? k)
       then Some (Flag.referrer f)
  else Js.get (Flag.requestHeaders f) k
       end.
Proof.
  unfold initialRequestHeaders. cbv zeta.
  fold (absentHeader f "content-type"). fold (absentHeader f "referer").
  fold (absentHeader f "user-agent"). fold (absentHeader f "accept-language").
  fold (absentHeader f "accept-encoding"). fold (absentHeader f "accept").
  rewrite get_cond_set.
  destruct ((hasBody f && absentHeader f "content-type") && ("Content-Type" =? k));
    [reflexivity|].
  match goal with
  | |- Js.get (match Flag.cookieJar f with
               | Some jar => _
               | None => ?h
               end) k = _ =>
      assert (Hcookie :
                Js.get (match Flag.cookieJar f with
                        | Some jar =>
                            if negb (crossOrigin f) || Flag.withCredentials f then
                              if (0 <? length (cookieStrings jar))%nat
                              then Js.set h "Cookie" (Js.join "; " (cookieStrings jar))
                              else h
                            else h
                        | None => h
                        end) k =
                match (if "Cookie" =? k then jarCookie f else None) with
                | Some cookie => Some cookie
                | None => Js.get h k
                end)
  end.
  { unfold jarCookie. destruct (Flag.cookieJar f) as [jar|];
      [|destruct ("Cookie" =? k); reflexivity].
    destruct (negb (crossOrigin f) || Flag.withCredentials f); cbn [andb];
      [|destruct ("Cookie" =? k); reflexivity].
    destruct (0 <? length (cookieStrings jar))%nat;
      [|destruct ("Cookie" =? k); reflexivity].
    destruct (String.eqb_spec "Cookie" k) as [E|E].
    - subst k. apply get_set_same.
    - now apply get_set_other. }
  rewrite Hcookie. clear Hcookie.
  destruct (if "Cookie" =? k then jarCookie f else None); [reflexivity|].
  rewrite !get_cond_set, copy_all_get. reflexivity.
Qed.

Ltac decide_names :=
  repeat match goal with
         | |- context [String.eqb ?a ?b] =>
             let r := eval vm_compute in (String.eqb a b) in
             match r with
             | true => change (String.eqb a b) with true
             | false => change (String.eqb a b) with false
             end
         end.

Lemma absentHeader_false (f : Flag.t) (key name : string) :
  In key (Js.keys (Flag.requestHeaders f)) ->
  Js.toLowerCase key = Js.toLowerCase name ->
  absentHeader f name = false.
Proof.
  intros Hin Hcase. unfold absentHeader.
  destruct (getRequestHeader (Flag.requestHeaders f) name) eqn:E; [reflexivity|].
  exfalso.
  exact (proj1 (proj2 (getRequestHeader_case_insensitive (Flag.requestHeaders f) name))
               E key Hin Hcase).
Qed.

Lemma hasHeader_found (o : Js.obj string) (name : string) :
  hasHeader o name -> getRequestHeader o name <> None.
Proof.
  intros [key [Hin Hcase]] Hnone.
  exact (proj1 (proj2 (getRequestHeader_case_insensitive o name)) Hnone key Hin Hcase).
Qed.

Lemma initialRequestHeaders_keeps_keys (f : Flag.t) (k : string) :
  In k (Js.keys (Flag.requestHeaders f)) ->
  In k (Js.keys (initialRequestHeaders f)).
Proof.
  intros Hin. apply get_In_keys in Hin. destruct Hin as [v Hv].
  apply get_In_keys. rewrite initialRequestHeaders_get, Hv.
  repeat match goal with
         | |- exists _, (if ?b then _ else _) = _ => destruct b
         | |- exists _, match ?b with Some _ => _ | None => _ end = _ => destruct b
         end; eexists; reflexivity.
Qed.

(** The prepared request always has a Referer, a User-Agent, an
    Accept-Language, an Accept-Encoding and an Accept header, under some
    spelling. *)
Theorem default_headers_present :
  forall (f : Flag.t) (name : string),
    In name ["referer"; "user-agent"; "accept-language"; "accept-encoding"; "accept"] ->
    getRequestHeader (initialRequestHeaders f) name <> None.
Proof.
  intros f name Hname. apply hasHeader_found.
  destruct (absentHeader f name) eqn:Eabs.
  - assert (Hkey : exists key, Js.toLowerCase key = Js.toLowerCase name /\
                               exists v, Js.get (initialRequestHeaders f) key = Some v).
    { cbn in Hname.
      destruct Hname as [H|[H|[H|[H|[H|[]]]]]]; subst name;
        [exists "Referer" | exists "User-Agent" | exists "Accept-Language"
         | exists "Accept-Encoding" | exists "Accept"];
        (split; [reflexivity|]); rewrite initialRequestHeaders_get;
        decide_names; rewrite ?andb_false_r, ?andb_true_r, ?Eabs;
        repeat match goal with
               | |- exists _, (if ?b then _ else _) = _ => destruct b
               end; eexists; reflexivity. }
    destruct Hkey as [key [Hcase Hv]]. exists key. split; [|exact Hcase].
    now apply get_In_keys.
  - unfold absentHeader in Eabs.
    destruct (getRequestHeader (Flag.requestHeaders f) name) eqn:E; [|discriminate].
    assert (Hsome : getRequestHeader (Flag.requestHeaders f) name <> None)
      by (rewrite E; discriminate).
    assert (Hex : exists key, In key (Js.keys (Flag.requestHeaders f)) /\
                              Js.toLowerCase key = Js.toLowerCase name).
    { unfold getRequestHeader in E.
      destruct (find (fun key => Js.toLowerCase key =? Js.toLowerCase name)
                     (rev (Js.keys (Flag.requestHeaders f)))) as [key|] eqn:Ef;
        [|discriminate].
      apply find_some in Ef. destruct Ef as [Hin Hp]. apply in_rev in Hin.
      apply String.eqb_eq in Hp. now exists key. }
    destruct Hex as [key [Hin Hcase]]. exists key.
    split; [now apply initialRequestHeaders_keeps_keys|exact Hcase].
Qed.

(** The defaults never replace a header of the caller: every header the
    caller set, other than Origin and Cookie, reaches the transport with
    the caller's value. *)
Theorem caller_headers_kept :
  forall (f : Flag.t) (k : string),
    In k (Js.keys (Flag.requestHeaders f)) ->
    k <> "Origin" -> k <> "Cookie" ->
    Js.get (initialRequestHeaders f) k = Js.get (Flag.requestHeaders f) k.
Proof.
  intros f k Hin Horigin Hcookie. rewrite initialRequestHeaders_get.
  assert (Hdefault : forall name N,
             Js.toLowerCase N = Js.toLowerCase name ->
             absentHeader f name && (N =? k) = false).
  { intros name N Hcase. destruct (String.eqb_spec N k) as [E|E];
      [|apply andb_false_r].
    subst k. now rewrite (absentHeader_false f N name Hin Hcase). }
  rewrite <- andb_assoc, (Hdefault "content-type" "Content-Type" eq_refl), andb_false_r.
  replace ("Cookie" =? k) with false by (symmetry; apply String.eqb_neq; congruence).
  replace ("Origin" =? k) with false by (symmetry; apply String.eqb_neq; congruence).
  rewrite andb_false_r.
  rewrite (Hdefault "accept" "Accept" eq_refl),
    (Hdefault "accept-encoding" "Accept-Encoding" eq_refl),
    (Hdefault "accept-language" "Accept-Language" eq_refl),
    (Hdefault "user-agent" "User-Agent" eq_refl),
    (Hdefault "referer" "Referer" eq_refl).
  reflexivity.
Qed.

(** The Origin header of the prepared request is the origin of the
    requester exactly for a cross-origin request, whatever the caller set;
    a same-origin request gets no Origin header of its own. *)
Theorem origin_header_iff_cross_origin :
  forall (f : Flag.t),
    Js.get (initialRequestHeaders f) "Origin" =
    if crossOrigin f then Some (Flag.origin f)
    else Js.get (Flag.requestHeaders f) "Origin".
Proof.
  intros f. rewrite initialRequestHeaders_get. decide_names.
  rewrite !andb_false_r, andb_true_r. reflexivity.
Qed.

(** The cookies of the jar are sent only same-origin or with credentials:
    the Cookie header of the prepared request is the jar's cookies joined
    by "; " when there is a jar with cookies for the URL and the request is
    same-origin or made with credentials, and the caller's own header
    otherwise. *)
Theorem cookie_header_from_jar :
  forall (f : Flag.t),
    Js.get (initialRequestHeaders f) "Cookie" =
    match Flag.cookieJar f with
    | Some jar =>
        if (negb (crossOrigin f) || Flag.withCredentials f)
           && (0 <? length (cookieStrings jar))%nat
        then Some (Js.join "; " (cookieStrings jar))
        else Js.get (Flag.requestHeaders f) "Cookie"
    | None => Js.get (Flag.requestHeaders f) "Cookie"
    end.
Proof.
  intros f. rewrite initialRequestHeaders_get. decide_names.
  rewrite !andb_false_r. unfold jarCookie.
  destruct (Flag.cookieJar f) as [jar|]; [|reflexivity].
  destruct ((negb (crossOrigin f) || Flag.withCredentials f)
            && (0 <? length (cookieStrings jar))%nat); reflexivity.
Qed.

(** GET and HEAD requests carry no body and get no Content-Type of their
    own, whatever body the caller gave; any other request with a body that
    is not empty carries it unless it is form data, and gets the
    text/plain Content-Type when the caller set none. *)
Theorem body_only_beyond_get_and_head :
  forall (f : Flag.t),
    (Js.toUpperCase (Flag.method f) = "GET" \/
     Js.toUpperCase (Flag.method f) = "HEAD" ->
     (forall agent, opt_body (requestOptions f agent) = None) /\
     Js.get (initialRequestHeaders f) "Content-Type"
     = Js.get (Flag.requestHeaders f) "Content-Type") /\
    (Js.toUpperCase (Flag.method f) <> "GET" ->
     Js.toUpperCase (Flag.method f) <> "HEAD" ->
     Js.truthy (Flag.body f) = true ->
     (forall agent,
         opt_body (requestOptions f agent)
         = (if Flag.formData f then None else Flag.body f)) /\
     (getRequestHeader (Flag.requestHeaders f) "content-type" = None ->
      Js.get (initialRequestHeaders f) "Content-Type"
      = Some "text/plain;charset=UTF-8")).
Proof.
  intros f. split.
  - intros Hm.
    assert (Hb : hasBody f = false).
    { unfold hasBody. destruct Hm as [H|H]; rewrite H; cbn; apply andb_false_r. }
    unfold requestOptions. cbn [opt_body]. rewrite Hb. split; [reflexivity|].
    rewrite initialRequestHeaders_get, Hb. decide_names.
    rewrite !andb_false_r. reflexivity.
  - intros Hget Hhead Hbody.
    assert (Hb : hasBody f = true).
    { unfold hasBody. rewrite Hbody.
      apply String.eqb_neq in Hget, Hhead. now rewrite Hget, Hhead. }
    unfold requestOptions. cbn [opt_body]. rewrite Hb. split.
    + intros _. destruct (Flag.formData f); reflexivity.
    + intros Hnone. rewrite initialRequestHeaders_get, Hb.
      unfold absentHeader at 1. rewrite Hnone. reflexivity.
Qed.

(* ------------------------------------------------------------------ *)
(** ** The request loop as a whole *)

Lemma closing_catch (err : Exn) (b : bool) :
  closingEvents [if b then EmitAbort else EmitError err].
Proof.
  destruct b; [right; left; reflexivity|].
  right; right; left. now exists err.
Qed.

Lemma closing_complete (code : Z) (h : Js.obj string) (resp : FetchResponse)
      (b : bool) :
  closingEvents (EmitResponse code h :: bodyEvents resp b).
Proof.
  right; right; right. exists code, h. unfold bodyEvents.
  destruct (resp_buffer resp) as [buffer|reason|].
  - right; right; right. now exists buffer.
  - destruct (b || abortDuringBody resp).
    + right; left. reflexivity.
    + right; right; left. now eexists.
  - left. reflexivity.
Qed.

(** The order of the notifications: whatever the transport answers and
    whenever [abort] is called, the request loop emits some number of
    [redirect], and after them at most one [response] and at most one of
    [abort], [error] and the body with [end], which comes last. *)
Theorem notifications_in_order :
  forall (options : Options) (script : list Step) (uri : option string) (w : World),
    exists n tail,
      events (doRequestTo options script uri w) =
      (events w ++ repeat EmitRedirect n ++ tail)%list /\
      closingEvents tail.
Proof.
  intros options script.
  induction script as [|s script IH]; intros uri w; cbn [doRequestTo]; cbv zeta.
  - exists 0%nat, []. cbn. rewrite app_nil_r. split; [reflexivity|now left].
  - set (w1 := signal_abort (abortCalled s) (call_fetch (requestCall options uri w) w)).
    assert (E1 : events w1 = events w) by reflexivity.
    destruct (outcome s) as [resp|reason|].
    + destruct (aborted w1).
      { exists 0%nat, [EmitAbort]. split; [reflexivity|]. right; left. reflexivity. }
      destruct (authRequested w1 resp) as [a|].
      * match goal with
        | |- context [doRequestTo _ _ ?u ?w2] =>
            destruct (IH u w2) as (n & tail & He & Hc)
        end.
        exists n, tail. split; [exact He|exact Hc].
      * destruct (trackCookies_frame resp w1) as (_ & Te & _ & _ & _ & _ & Ta & _ & Thd).
        destruct (isRedirect resp).
        -- destruct (requestsDone (incr_requestsDone (trackCookies resp w1)) =? 21)%nat.
           ++ exists 0%nat. eexists. rewrite catchRequest_events.
              cbn [events incr_requestsDone repeat app]. rewrite Te, E1.
              split; [reflexivity|]. apply closing_catch.
           ++ match goal with
              | |- context [doRequestTo _ _ ?u ?w2] =>
                  destruct (IH u w2) as (n & tail & He & Hc)
              end.
              cbn [events emit incr_requestsDone] in He.
              rewrite Te, E1, <- app_assoc in He.
              exists (S n), tail. split; [exact He|exact Hc].
        -- destruct (complete_spec uri resp (trackCookies resp w1)) as (He & _).
           exists 0%nat. eexists. rewrite He, Te, E1. cbn [repeat app].
           split; [reflexivity|]. apply closing_complete.
    + exists 0%nat. eexists. rewrite catchRequest_events. cbn [repeat app].
      rewrite E1. split; [reflexivity|]. apply closing_catch.
    + exists 0%nat, []. cbn. rewrite app_nil_r. split; [exact E1|now left].
Qed.

Lemma authRequested_needs_no_authorization (w : World) (resp : FetchResponse)
      (a : Auth) :
  authRequested w resp = Some a -> Js.get (requestHeaders w) "Authorization" = None.
Proof.
  unfold authRequested. destruct (resp_status resp =? 401)%Z; [|discriminate].
  destruct (Flag.auth (flag (xhr w))); [|discriminate].
  destruct (Js.get (requestHeaders w) "Authorization"); [discriminate|reflexivity].
Qed.

(** The request loop calls the transport at most once for each redirect it
    may still follow, once more for the request it starts with, and once
    more when the retry with authentication is still open. *)
Lemma doRequestTo_calls_bounded (options : Options) :
  forall (script : list Step) (uri : option string) (w : World),
    (requestsDone w <= 20)%nat ->
    (length (fetches (doRequestTo options script uri w)) <=
     length (fetches w) + (21 - requestsDone w) + authAllowance w)%nat.
Proof.
  intros script.
  induction script as [|s script IH]; intros uri w Hle; cbn [doRequestTo]; cbv zeta.
  - cbn [fetches call_fetch]. rewrite length_app. cbn [length]. lia.
  - set (w1 := signal_abort (abortCalled s) (call_fetch (requestCall options uri w) w)).
    assert (F1 : length (fetches w1) = S (length (fetches w))).
    { subst w1. cbn [fetches call_fetch signal_abort]. rewrite length_app.
      cbn [length]. lia. }
    assert (D1 : requestsDone w1 = requestsDone w) by reflexivity.
    assert (A1 : authAllowance w1 = authAllowance w) by reflexivity.
    destruct (outcome s) as [resp|reason|].
    + destruct (aborted w1); [cbn [fetches emit]; lia|].
      destruct (authRequested w1 resp) as [a|] eqn:Eauth.
      * apply authRequested_needs_no_authorization in Eauth.
        match goal with
        | |- context [doRequestTo _ _ ?u ?w2] => specialize (IH u w2)
        end.
        cbn [requestsDone fetches set_requestHeaders] in IH.
        unfold authAllowance in IH at 1. cbn [requestHeaders set_requestHeaders] in IH.
        rewrite get_set_same in IH.
        unfold authAllowance in A1 at 1. rewrite Eauth in A1.
        specialize (IH ltac:(lia)). lia.
      * destruct (trackCookies_frame resp w1)
          as (_ & _ & Tf & _ & Th & Td & _).
        destruct (isRedirect resp).
        -- destruct (Nat.eqb_spec
                       (requestsDone (incr_requestsDone (trackCookies resp w1))) 21)
             as [E|E].
           ++ destruct (catchRequest_frame (redirectLoopError uri)
                          (incr_requestsDone (trackCookies resp w1))) as [Hc _].
              rewrite Hc. cbn [fetches incr_requestsDone]. rewrite Tf. lia.
           ++ cbn [requestsDone incr_requestsDone] in E. rewrite Td, D1 in E.
              match goal with
              | |- context [doRequestTo _ _ ?u ?w2] => specialize (IH u w2)
              end.
              cbn [requestsDone fetches emit incr_requestsDone] in IH.
              unfold authAllowance in IH at 1.
              cbn [requestHeaders emit incr_requestsDone] in IH.
              rewrite Tf, Td, Th, D1 in IH.
              fold (authAllowance w1) in IH. rewrite A1 in IH.
              specialize (IH ltac:(lia)). lia.
        -- destruct (complete_spec uri resp (trackCookies resp w1)) as (_ & Hf & _).
           rewrite Hf, Tf. lia.
    + destruct (catchRequest_frame (Reason reason) w1) as [Hc _]. rewrite Hc. lia.
    + lia.
Qed.

(** Whatever the transport answers, [createClient] calls it at most
    twenty-two times for one request: the request it starts with, twenty
    redirects, and one retry with authentication, or the one preflight. *)
Theorem transport_calls_bounded :
  forall (env : Env) (x : Xhr),
    match createClient env x with
    | Ok c =>
        match operation c with
        | NetRequest w => (length (fetches w) <= 22)%nat
        | _ => True
        end
    | Throw _ => True
    end.
Proof.
  intros env x. unfold createClient. cbv zeta.
  destruct (protocol (Flag.uri (flag x)) =? "file:"); [exact I|].
  destruct (protocol (Flag.uri (flag x)) =? "data:").
  { destruct (parseDataURL env) as [[contentType buffer]|err]; exact I. }
  destruct (makeAgent (flag x)) as [agent|err]; [|exact I].
  cbn [operation]. destruct (needsPreflight x).
  - rewrite doPreflight_fetches. cbn. lia.
  - unfold doRequest.
    pose proof (doRequestTo_calls_bounded (requestOptions (flag x) agent) (transport env)
                  (Some (href (Flag.uri (flag x)))) (initialWorld x)) as H.
    cbn [requestsDone fetches initialWorld length] in H.
    specialize (H ltac:(lia)). unfold authAllowance in H.
    destruct (Js.get (requestHeaders (initialWorld x)) "Authorization"); lia.
Qed.

(* ------------------------------------------------------------------ *)
(** ** Reporting errors *)

(** [dispatchError] reports the message stored in [properties.error]: the
    request ends DONE, not sending, with the response state reset; in
    synchronous mode a NetworkError exception with the message is thrown
    and nothing is fired or logged; otherwise [error] is fired on the
    request, every event sees the reset state, and the message goes to the
    virtual console last, exactly when the request has an owner document. *)
Theorem dispatchError_reports_message :
  forall (w : World),
    let r := dispatchError w in
    let message := Properties.error (properties (xhr w)) in
    networkErrorShape (xhr (snd r)) /\
    readyState (xhr (snd r)) = DONE /\
    Properties.send (properties (xhr (snd r))) = false /\
    (if Flag.synchronous (flag (xhr w))
     then fst r = Throw (DOMException message "NetworkError") /\
          events (snd r) = events w
     else fst r = Ok tt /\
          exists fired seen,
            events (snd r) =
            (events w ++ fired ++
             (if ownerDocument (xhr w) then [JsdomError message] else []))%list /\
            Forall seesNetworkError fired /\
            In (Fired "error" onXhr seen) fired).
Proof.
  intros w. cbv zeta. unfold_steps. cbn.
  destruct (Flag.synchronous (flag (xhr w))); cbn.
  { repeat split. }
  destruct (Properties.uploadComplete (properties (xhr w))); cbn;
    [|destruct (Properties.uploadListener (properties (xhr w))); cbn];
    destruct (ownerDocument (xhr w)); cbn;
    (split; [repeat split|]); (split; [reflexivity|]); (split; [reflexivity|]);
    (split; [reflexivity|]);
    rewrite <- ?app_assoc; cbn [app].
  1: eexists [_; _; _], _.
  2: eexists [_; _; _], _.
  3: eexists [_; _; _; _; _], _.
  4: eexists [_; _; _; _; _], _.
  5: eexists [_; _; _], _.
  6: eexists [_; _; _], _.
  all: split; [reflexivity|]; split; [repeat constructor|]; cbn; tauto.
Qed.

Lemma uploadEvents_app (l1 l2 : list Event) :
  uploadEvents (l1 ++ l2) = (uploadEvents l1 ++ uploadEvents l2)%list.
Proof. unfold uploadEvents. apply flat_map_app. Qed.

(** The upload object is notified at most once: in asynchronous mode the
    error steps fire their event and [loadend] on the upload object
    exactly when the upload was not complete and an upload listener is
    attached, they leave the upload complete, and running them again fires
    nothing on the upload object. *)
Theorem upload_notified_once :
  forall (event : string) (exception : Exn) (w : World),
    Flag.synchronous (flag (xhr w)) = false ->
    let w1 := snd (requestErrorSteps event exception w) in
    let w2 := snd (requestErrorSteps event exception w1) in
    Properties.uploadComplete (properties (xhr w1)) = true /\
    uploadEvents (events w1) =
    (uploadEvents (events w) ++
     (if negb (Properties.uploadComplete (properties (xhr w)))
         && Properties.uploadListener (properties (xhr w))
      then [event; "loadend"] else []))%list /\
    uploadEvents (events w2) = uploadEvents (events w1).
Proof.
  intros event exception w Hsync. cbv zeta.
  unfold requestErrorSteps, bind, modify, gets, throw, when, fireAnEvent, ret.
  cbn. rewrite Hsync. cbn.
  destruct (Properties.uploadComplete (properties (xhr w))) eqn:Hc; cbn;
    [|destruct (Properties.uploadListener (properties (xhr w))) eqn:Hl; cbn];
    rewrite ?Hsync; cbn; rewrite ?Hc; cbn;
    rewrite !uploadEvents_app; cbn; rewrite ?app_nil_r; repeat split.
  now rewrite <- app_assoc.
Qed.

(* ------------------------------------------------------------------ *)
(** ** Further properties on sample requests *)

Lemma getRequestHeader_last_match_witness :
  getRequestHeader [("content-type", "a"); ("Content-Type", "b"); ("Accept", "c")]
                   "CONTENT-TYPE"
  = Some "b".
Proof.
  apply (@getRequestHeader_last_match [("content-type", "a")] [("Accept", "c")]
           "Content-Type" "b" "CONTENT-TYPE").
  - reflexivity.
  - cbn. intros [H|[]]. discriminate.
  - cbn. intros k [H|[]]. subst k. cbn. discriminate.
Defined.

Lemma default_headers_present_witness :
  getRequestHeader (initialRequestHeaders (flag putRequest)) "accept" <> None.
Proof.
  apply (@default_headers_present (flag putRequest) "accept").
  cbn. tauto.
Defined.

Lemma caller_headers_kept_witness :
  Js.get (initialRequestHeaders (flag putRequest)) "X-Token" = Some "t".
Proof.
  rewrite (@caller_headers_kept (flag putRequest) "X-Token").
  - reflexivity.
  - cbn. now left.
  - discriminate.
  - discriminate.
Defined.

Lemma body_only_beyond_get_and_head_witness :
  opt_body (requestOptions (flag postRequest) (HttpAgent true true)) = Some "a=1" /\
  Js.get (initialRequestHeaders (flag postRequest)) "Content-Type"
  = Some "text/plain;charset=UTF-8".
Proof.
  assert (Hget : Js.toUpperCase (Flag.method (flag postRequest)) <> "GET")
    by (cbn; discriminate).
  assert (Hhead : Js.toUpperCase (Flag.method (flag postRequest)) <> "HEAD")
    by (cbn; discriminate).
  destruct (proj2 (@body_only_beyond_get_and_head (flag postRequest))
                  Hget Hhead eq_refl) as [Hbody Htype].
  split; [exact (Hbody (HttpAgent true true)) | exact (Htype eq_refl)].
Defined.

Lemma abort_during_request_witness :
  events (doRequestTo sampleOptions
            (map answered [redirectResponse] ++ [mkStep true (Rejected "AbortError")])
            (Some "http://app.example/page") (initialWorld getRequest)) =
  [EmitRedirect; EmitAbort].
Proof.
  apply (@abort_during_request sampleOptions (Some "http://app.example/page")
           (initialWorld getRequest) [redirectResponse]
           (mkStep true (Rejected "AbortError")) []).
  - reflexivity.
  - repeat constructor.
  - cbn. lia.
  - reflexivity.
  - discriminate.
Defined.

Lemma loader_abort_resolves_null_witness :
  fst (Loader._request [mkStep true (Rejected "AbortError")] "http://app.example/page")
  = Loader.Null \/
  fst (Loader._request [mkStep true (Rejected "AbortError")] "http://app.example/page")
  = Loader.Unsettled.
Proof.
  exact (proj1 (@loader_abort_resolves_null [mkStep true (Rejected "AbortError")]
                  "http://app.example/page" eq_refl)).
Defined.

Lemma loader_redirect_limit_witness :
  fst (Loader._request (map answered (repeat redirectResponse 20)
                        ++ [answered (okResponse [] (Fulfilled "ok"))])
                       "http://app.example/page") = Loader.Body "ok".
Proof.
  assert (Hall : Forall (fun r => (300 <= resp_status r < 400)%Z)
                        (repeat redirectResponse 20)).
  { cbn [repeat]. repeat constructor; cbn; lia. }
  destruct (@loader_redirect_limit "http://app.example/page"
              (repeat redirectResponse 20) (okResponse [] (Fulfilled "ok")) []
              eq_refl Hall) as [Hok _].
  assert (Hstatus : (resp_status (okResponse [] (Fulfilled "ok")) < 300 \/
                     resp_status (okResponse [] (Fulfilled "ok")) = 400)%Z).
  { left. cbn. lia. }
  exact (proj1 (Hok Hstatus eq_refl "ok" eq_refl)).
Defined.

Lemma loader_status_above_400_rejects_witness :
  fst (Loader._request [answered (mkResp 404 [] (Fulfilled "") false)]
                       "http://app.example/page")
  = Loader.Rejects Loader.UnexpectedStatus.
Proof.
  assert (Hlen : (length (@nil FetchResponse) <= 20)%nat) by (cbn; lia).
  assert (Hst : (400 < resp_status (mkResp 404 [] (Fulfilled "") false))%Z)
    by (cbn; lia).
  exact (proj1 (@loader_status_above_400_rejects "http://app.example/page" []
                  (mkResp 404 [] (Fulfilled "") false) [] Hlen (Forall_nil _) Hst)).
Defined.

Lemma upload_notified_once_witness :
  let w1 := snd (requestErrorSteps "error" (Error "failed")
                   (initialWorld uploadRequest)) in
  uploadEvents (events w1) = ["error"; "loadend"] /\
  uploadEvents (events (snd (requestErrorSteps "error" (Error "failed") w1)))
  = ["error"; "loadend"].
Proof.
  destruct (@upload_notified_once "error" (Error "failed")
              (initialWorld uploadRequest) eq_refl) as (_ & Hfirst & Hsecond).
  cbv zeta in Hfirst, Hsecond |- *. split; [exact Hfirst|].
  rewrite Hsecond. exact Hfirst.
Defined.

(* ------------------------------------------------------------------ *)
(** ** The request helper *)

Lemma get_delete_other {V : Type} (o : Js.obj V) (k k' : string) :
  k' <> k -> Js.get (obj_delete o k') k = Js.get o k.
Proof.
  intros Hne. unfold obj_delete. induction o as [|[k0 v0] o IH]; cbn; [reflexivity|].
  destruct (String.eqb_spec k0 k') as [E|E]; cbn.
  - subst k0. destruct (String.eqb_spec k' k); [contradiction|exact IH].
  - destruct (k0 =? k); [reflexivity|exact IH].
Qed.

Lemma redirection_status (o : Request.Options) (r : Request.Response) :
  Request.isRedirection o r = true ->
  (300 <= Request.statusCode r < 400)%Z /\ Request.statusCode r <> 304%Z.
Proof.
  unfold Request.isRedirection.
  destruct (Request.followRedirect o) as [[|]|]; try discriminate;
    rewrite !andb_true_iff, negb_true_iff, Z.leb_le, Z.ltb_lt, Z.eqb_neq; tauto.
Qed.

Lemma redirection_not_challenged (o : Request.Options) (r : Request.Response)
      (st : Request.State) :
  (Request.statusCode r =? 401)%Z = false -> Request.authChallenged o r st = false.
Proof.
  intros H. unfold Request.authChallenged. rewrite H.
  destruct (Request.auth o); [|reflexivity].
  destruct (Request.i_auth (Request.requestOptions st)); reflexivity.
Qed.

(** One redirect the helper follows: the budget goes down by one,
    [redirect] is emitted, the next request is issued with the URL come
    from as its Referer, and the helper is at the new URL. *)
Lemma respond_redirect (env : Request.Env) (o : Request.Options)
      (r : Request.Response) (rest : list Request.Step) (st : Request.State) :
  Request.aborted st = false ->
  followable env o r ->
  (0 < Request.redirectsLeft st)%Z ->
  exists st',
    Request.respond env o (requestAnswered r :: rest) st = Request.respond env o rest st' /\
    afterRedirects env o [r] st st' /\
    Js.get (Request.i_headers (Request.requestOptions st')) "Referer"
    = Some (Request.result_href st) /\
    Request.result_href st' = Request.href (Request.url st').
Proof.
  intros Hab [Hred [u Hparse]] Hleft.
  destruct (redirection_status o r Hred) as [Hrange Hne].
  assert (H401 : (Request.statusCode r =? 401)%Z = false) by (apply Z.eqb_neq; lia).
  cbn [Request.respond requestAnswered Request.abortCalled Request.answer]. cbv zeta.
  cbn [Request.aborted Request.signal]. rewrite Hab. cbn [orb].
  rewrite redirection_not_challenged by assumption. rewrite Hred.
  assert (Hz : forall st0, Request.redirectsLeft st0 = Request.redirectsLeft st ->
                           (Request.redirectsLeft st0 =? 0)%Z = false).
  { intros st0 E. rewrite E. apply Z.eqb_neq. lia. }
  rewrite Hz.
  2: { destruct (Headers.raw (Request.resp_headers r) "set-cookie");
       [destruct (Request.jar o)|]; reflexivity. }
  rewrite Hparse.
  eexists. split; [reflexivity|].
  split; [|split].
  - unfold afterRedirects, lastUrl, nodeCookies. cbn [fold_left flat_map length repeat].
    rewrite Hparse.
    destruct (Headers.raw (Request.resp_headers r) "set-cookie") as [values|];
      destruct (Request.jar o); cbn -[obj_delete Js.get Js.set];
      rewrite ?Hab, ?app_nil_r, ?length_app; cbn [length];
      repeat split; try lia;
      repeat match goal with
             | |- context [if ?b then _ else _] => destruct b
             end; reflexivity.
  - destruct (Headers.raw (Request.resp_headers r) "set-cookie") as [values|];
      destruct (Request.jar o); cbn -[obj_delete Js.get Js.set];
      repeat match goal with
             | |- context [if ?b then _ else _] => destruct b
             end; cbn -[obj_delete Js.get Js.set];
      rewrite ?get_set_other by discriminate;
      rewrite ?get_delete_other by discriminate; apply get_set_same.
  - reflexivity.
Qed.

Lemma nodeCookies_cons (r : Request.Response) (rs : list Request.Response) :
  nodeCookies (r :: rs) = (nodeCookies [r] ++ nodeCookies rs)%list.
Proof. unfold nodeCookies. cbn. now rewrite app_nil_r. Qed.

Lemma respond_redirects (env : Request.Env) (o : Request.Options)
      (rest : list Request.Step) :
  forall (rs : list Request.Response) (st : Request.State),
    Request.aborted st = false ->
    Forall (followable env o) rs ->
    (Z.of_nat (length rs) <= Request.redirectsLeft st)%Z ->
    exists st',
      Request.respond env o (map requestAnswered rs ++ rest) st
      = Request.respond env o rest st' /\
      afterRedirects env o rs st st'.
Proof.
  intros rs. induction rs as [|r rs IH]; intros st Hab Hall Hn.
  - exists st. split; [reflexivity|].
    unfold afterRedirects. cbn. rewrite !app_nil_r, Z.sub_0_r, Nat.add_0_r.
    destruct (Request.jar o); repeat split; now rewrite app_nil_r.
  - inversion Hall as [|? ? Hr Hrs]; subst.
    cbn [length] in Hn. rewrite Nat2Z.inj_succ in Hn.
    destruct (@respond_redirect env o r (map requestAnswered rs ++ rest) st Hab Hr)
      as (st1 & Heq & Hops & _); [lia|].
    cbn [map app]. rewrite Heq.
    destruct Hops as (A1 & A2 & A3 & A4 & A5 & A6 & A7 & A8).
    cbn [length] in A2. 
    destruct (IH st1) as (st' & Heq' & Hops'); [congruence|assumption|lia|].
    exists st'. split; [exact Heq'|].
    destruct Hops' as (B1 & B2 & B3 & B4 & B5 & B6 & B7 & B8).
    unfold afterRedirects. cbn [length repeat].
    rewrite nodeCookies_cons.
    repeat split.
    + congruence.
    + rewrite B2, A2, Nat2Z.inj_succ. cbn. lia.
    + rewrite B3, A3. cbn [length repeat]. rewrite <- app_assoc. reflexivity.
    + rewrite B4, A4. cbn [length]. lia.
    + congruence.
    + rewrite B6, A6. destruct (Request.jar o); rewrite <- app_assoc; reflexivity.
    + rewrite B7, A7. reflexivity.
    + congruence.
Qed.

(** The first request of the helper. *)
Lemma request_starts (env : Request.Env) (urlString : option string)
      (o : Request.Options) (u : Request.Url) (script : list Request.Step) :
  requestStarts env urlString o u ->
  exists st,
    Request.request env urlString o script
    = Request.ReturnsPromise (Request.respond env o script st) /\
    Request.aborted st = false /\
    Request.redirectsLeft st = Request.redirectBudget o /\
    Request.events st = [Request.EmitRequest] /\
    length (Request.requests st) = 1%nat /\
    Request.setCookies st = [] /\
    Request.gatheredCookies st = [] /\
    Request.url st = u /\
    Request.i_auth (Request.requestOptions st) = None.
Proof.
  intros (Hparse & Hproto & Hcred & Hauth). unfold Request.request.
  rewrite Hparse.
  assert (Hp : negb (Request.protocol u =? "http:")
               && negb (Request.protocol u =? "https:") = false).
  { destruct Hproto as [H|H]; rewrite H; reflexivity. }
  rewrite Hp, Hcred.
  assert (Hs : match Request.auth o with
               | Some _ => Request.sendImmediately o
               | None => false
               end = false).
  { destruct Hauth as [H|H]; [now rewrite H|].
    destruct (Request.auth o); [exact H|reflexivity]. }
  rewrite Hs. cbv zeta. eexists. split; [reflexivity|].
  destruct (Request.jar o); cbn;
    [destruct (negb (Request.getCookieString env (Request.href u) =? ""))|];
    cbn; repeat split.
Qed.

(** The redirect budget of the helper: it follows as many redirects as
    [maxRedirects] says (five when the option is unset or 0), emitting
    [redirect] for each, and answers the next redirect with the error
    "too many redirects" without issuing another request. *)
Theorem request_redirect_budget :
  forall (env : Request.Env) (urlString : option string) (o : Request.Options)
         (u : Request.Url) (rs : list Request.Response) (last : Request.Response)
         (rest : list Request.Step),
    requestStarts env urlString o u ->
    Forall (followable env o) rs ->
    Request.isRedirection o last = true ->
    Z.of_nat (length rs) = Request.redirectBudget o ->
    (Request.maxRedirects o = None \/ Request.maxRedirects o = Some 0%Z ->
     length rs = 5%nat) /\
    exists st,
      Request.request env urlString o
        (map requestAnswered rs ++ requestAnswered last :: rest)
      = Request.ReturnsPromise (Request.Running st) /\
      Request.events st =
      (Request.EmitRequest :: repeat Request.EmitRedirect (length rs)
       ++ [Request.EmitError "too many redirects"])%list /\
      length (Request.requests st) = S (length rs).
Proof.
  intros env urlString o u rs last rest Hstart Hall Hlast Hlen. split.
  - intros Hmax. unfold Request.redirectBudget in Hlen.
    destruct Hmax as [H|H]; rewrite H in Hlen; cbn in Hlen; lia.
  - destruct (@request_starts env urlString o u
                (map requestAnswered rs ++ requestAnswered last :: rest) Hstart)
      as (st0 & Heq & Hab & Hleft & Hev & Hreq & _).
    rewrite Heq.
    destruct (@respond_redirects env o (requestAnswered last :: rest) rs st0 Hab Hall)
      as (st1 & Heq1 & Hops); [lia|].
    rewrite Heq1.
    destruct Hops as (A1 & A2 & A3 & A4 & _).
    destruct (redirection_status o last Hlast) as [Hrange _].
    assert (H401 : (Request.statusCode last =? 401)%Z = false)
      by (apply Z.eqb_neq; lia).
    cbn [Request.respond requestAnswered Request.abortCalled Request.answer].
    cbv zeta. cbn [Request.aborted Request.signal].
    rewrite A1, Hab. cbn [orb].
    rewrite redirection_not_challenged by assumption. rewrite Hlast.
    assert (Hz : forall st2, Request.redirectsLeft st2 = Request.redirectsLeft st1 ->
                             (Request.redirectsLeft st2 =? 0)%Z = true).
    { intros st2 E. rewrite E, A2, Hleft. apply Z.eqb_eq. lia. }
    rewrite Hz.
    2: { destruct (Headers.raw (Request.resp_headers last) "set-cookie");
         [destruct (Request.jar o)|]; reflexivity. }
    eexists. split; [reflexivity|].
    unfold Request.errorHandler.
    destruct (Headers.raw (Request.resp_headers last) "set-cookie");
      [destruct (Request.jar o)|];
      cbn; rewrite A1, Hab; cbn; rewrite A3, A4, Hev, Hreq;
      (split; [now rewrite <- app_assoc | reflexivity]).
Qed.

Lemma request_setCookie_each :
  forall (values : list string) (st : Request.State),
    let st' := fold_left (fun st header =>
                            Request.call_setCookie header
                              (Request.href (Request.url st)) st) values st in
    Request.url st' = Request.url st /\
    Request.events st' = Request.events st /\
    Request.requests st' = Request.requests st /\
    Request.gatheredCookies st' = Request.gatheredCookies st /\
    Request.setCookies st' =
    (Request.setCookies st ++
     map (fun header => (header, Request.href (Request.url st))) values)%list.
Proof.
  intros values. induction values as [|v values IH]; intros st; cbn [fold_left map].
  - rewrite app_nil_r. repeat split.
  - destruct (IH (Request.call_setCookie v (Request.href (Request.url st)) st))
      as (A & B & C & D & E).
    cbv zeta in *. rewrite A, B, C, D, E. cbn. rewrite <- app_assoc. repeat split.
Qed.

Lemma request_setCookie_all :
  forall (gathered : list (list string)) (st : Request.State),
    let st' := fold_left
                 (fun st values =>
                    fold_left (fun st header =>
                                 Request.call_setCookie header
                                   (Request.href (Request.url st)) st) values st)
                 gathered st in
    Request.url st' = Request.url st /\
    Request.events st' = Request.events st /\
    Request.requests st' = Request.requests st /\
    Request.gatheredCookies st' = Request.gatheredCookies st /\
    Request.setCookies st' =
    (Request.setCookies st ++
     map (fun header => (header, Request.href (Request.url st))) (concat gathered))%list.
Proof.
  intros gathered. induction gathered as [|values gathered IH]; intros st;
    cbn [fold_left concat].
  - cbn. rewrite app_nil_r. repeat split.
  - destruct (request_setCookie_each values st) as (A1 & B1 & C1 & D1 & E1).
    cbv zeta in *.
    set (st1 := fold_left _ values st) in *.
    destruct (IH st1) as (A & B & C & D & E).
    rewrite A, B, C, D, E, A1, B1, C1, D1, E1, map_app, app_assoc. repeat split.
Qed.

Lemma emit_all_frame (es : list Request.Event) :
  forall (st : Request.State),
    Request.events (Request.emit_all es st) = (Request.events st ++ es)%list /\
    Request.requests (Request.emit_all es st) = Request.requests st /\
    Request.setCookies (Request.emit_all es st) = Request.setCookies st.
Proof.
  unfold Request.emit_all. induction es as [|e es IH]; intros st; cbn [fold_left].
  - rewrite app_nil_r. repeat split.
  - destruct (IH (Request.emit e st)) as (A & B & C). rewrite A, B, C. cbn.
    rewrite <- app_assoc. repeat split.
Qed.

(** [onData]: the cookies gathered go to the jar against the URL the
    helper is at, when there is a jar; no request is issued. *)
Lemma onData_frame (env : Request.Env) (o : Request.Options)
      (resp : Request.Response) (st : Request.State) :
  let st' := stateOf (Request.onData env o resp st) in
  Request.requests st' = Request.requests st /\
  Request.setCookies st' =
  (Request.setCookies st ++
   (if Request.jar o
    then map (fun header => (header, Request.href (Request.url st)))
             (concat (Request.gatheredCookies st))
    else []))%list.
Proof.
  cbv zeta. unfold Request.onData. cbv zeta.
  set (st1 := if Request.jar o then _ else st).
  assert (H1 : Request.requests st1 = Request.requests st /\
               Request.setCookies st1 =
               (Request.setCookies st ++
                (if Request.jar o
                 then map (fun header => (header, Request.href (Request.url st)))
                          (concat (Request.gatheredCookies st))
                 else []))%list).
  { subst st1. destruct (Request.jar o).
    - destruct (request_setCookie_all (Request.gatheredCookies st) st)
        as (_ & _ & C & _ & E). split; assumption.
    - rewrite app_nil_r. split; reflexivity. }
  destruct H1 as [R1 S1].
  destruct (negb (Request.statusCode resp =? 204)%Z
            && negb (Request.statusCode resp =? 304)%Z); [|cbn; split; assumption].
  match goal with
  | |- context [match ?d with Ok _ => _ | Throw _ => _ end] => destruct d as [body|e]
  end; [|cbn; split; assumption].
  destruct (emit_all_frame (map Request.EmitData body) st1) as (_ & B & C).
  destruct (Request.ends resp); cbn; rewrite B, C; split; assumption.
Qed.

(** A response with status 204 or 304 is delivered without a body: the
    helper emits [response] and then [end], no [data], and issues no
    further request; a 304 is never followed as a redirect. *)
Theorem no_body_for_204_and_304 :
  forall (env : Request.Env) (o : Request.Options) (resp : Request.Response)
         (rest : list Request.Step) (st : Request.State),
    Request.aborted st = false ->
    Request.statusCode resp = 204%Z \/ Request.statusCode resp = 304%Z ->
    exists st',
      Request.respond env o (requestAnswered resp :: rest) st = Request.Running st' /\
      Request.events st' =
      (Request.events st ++
       [Request.EmitResponse (Request.statusCode resp) (Request.resp_headers resp);
        Request.EmitEnd])%list /\
      Request.requests st' = Request.requests st.
Proof.
  intros env o resp rest st Hab Hstatus.
  assert (H401 : (Request.statusCode resp =? 401)%Z = false)
    by (apply Z.eqb_neq; lia).
  assert (Hred : Request.isRedirection o resp = false).
  { unfold Request.isRedirection.
    destruct (Request.followRedirect o) as [[|]|]; try reflexivity;
      destruct Hstatus as [H|H]; rewrite H; reflexivity. }
  assert (Hbody : negb (Request.statusCode resp =? 204)%Z
                  && negb (Request.statusCode resp =? 304)%Z = false).
  { destruct Hstatus as [H|H]; rewrite H; reflexivity. }
  cbn [Request.respond requestAnswered Request.abortCalled Request.answer]. cbv zeta.
  cbn [Request.aborted Request.signal]. rewrite Hab. cbn [orb].
  rewrite redirection_not_challenged by assumption. rewrite Hred.
  unfold Request.onData. cbv zeta. rewrite Hbody.
  eexists. split; [reflexivity|].
  destruct (Request.jar o).
  - match goal with
    | |- context [fold_left ?f (Request.gatheredCookies ?s) ?s] =>
        destruct (request_setCookie_all (Request.gatheredCookies s) s)
          as (_ & B & C & _)
    end.
    cbv zeta in B, C. cbn [Request.events Request.requests Request.emit].
    rewrite B, C.
    destruct (Headers.raw (Request.resp_headers resp) "set-cookie"); cbn;
      rewrite <- app_assoc; split; reflexivity.
  - destruct (Headers.raw (Request.resp_headers resp) "set-cookie"); cbn;
      rewrite <- app_assoc; split; reflexivity.
Qed.

(** After [abort()] the helper reports no error and issues no request: a
    response that arrives then is answered with [abort], an error of the
    request is dropped, and the cookie jar is not written to. *)
Theorem request_abort_suppresses_errors :
  forall (env : Request.Env) (o : Request.Options) (s : Request.Step)
         (rest : list Request.Step) (st : Request.State),
    Request.aborted st = true \/ Request.abortCalled s = true ->
    exists st',
      Request.respond env o (s :: rest) st = Request.Running st' /\
      Request.requests st' = Request.requests st /\
      Request.setCookies st' = Request.setCookies st /\
      Request.events st' =
      (Request.events st ++
       match Request.answer s with
       | Request.Responds _ => [Request.EmitAbort]
       | _ => []
       end)%list.
Proof.
  intros env o s rest st Hab.
  assert (Ha : Request.aborted (Request.signal (Request.abortCalled s) st) = true).
  { cbn. destruct Hab as [H|H]; rewrite H; [reflexivity|apply orb_true_r]. }
  cbn [Request.respond]. cbv zeta.
  destruct (Request.answer s) as [resp|reason|].
  - rewrite Ha. eexists. split; [reflexivity|]. repeat split.
  - unfold Request.errorHandler. rewrite Ha. eexists. split; [reflexivity|].
    cbn. rewrite app_nil_r. repeat split.
  - eexists. split; [reflexivity|]. cbn. rewrite app_nil_r. repeat split.
Qed.

(** With credentials configured, a 401 that carries [WWW-Authenticate]
    is not answered with a retry: [onAuth] calls [getAuthString], which the
    file does not define, and the call ends there, without a further
    request and without [response]. *)
Theorem auth_challenge_is_not_retried :
  forall (env : Request.Env) (o : Request.Options) (a : Auth)
         (resp : Request.Response) (rest : list Request.Step) (st : Request.State),
    Request.aborted st = false ->
    Request.auth o = Some a ->
    Request.i_auth (Request.requestOptions st) = None ->
    Request.statusCode resp = 401%Z ->
    Headers.has (Request.resp_headers resp) "www-authenticate" = true ->
    exists st',
      Request.respond env o (requestAnswered resp :: rest) st
      = Request.Crashed "ReferenceError: getAuthString is not defined" st' /\
      Request.requests st' = Request.requests st /\
      Request.events st' = Request.events st.
Proof.
  intros env o a resp rest st Hab Hauth Hnone H401 Hwww.
  cbn [Request.respond requestAnswered Request.abortCalled Request.answer]. cbv zeta.
  cbn [Request.aborted Request.signal]. rewrite Hab. cbn [orb].
  assert (Hc : forall st0,
             Request.i_auth (Request.requestOptions st0) = None ->
             Request.authChallenged o resp st0 = true).
  { intros st0 E. unfold Request.authChallenged. rewrite Hauth, E, H401, Hwww.
    reflexivity. }
  rewrite Hc.
  2: { destruct (Headers.raw (Request.resp_headers resp) "set-cookie");
       [destruct (Request.jar o)|]; exact Hnone. }
  eexists. split; [reflexivity|].
  destruct (Headers.raw (Request.resp_headers resp) "set-cookie");
    [destruct (Request.jar o)|]; split; reflexivity.
Qed.

Lemma get_delete_same {V : Type} (o : Js.obj V) (k : string) :
  Js.get (obj_delete o k) k = None.
Proof.
  unfold obj_delete. induction o as [|[k0 v0] o IH]; cbn; [reflexivity|].
  destruct (k0 =? k) eqn:E; cbn; [exact IH|]. rewrite E. exact IH.
Qed.

Lemma nodeCookies_app (rs rs' : list Request.Response) :
  nodeCookies (rs ++ rs') = (nodeCookies rs ++ nodeCookies rs')%list.
Proof. unfold nodeCookies. apply flat_map_app. Qed.

(** The request that follows a redirect goes to the URL of [Location]
    with the method of the request before it, whatever the status; its
    Referer is the URL redirected from; and with a jar its Cookie header is
    what the jar holds for the new URL, the cookie of the request before
    being dropped, while without a jar the Cookie header stays as it was. *)
Theorem redirected_request_headers :
  forall (env : Request.Env) (o : Request.Options) (r : Request.Response)
         (u : Request.Url) (rest : list Request.Step) (st : Request.State),
    Request.aborted st = false ->
    Request.isRedirection o r = true ->
    Request.parse env (Headers.get (Request.resp_headers r) "location") = Ok (Some u) ->
    (0 < Request.redirectsLeft st)%Z ->
    exists st' issued,
      Request.respond env o (requestAnswered r :: rest) st
      = Request.respond env o rest st' /\
      Request.requests st' = (Request.requests st ++ [issued])%list /\
      Request.i_method issued = Request.i_method (Request.requestOptions st) /\
      Request.i_protocol issued = Request.protocol u /\
      Request.i_hostname issued = Request.hostname u /\
      Request.i_port issued = Request.port u /\
      Js.get (Request.i_headers issued) "Referer" = Some (Request.result_href st) /\
      Js.get (Request.i_headers issued) "Cookie" =
      (if Request.jar o
       then if Request.getCookieString env (Request.href u) =? ""
            then None
            else Some (Request.getCookieString env (Request.href u))
       else Js.get (Request.i_headers (Request.requestOptions st)) "Cookie").
Proof.
  intros env o r u rest st Hab Hred Hparse Hleft.
  destruct (redirection_status o r Hred) as [Hrange Hne].
  assert (H401 : (Request.statusCode r =? 401)%Z = false) by (apply Z.eqb_neq; lia).
  cbn [Request.respond requestAnswered Request.abortCalled Request.answer]. cbv zeta.
  cbn [Request.aborted Request.signal]. rewrite Hab. cbn [orb].
  match goal with
  | |- context [Request.authChallenged o r ?s0] => set (st1 := s0)
  end.
  assert (H1 : Request.requestOptions st1 = Request.requestOptions st /\
               Request.result_href st1 = Request.result_href st /\
               Request.requests st1 = Request.requests st /\
               Request.redirectsLeft st1 = Request.redirectsLeft st).
  { subst st1. destruct (Headers.raw (Request.resp_headers r) "set-cookie");
      [destruct (Request.jar o)|]; repeat split. }
  destruct H1 as (E1 & E2 & E3 & E4). clearbody st1.
  rewrite redirection_not_challenged by assumption. rewrite Hred.
  replace (Request.redirectsLeft st1 =? 0)%Z with false
    by (symmetry; apply Z.eqb_neq; lia).
  rewrite Hparse.
  eexists. eexists. split; [reflexivity|].
  cbn [Request.requests Request.issue Request.set_requestOptions Request.emit
       Request.go_to Request.decrement Request.requestOptions Request.result_href].
  rewrite E1, E2, E3. split; [reflexivity|].
  cbn [Request.with_headers Request.i_protocol].
  destruct (negb (Request.i_protocol (Request.requestOptions st) =? Request.protocol u)
            && negb (Request.pool o));
    destruct (Request.jar o);
    try destruct (Request.getCookieString env (Request.href u) =? "");
    cbn [negb Request.addUrlToRequestOptions Request.with_headers Request.with_agent
         Request.i_method Request.i_protocol Request.i_hostname Request.i_port
         Request.i_headers];
    repeat split;
    rewrite ?get_set_same, ?get_delete_same; try reflexivity;
    rewrite ?get_set_other by discriminate;
    rewrite ?get_delete_other by discriminate;
    rewrite ?get_set_same; try reflexivity;
    rewrite ?get_set_other by discriminate; reflexivity.
Qed.

(** With a jar, the cookies the responses set are written only when the
    final response arrives, and all against the URL of the final request:
    those of the redirects too.  Without a jar nothing is written. *)
Theorem request_cookies_written_at_final_url :
  forall (env : Request.Env) (urlString : option string) (o : Request.Options)
         (u : Request.Url) (rs : list Request.Response) (final : Request.Response)
         (rest : list Request.Step),
    requestStarts env urlString o u ->
    Forall (followable env o) rs ->
    (Z.of_nat (length rs) <= Request.redirectBudget o)%Z ->
    Request.isRedirection o final = false ->
    Request.statusCode final <> 401%Z ->
    exists run,
      Request.request env urlString o
        (map requestAnswered rs ++ requestAnswered final :: rest)
      = Request.ReturnsPromise run /\
      Request.setCookies (stateOf run) =
      (if Request.jar o
       then map (fun cookie => (cookie, Request.href (lastUrl env u rs)))
                (concat (nodeCookies (rs ++ [final])))
       else []) /\
      length (Request.requests (stateOf run)) = S (length rs).
Proof.
  intros env urlString o u rs final rest Hstart Hall Hlen Hfinal H401.
  destruct (@request_starts env urlString o u
              (map requestAnswered rs ++ requestAnswered final :: rest) Hstart)
    as (st0 & Heq & Hab & Hleft & Hev & Hreq & Hset & Hgath & Hurl & _).
  rewrite Heq.
  destruct (@respond_redirects env o (requestAnswered final :: rest) rs st0 Hab Hall)
    as (st1 & Heq1 & Hops); [lia|].
  rewrite Heq1.
  destruct Hops as (A1 & _ & _ & A4 & A5 & A6 & A7 & _).
  eexists. split; [reflexivity|].
  apply Z.eqb_neq in H401.
  cbn [Request.respond requestAnswered Request.abortCalled Request.answer].
  cbv zeta. cbn [Request.aborted Request.signal].
  rewrite A1, Hab. cbn [orb].
  rewrite redirection_not_challenged by assumption. rewrite Hfinal.
  match goal with
  | |- context [Request.onData env o final ?s] =>
      destruct (@onData_frame env o final s) as [R S]
  end.
  cbv zeta in R, S. rewrite R, S. clear R S.
  rewrite nodeCookies_app.
  unfold nodeCookies at 2. cbn [flat_map]. rewrite app_nil_r.
  destruct (Headers.raw (Request.resp_headers final) "set-cookie") as [values|];
    destruct (Request.jar o); cbn;
    rewrite ?A5, ?A6, ?A7, ?Hset, ?Hgath, ?Hurl, ?A4, ?Hreq, ?app_nil_r; cbn;
    split; reflexivity.
Qed.

(** When the parser leaves [username] and [password] undefined, as the
    [parse] of Node's url module does, every call with the [auth] option
    is refused: [request] returns undefined, sends nothing, and schedules
    the error about mismatching credentials. *)
Theorem auth_option_refused_without_url_credentials :
  forall (env : Request.Env) (urlString : option string) (o : Request.Options)
         (u : Request.Url) (a : Auth) (script : list Request.Step),
    Request.parse env urlString = Ok (Some u) ->
    Request.protocol u = "http:" \/ Request.protocol u = "https:" ->
    Request.username u = Request.Undefined ->
    Request.password u = Request.Undefined ->
    Request.auth o = Some a ->
    Request.request env urlString o script =
    Request.ReturnsUndefined
      [Request.EmitError
         ("credentials mismatch, either include them in the url or use "
          ++ Request.quote ++ "auth" ++ Request.quote ++ " option instead")].
Proof.
  intros env urlString o u a script Hparse Hproto Huser Hpass Hauth.
  unfold Request.request. rewrite Hparse.
  assert (Hp : negb (Request.protocol u =? "http:")
               && negb (Request.protocol u =? "https:") = false).
  { destruct Hproto as [H|H]; rewrite H; reflexivity. }
  rewrite Hp. unfold Request.credentialsMismatch.
  rewrite Huser, Hpass, Hauth. reflexivity.
Qed.

Lemma respond_requests_bounded (env : Request.Env) (o : Request.Options) :
  forall (script : list Request.Step) (st : Request.State),
    (0 <= Request.redirectsLeft st)%Z ->
    (length (Request.requests (stateOf (Request.respond env o script st)))
     <= length (Request.requests st) + Z.to_nat (Request.redirectsLeft st))%nat.
Proof.
  intros script. induction script as [|s script IH]; intros st Hleft.
  - cbn. lia.
  - cbn [Request.respond]. cbv zeta.
    destruct (Request.answer s) as [resp|reason|].
    + destruct (Request.aborted (Request.signal (Request.abortCalled s) st));
        [cbn; lia|].
      match goal with
      | |- context [Request.authChallenged o resp ?s0] => set (st1 := s0)
      end.
      assert (H1 : Request.requests st1 = Request.requests st /\
                   Request.redirectsLeft st1 = Request.redirectsLeft st).
      { subst st1. destruct (Headers.raw (Request.resp_headers resp) "set-cookie");
          [destruct (Request.jar o)|]; split; reflexivity. }
      destruct H1 as [Hreq Hred]. clearbody st1.
      destruct (Request.authChallenged o resp st1); [cbn; rewrite Hreq; lia|].
      destruct (Request.isRedirection o resp).
      * destruct (Request.redirectsLeft st1 =? 0)%Z eqn:Hz.
        { unfold Request.errorHandler.
          destruct (Request.aborted (Request.decrement st1)); cbn; rewrite Hreq; lia. }
        apply Z.eqb_neq in Hz.
        destruct (Request.parse env (Headers.get (Request.resp_headers resp) "location"))
          as [[u|]|e].
        -- match goal with
           | |- context [Request.respond env o script ?s0] => specialize (IH s0)
           end.
           cbn [Request.redirectsLeft Request.requests Request.issue
                Request.set_requestOptions Request.emit Request.go_to
                Request.decrement] in IH.
           rewrite length_app in IH. cbn [length] in IH. rewrite Hreq, Hred in IH.
           etransitivity; [apply IH; lia|]. lia.
        -- unfold Request.errorHandler.
           destruct (Request.aborted (Request.decrement st1)); cbn; rewrite Hreq; lia.
        -- cbn. rewrite Hreq. lia.
      * match goal with
        | |- context [Request.onData env o resp ?s0] =>
            destruct (@onData_frame env o resp s0) as [R _]
        end.
        cbv zeta in R. rewrite R. cbn. rewrite Hreq. lia.
    + unfold Request.errorHandler.
      destruct (Request.aborted (Request.signal (Request.abortCalled s) st)); cbn; lia.
    + cbn. lia.
Qed.

(** However the requests are answered, a call of the helper sends at most
    one request more than its redirect budget, as long as [maxRedirects]
    is not negative. *)
Theorem request_count_bounded :
  forall (env : Request.Env) (urlString : option string) (o : Request.Options)
         (u : Request.Url) (script : list Request.Step),
    requestStarts env urlString o u ->
    (0 <= Request.redirectBudget o)%Z ->
    exists run,
      Request.request env urlString o script = Request.ReturnsPromise run /\
      (length (Request.requests (stateOf run))
       <= S (Z.to_nat (Request.redirectBudget o)))%nat.
Proof.
  intros env urlString o u script Hstart Hbudget.
  destruct (@request_starts env urlString o u script Hstart)
    as (st0 & Heq & _ & Hleft & _ & Hreq & _).
  eexists. split; [exact Heq|].
  rewrite <- Hleft in *.
  etransitivity; [apply respond_requests_bounded; assumption|]. rewrite Hreq. lia.
Qed.


(* ------------------------------------------------------------------ *)
(** ** The request helper on sample requests *)

Lemma helper_starts (s : string) (o : Request.Options) :
  Request.auth o = None -> requestStarts helperEnv (Some s) o (helperUrl s).
Proof.
  intros H. repeat split; left; [reflexivity | exact H].
Qed.

Lemma helper_followable (o : Request.Options) (location : string) :
  Request.followRedirect o = None -> followable helperEnv o (movedTo location).
Proof.
  intros H. split.
  - unfold Request.isRedirection. now rewrite H.
  - now exists (helperUrl location).
Qed.

Lemma request_redirect_budget_witness :
  exists st,
    Request.request helperEnv (Some "http://www.example.org/") helperOptions
      (map requestAnswered (repeat (movedTo "http://www.example.org/next") 5)
       ++ requestAnswered (movedTo "http://www.example.org/next") :: [])
    = Request.ReturnsPromise (Request.Running st) /\
    Request.events st =
    (Request.EmitRequest :: repeat Request.EmitRedirect 5
     ++ [Request.EmitError "too many redirects"])%list /\
    length (Request.requests st) = 6%nat.
Proof.
  assert (Hall : Forall (followable helperEnv helperOptions)
                        (repeat (movedTo "http://www.example.org/next") 5)).
  { cbn [repeat]. repeat (apply Forall_cons; [now apply helper_followable|]); apply Forall_nil. }
  exact (proj2 (@request_redirect_budget helperEnv (Some "http://www.example.org/")
                  helperOptions (helperUrl "http://www.example.org/")
                  (repeat (movedTo "http://www.example.org/next") 5)
                  (movedTo "http://www.example.org/next") []
                  (@helper_starts "http://www.example.org/" helperOptions eq_refl)
                  Hall eq_refl eq_refl)).
Defined.

Lemma no_body_for_204_and_304_witness :
  exists st',
    Request.respond helperEnv helperOptions [requestAnswered notModified] helperState
    = Request.Running st' /\
    Request.events st' =
    [Request.EmitRequest; Request.EmitResponse 304 []; Request.EmitEnd] /\
    Request.requests st' = Request.requests helperState.
Proof.
  exact (@no_body_for_204_and_304 helperEnv helperOptions notModified []
           helperState eq_refl (or_intror eq_refl)).
Defined.

Lemma request_abort_suppresses_errors_witness :
  exists st',
    Request.respond helperEnv helperOptions
      [Request.mkStep true (Request.Errors "The operation was aborted")] helperState
    = Request.Running st' /\
    Request.requests st' = Request.requests helperState /\
    Request.setCookies st' = [] /\
    Request.events st' = [Request.EmitRequest].
Proof.
  exact (@request_abort_suppresses_errors helperEnv helperOptions
           (Request.mkStep true (Request.Errors "The operation was aborted")) []
           helperState (or_intror eq_refl)).
Defined.

Lemma auth_challenge_is_not_retried_witness :
  exists st',
    Request.respond helperEnv helperAuthOptions [requestAnswered challenged] helperState
    = Request.Crashed "ReferenceError: getAuthString is not defined" st' /\
    Request.requests st' = Request.requests helperState /\
    Request.events st' = [Request.EmitRequest].
Proof.
  exact (@auth_challenge_is_not_retried helperEnv helperAuthOptions
           (mkAuth "user" "secret") challenged [] helperState
           eq_refl eq_refl eq_refl eq_refl eq_refl).
Defined.

Lemma redirected_request_headers_witness :
  exists st' issued,
    Request.respond helperEnv helperOptions
      [requestAnswered (movedTo "http://www.example.org/next")] helperState
    = Request.respond helperEnv helperOptions [] st' /\
    Request.requests st' = (Request.requests helperState ++ [issued])%list /\
    Request.i_method issued = "GET" /\
    Request.i_protocol issued = "http:" /\
    Request.i_hostname issued = "www.example.org" /\
    Request.i_port issued = Request.Null /\
    Js.get (Request.i_headers issued) "Referer" = Some "http://www.example.org/" /\
    Js.get (Request.i_headers issued) "Cookie" = Some "sid=1".
Proof.
  assert (Hleft : (0 < Request.redirectsLeft helperState)%Z) by (cbn; lia).
  exact (@redirected_request_headers helperEnv helperOptions
           (movedTo "http://www.example.org/next")
           (helperUrl "http://www.example.org/next") [] helperState
           eq_refl eq_refl eq_refl Hleft).
Defined.

Lemma request_cookies_written_at_final_url_witness :
  exists run,
    Request.request helperEnv (Some "http://www.example.org/") helperOptions
      (map requestAnswered [movedTo "http://www.example.org/next"]
       ++ requestAnswered pageResponse :: [])
    = Request.ReturnsPromise run /\
    Request.setCookies (stateOf run) =
    [("a=1", "http://www.example.org/next"); ("b=2", "http://www.example.org/next")] /\
    length (Request.requests (stateOf run)) = 2%nat.
Proof.
  assert (Hall : Forall (followable helperEnv helperOptions)
                        [movedTo "http://www.example.org/next"]).
  { cbn [repeat]. repeat (apply Forall_cons; [now apply helper_followable|]); apply Forall_nil. }
  assert (Hlen : (Z.of_nat (length [movedTo "http://www.example.org/next"])
                  <= Request.redirectBudget helperOptions)%Z) by (cbn; lia).
  assert (H401 : Request.statusCode pageResponse <> 401%Z) by (cbn; lia).
  exact (@request_cookies_written_at_final_url helperEnv
           (Some "http://www.example.org/") helperOptions
           (helperUrl "http://www.example.org/")
           [movedTo "http://www.example.org/next"] pageResponse []
           (@helper_starts "http://www.example.org/" helperOptions eq_refl)
           Hall Hlen eq_refl H401).
Defined.

Lemma auth_option_refused_without_url_credentials_witness :
  Request.request legacyEnv (Some "http://www.example.org/") helperAuthOptions
                  [requestAnswered pageResponse]
  = Request.ReturnsUndefined
      [Request.EmitError
         ("credentials mismatch, either include them in the url or use "
          ++ Request.quote ++ "auth" ++ Request.quote ++ " option instead")].
Proof.
  exact (@auth_option_refused_without_url_credentials legacyEnv
           (Some "http://www.example.org/") helperAuthOptions
           (legacyUrl "http://www.example.org/")
           (mkAuth "user" "secret") [requestAnswered pageResponse]
           eq_refl (or_introl eq_refl) eq_refl eq_refl eq_refl).
Defined.

Lemma request_count_bounded_witness :
  exists run,
    Request.request helperEnv (Some "http://www.example.org/") helperOptions
      (map requestAnswered (repeat (movedTo "http://www.example.org/next") 9))
    = Request.ReturnsPromise run /\
    (length (Request.requests (stateOf run)) <= 6)%nat.
Proof.
  assert (Hbudget : (0 <= Request.redirectBudget helperOptions)%Z) by (cbn; lia).
  exact (@request_count_bounded helperEnv (Some "http://www.example.org/")
           helperOptions (helperUrl "http://www.example.org/")
           (map requestAnswered (repeat (movedTo "http://www.example.org/next") 9))
           (@helper_starts "http://www.example.org/" helperOptions eq_refl) Hbudget).
Defined.
